(** * NBA-Algo: threshold scanner, stat-window loader, file cache, odds pick

    A shallow embedding of the core of the [nba_trends_*] scripts:

    - [Phase5]  : [nba_trends_phase5_cached.py] (scanner [best_hit], loader
                  [fetch_player_logs], dated JSON cache [get_player_logs]);
                  [nba_trends_phase4.py] has the same scanner and loader.
    - [Phase6]  : the scanner [best_line] of [nba_trends_phase6_grouped.py].
    - [Parlays] : [nba_trends_parlays_final.py] (mtime cache, retrying
                  [get_last_n_games], the odds lookup and
                  [pick_highest_alt_or_best_standard]);
                  [nba_trends_final.py] has the same cache helpers.
    - [TestMulti] : [hit_rate] of [test_multi_player_stats.py].
    - [Trends]  : [calculate_auto_thresholds] and
                  [build_parlay_suggestions] of
                  [nba_trends_parlays_final.py].
    - [Phase4]  : the per-category picks and the starters of
                  [nba_trends_phase4.py].
    - [Phase5Starters] : [get_top5_by_minutes] of
                  [nba_trends_phase5_cached.py], over the dated cache.
    - [Phase6Logs] : the cache without expiry and [get_logs] of
                  [nba_trends_phase6_grouped.py].

    Conventions.  A pandas DataFrame of game logs is the list of its rows.
    Integers are [Z] (Python ints are unbounded), minutes are [N].  A
    [GAME_DATE] is a day number.  Clock readings are microseconds (the
    resolution of [datetime]) on the naive local time line.  Python's true
    division and the float comparisons against the configured minimum are
    taken over exact rationals [Q]; a quotient of window counts and the
    literals 0.8 / 0.9 round the same way, so both agree on every window a
    script can build. *)

From Stdlib Require Import ZArith QArith Qabs Qround Lia Ascii String.
From stdpp Require Import base tactics option list sorting gmap strings.

#[local] Open Scope Z_scope.

(** ** Python control flow: exceptions and [for] loops *)

Module Py.

Inductive exn : Set :=
| ZeroDivisionError
| KeyError
| FileNotFoundError
| RequestError.

Inductive Res (A : Type) : Type :=
| Ok (a : A)
| Raise (e : exn).
Arguments Ok {A} a.
Arguments Raise {A} e.

(** Sequencing: an exception raised by [m] skips the continuation. *)
#[global] Instance Res_bind : MBind Res := λ A B k m,
  match m with
  | Ok a => k a
  | Raise e => Raise e
  end.

#[global] Instance Res_fmap : FMap Res := λ A B f m,
  match m with
  | Ok a => Ok (f a)
  | Raise e => Raise e
  end.

(** [try: m  except: h] with a bare (catch-all) handler. *)
Definition try_except {A} (m : Res A) (h : A) : A :=
  match m with
  | Ok a => a
  | Raise _ => h
  end.

(** What one run of a loop body asks the loop to do next. *)
Inductive ctl (S R : Type) : Type :=
| Continue (s : S)
| Break (s : S)
| Return (r : R).
Arguments Continue {S R} s.
Arguments Break {S R} s.
Arguments Return {S R} r.

(** [for x in l: body] threading the loop-carried state [s].  The loop
    ends with [inl s] when it runs off the list or hits [break], and with
    [inr r] when the body executes [return r]. *)
Fixpoint for_in {A S R} (body : A → S → Res (ctl S R))
    (l : list A) (s : S) : Res (S + R) :=
  match l with
  | [] => Ok (inl s)
  | x :: l' =>
      match body x s with
      | Raise e => Raise e
      | Ok (Continue s') => for_in body l' s'
      | Ok (Break s') => Ok (inl s')
      | Ok (Return r) => Ok (inr r)
      end
  end.

(** The elements of [l] on which the body is actually run. *)
Fixpoint for_in_visited {A S R} (body : A → S → Res (ctl S R))
    (l : list A) (s : S) : list A :=
  match l with
  | [] => []
  | x :: l' =>
      x :: match body x s with
           | Ok (Continue s') => for_in_visited body l' s'
           | _ => []
           end
  end.

(** A loop whose body has no [break] and no [return] ([continue] just
    ends the body): the state is threaded through. *)
Fixpoint for_each {A S} (body : A → S → Res S) (l : list A) (s : S)
    : Res S :=
  match l with
  | [] => Ok s
  | x :: l' => s' ← body x s; for_each body l' s'
  end.

(** [a / b] on ints. *)
Definition truediv (a b : Z) : Res Q :=
  if b =? 0 then Raise ZeroDivisionError
  else Ok (inject_Z a / inject_Z b)%Q.

End Py.

Import Py.

(** ** Data model *)

(** Stat categories of the threshold tables. *)
Inductive category : Set := PTS | REB | AST | FG3M | STL | BLK.

#[global] Instance category_eq_dec : EqDecision category.
Proof. solve_decision. Defined.

(** One row of a player's game log. *)
Record GameRecord : Set := mkGame {
  GAME_DATE : Z;
  MIN : N;
  pts : Z;
  reb : Z;
  ast : Z;
  fg3m : Z;
  stl : Z;
  blk : Z
}.

#[global] Instance GameRecord_eq_dec : EqDecision GameRecord.
Proof. solve_decision. Defined.

Abbreviation DataFrame := (list GameRecord).

(** [row[cat]]; the derived column "3PM" is a copy of FG3M. *)
Definition stat (c : category) (r : GameRecord) : Z :=
  match c with
  | PTS => pts r
  | REB => reb r
  | AST => ast r
  | FG3M => fg3m r
  | STL => stl r
  | BLK => blk r
  end.

(** [(df[cat] >= lvl).sum()] *)
Definition hits_ge (df : DataFrame) (c : category) (lvl : Z) : Z :=
  Z.of_nat (length (filter (λ r, lvl ≤ stat c r) df)).

(** [hits / len(df)] as a number, for a non-empty window. *)
Definition rate_of (df : DataFrame) (c : category) (lvl : Z) : Q :=
  (inject_Z (hits_ge df c lvl) / inject_Z (Z.of_nat (length df)))%Q.

(** A threshold ladder is listed from the highest level down. *)
Definition descending : relation Z := λ a b, b ≤ a.

(** [df.sort_values("GAME_DATE", ascending=False)].  The order pandas
    gives to rows of the same date is not specified; the properties below
    use sortedness and the multiset of rows only. *)
Definition newer_first (r1 r2 : GameRecord) : Prop :=
  GAME_DATE r2 ≤ GAME_DATE r1.

#[global] Instance newer_first_dec r1 r2 : Decision (newer_first r1 r2).
Proof. unfold newer_first. apply _. Defined.

Definition sort_values_desc (df : DataFrame) : DataFrame :=
  merge_sort newer_first df.

(** ** nba_trends_phase5_cached.py *)

Module Phase5.

Section Scanner.

(** The configuration: [CATEGORIES] (threshold ladder per category) and
    [MIN_HIT]. *)
Variable CATEGORIES : category → list Z.
Variable MIN_HIT : Q.

(** Body of [for lvl in CATEGORIES[cat]]. *)
Definition best_hit_body (df : DataFrame) (total : Z) (c : category)
    (lvl : Z) (_ : unit) : Res (ctl unit (Z * Z * Q)) :=
  let hits := hits_ge df c lvl in
  rate ← truediv hits total;
  if Qle_bool MIN_HIT rate then Ok (Return (lvl, hits, rate))
  else Ok (Break tt).

Definition best_hit (df : DataFrame) (c : category)
    : Res (option (Z * Z * Q)) :=
  let total := Z.of_nat (length df) in
  if total =? 0 then Ok None
  else
    r ← for_in (best_hit_body df total c) (CATEGORIES c) tt;
    match r with
    | inr found => Ok (Some found)
    | inl _ => Ok None
    end.

(** The thresholds the loop of [best_hit] evaluates on [df]. *)
Definition best_hit_examined (df : DataFrame) (c : category) : list Z :=
  let total := Z.of_nat (length df) in
  if total =? 0 then []
  else for_in_visited (best_hit_body df total c) (CATEGORIES c) tt.

End Scanner.

(** *** The stat-window loader *)

Section Loader.

(** [SEASONS], and the stats collaborator
    [PlayerGameLog(player_id, season).get_data_frames()[0]]: the rows of
    one season in whatever order the service sends them, or an exception
    (timeout, malformed payload). *)
Variable SEASONS : list string.
Variable PlayerGameLog : Z → string → Res DataFrame.
Variable lookback : nat.

(** The rows the service holds for one season (nothing when the request
    fails), for a list of seasons, and those of them with minutes
    played. *)
Definition season_rows (pid : Z) (season : string) : DataFrame :=
  try_except (PlayerGameLog pid season) [].

Definition raw_rows (pid : Z) (seasons : list string) : DataFrame :=
  concat (season_rows pid <$> seasons).

Definition qualifying_rows (pid : Z) (seasons : list string) : DataFrame :=
  filter (λ r, (0 < MIN r)%N) (raw_rows pid seasons).

(** Body of [for season in SEASONS]: the [try] block appends the
    season's rows with [MIN > 0] to [df_all], the bare [except] leaves
    [df_all] as it was; then the length test decides on [break]. *)
Definition fetch_body (pid : Z) (season : string) (df_all : DataFrame)
    : Res (ctl DataFrame Empty_set) :=
  let df_all' :=
    try_except
      (part ← PlayerGameLog pid season;
       Ok (df_all ++ filter (λ r, (0 < MIN r)%N) part))
      df_all in
  if decide (lookback ≤ length df_all')%nat then Ok (Break df_all')
  else Ok (Continue df_all').

Definition fetch_player_logs (pid : Z) : Res DataFrame :=
  r ← for_in (fetch_body pid) SEASONS [];
  match r with
  | inl df_all =>
      if decide (df_all = []) then Ok df_all
      else Ok (take lookback (sort_values_desc df_all))
  | inr impossible => match impossible : Empty_set with end
  end.

End Loader.

(** *** The dated JSON cache *)

(** [cache/{pid}.json]: the day it was written ([updated], a
    [%Y-%m-%d] string) and the rows.  The store is keyed by [pid]
    ([cache_path] is injective). *)
Record CacheFile : Set := mkCacheFile {
  updated : Z;
  logs : DataFrame
}.

Definition us_per_hour : Z := 3600 * 1000000.
Definition us_per_day : Z := 24 * us_per_hour.

(** [timedelta(hours=h)] *)
Definition timedelta_hours (h : Z) : Z := h * us_per_hour.

(** [datetime.strptime(s, "%Y-%m-%d")]: midnight of that day. *)
Definition strptime_day (d : Z) : Z := d * us_per_day.

(** [t.date()], also [t.strftime("%Y-%m-%d")]. *)
Definition date_of (t : Z) : Z := t / us_per_day.

(** [df["GAME_DATE"].max() if not df.empty else None] *)
Definition newest_game_date (df : DataFrame) : option Z :=
  match df with
  | [] => None
  | r :: df' => Some (foldr (λ r' m, Z.max (GAME_DATE r') m) (GAME_DATE r) df')
  end.

Section Cache.

Variable CACHE_MAX_AGE_HOURS : Z.

(** The store holds well-formed files only: JSON objects with an
    ["updated"] date and a ["logs"] list of game records, as
    [save_cached_logs] writes them.  A file whose ["logs"] list is empty
    makes a frame without columns, and [df["GAME_DATE"]] raises on it. *)
Definition load_cached_logs (fs : gmap Z CacheFile) (now : Z) (pid : Z)
    : Res DataFrame :=
  match fs !! pid with
  | None => Ok []
  | Some data =>
      let cached_date := strptime_day (updated data) in
      if decide (now - cached_date > timedelta_hours CACHE_MAX_AGE_HOURS)
      then Ok []
      else if decide (logs data = []) then Raise KeyError
      else Ok (sort_values_desc (logs data))
  end.

Definition save_cached_logs (fs : gmap Z CacheFile) (now : Z) (pid : Z)
    (df : DataFrame) : gmap Z CacheFile :=
  <[pid := {| updated := date_of now; logs := df |}]> fs.

(** The clock readings of one call of [get_player_logs]: in
    [load_cached_logs], at the date test, and in [save_cached_logs]. *)
Record Clock : Set := mkClock {
  t_load : Z;
  t_today : Z;
  t_save : Z
}.

Variable SEASONS : list string.
Variable PlayerGameLog : Z → string → Res DataFrame.
Variable lookback : nat.

(** The [if not cached.empty: ... return cached] test. *)
Definition cached_is_current (cached : DataFrame) (today : Z) : bool :=
  if decide (cached = []) then false
  else
    match newest_game_date cached with
    | Some newest => bool_decide (newest >= today)
    | None => false
    end.

(** Returns the frame and the store as the call leaves it. *)
Definition get_player_logs (fs : gmap Z CacheFile) (clk : Clock) (pid : Z)
    : Res (DataFrame * gmap Z CacheFile) :=
  cached ← load_cached_logs fs (t_load clk) pid;
  if cached_is_current cached (date_of (t_today clk)) then Ok (cached, fs)
  else
    fresh ← fetch_player_logs SEASONS PlayerGameLog lookback pid;
    if decide (fresh = []) then Ok (fresh, fs)
    else Ok (fresh, save_cached_logs fs (t_save clk) pid fresh).

(** The condition under which the cached rows are served: there is an
    entry for [pid], written no more than the maximum age before
    (counted from the midnight its date stamp stands for), whose newest
    game is dated today or later. *)
Definition entry_current (fs : gmap Z CacheFile) (clk : Clock) (pid : Z)
    (data : CacheFile) : Prop :=
  fs !! pid = Some data
  ∧ t_load clk - strptime_day (updated data)
      ≤ timedelta_hours CACHE_MAX_AGE_HOURS
  ∧ ∃ newest, newest_game_date (logs data) = Some newest
              ∧ date_of (t_today clk) ≤ newest.

(** No cache file holds an empty row list. *)
Definition cache_wf (fs : gmap Z CacheFile) : Prop :=
  ∀ pid data, fs !! pid = Some data → logs data ≠ [].

End Cache.

(** The tables of the script. *)
Definition CATEGORIES (c : category) : list Z :=
  match c with
  | PTS => [30; 25; 20; 15; 10]
  | REB => [12; 10; 8; 6]
  | AST => [10; 8; 6; 4]
  | FG3M => [4; 3; 2; 1]
  | STL => [3; 2; 1]
  | BLK => [3; 2; 1]
  end.

Definition MIN_HIT : Q := 8 # 10.
Definition LOOKBACK : nat := 10.
Definition CACHE_MAX_AGE_HOURS : Z := 24.
Definition SEASONS : list string := ["2025-26"; "2024-25"]%string.

End Phase5.

(** ** nba_trends_phase6_grouped.py *)

Module Phase6.

Definition NUM_GAMES : Z := 10.

Definition THRESHOLDS (c : category) : list Z :=
  match c with
  | PTS => [30; 25; 20; 15; 10]
  | REB => [12; 10; 8; 6; 4]
  | AST => [9; 7; 5; 3]
  | FG3M => [4; 3; 2; 1]
  | STL => [3; 2; 1]
  | BLK => [3; 2; 1]
  end.

(** Same loop body as [Phase5.best_hit], with the literal 0.80; the guard
    asks for a full window.  The frames of this script come from
    [get_logs], which adds no ["3PM"] column to the service's: on the
    ["3PM"] ladder (category [FG3M]) [df[stat]] raises. *)
Definition best_line (df : DataFrame) (c : category)
    : Res (option (Z * Z * Q)) :=
  let total := Z.of_nat (length df) in
  if total <? NUM_GAMES then Ok None
  else if decide (c = FG3M) then Raise KeyError
  else
    r ← for_in (Phase5.best_hit_body (80 # 100) df total c) (THRESHOLDS c) tt;
    match r with
    | inr found => Ok (Some found)
    | inl _ => Ok None
    end.

End Phase6.

(** ** nba_trends_parlays_final.py *)

Module Parlays.

#[local] Open Scope string_scope.

Definition NUM_GAMES_LOOKBACK : nat := 20.
Definition CACHE_EXPIRY_HOURS : Z := 24.
Definition CACHE_DIR : string := "cache".

(** *** The mtime cache *)

(** [s.replace(old, new)] for a one-character [old]. *)
Fixpoint replace_char (old : ascii) (new : string) (s : string) : string :=
  match s with
  | EmptyString => EmptyString
  | String c s' =>
      if Ascii.eqb c old then new ++ replace_char old new s'
      else String c (replace_char old new s')
  end.

(** [os.path.join(dir, name)]: an absolute [name] discards [dir]. *)
Definition path_join (dir name : string) : string :=
  match name with
  | String "/"%char _ => name
  | _ => dir ++ "/" ++ name
  end.

Definition cache_path (player_name : string) : string :=
  let safe :=
    replace_char "."%char "" (replace_char " "%char "_" player_name) in
  path_join CACHE_DIR (safe ++ ".json").

(** A cache file: its modification time and the rows [to_json] wrote. *)
Record File : Set := mkFile {
  mtime : Z;
  content : DataFrame
}.

Definition is_cache_valid (fs : gmap string File) (now : Z) (path : string)
    : bool :=
  match fs !! path with
  | None => false
  | Some f =>
      bool_decide
        (now - mtime f < Phase5.timedelta_hours CACHE_EXPIRY_HOURS)
  end.

Definition save_cache (fs : gmap string File) (now : Z)
    (player_name : string) (df : DataFrame) : gmap string File :=
  <[cache_path player_name := {| mtime := now; content := df |}]> fs.

(** [open] raises on a missing file; [load_cache] turns that into an empty
    frame. *)
Definition open_read (fs : gmap string File) (path : string)
    : Res DataFrame :=
  match fs !! path with
  | Some f => Ok (content f)
  | None => Raise FileNotFoundError
  end.

Definition load_cache (fs : gmap string File) (player_name : string)
    : DataFrame :=
  try_except (open_read fs (cache_path player_name)) [].

(** *** The retrying loader *)

Record Player : Set := mkPlayer {
  id : Z;
  full_name : string
}.

(** What a call of [get_last_n_games] leaves behind. *)
Record Outcome : Set := mkOutcome {
  ret : DataFrame;
  files : gmap string File;
  slept : Z
}.

Section Loader.

(** [unicodedata]-based accent stripping and lower-casing, the static
    player list, and the stats collaborator: the current-season and the
    all-time request of retry [attempt] for a player id. *)
Variable normalize_name : string → string.
Variable all_players : list Player.
Variable PlayerGameLog_season : Z → nat → Res DataFrame.
Variable PlayerGameLog_all_time : Z → nat → Res DataFrame.

(** [next((p for p in all_players if ...), None)] *)
Definition find_player (player_name : string) : option Player :=
  head (filter
          (λ p, normalize_name (full_name p) = normalize_name player_name)
          all_players).

(** Body of [for attempt in range(3)]; the loop carries the seconds
    slept so far.  [now] is the clock when [save_cache] writes. *)
Definition attempt_body (fs : gmap string File) (now : Z)
    (player_name : string) (num_games : nat) (pid : Z)
    (attempt : nat) (secs : Z) : Res (ctl Z Outcome) :=
  Ok (try_except
        (logs ← PlayerGameLog_season pid attempt;
         let logs' :=
           if decide (length logs < num_games)%nat
           then try_except (PlayerGameLog_all_time pid attempt) logs
           else logs in
         Ok (Return {| ret := take num_games logs';
                       files := save_cache fs now player_name logs';
                       slept := secs |}))
        (Continue (secs + 1 * (Z.of_nat attempt + 1)))).

Definition get_last_n_games (fs : gmap string File) (now now_save : Z)
    (player_name : string) (num_games : nat) : Res Outcome :=
  let path := cache_path player_name in
  if is_cache_valid fs now path
  then Ok {| ret := take num_games (load_cache fs player_name);
             files := fs; slept := 0 |}
  else
    match find_player player_name with
    | None => Ok {| ret := []; files := fs; slept := 0 |}
    | Some m =>
        r ← for_in (attempt_body fs now_save player_name num_games (id m))
                   (seq 0 3) 0;
        match r with
        | inr out => Ok out
        | inl secs =>
            Ok {| ret := load_cache fs player_name;
                  files := fs; slept := secs |}
        end
    end.

End Loader.

(** *** Odds line selection *)

(** Value and key of an [odds_lookup] entry. *)
Record Price : Set := mkPrice {
  american : Z;
  decimal : Q;
  book : string
}.

Record OddsKey : Set := mkOddsKey {
  ok_player : string;
  ok_market : string;
  ok_point : Q;
  ok_side : string
}.

(** The dict returned by the selection. *)
Record Pick : Set := mkPick {
  point : Q;
  pick_american : Z;
  pick_decimal : Q;
  pick_book : string;
  used_market : string
}.

(** [MARKET_FOR_STAT.get(stat_label, (None, None))] *)
Definition stat_to_markets (stat_label : string)
    : option string * option string :=
  if decide (stat_label = "points")
  then (Some "player_points", Some "player_points_alt")
  else if decide (stat_label = "rebounds")
  then (Some "player_rebounds", Some "player_rebounds_alt")
  else if decide (stat_label = "assists")
  then (Some "player_assists", Some "player_assists_alt")
  else if decide (stat_label = "threes")
  then (Some "player_three_points", Some "player_three_points_alt")
  else (None, None).

Definition threshold_to_over_point (threshold : Z) : Q :=
  (inject_Z threshold - (5 # 10))%Q.

(** [int(pt)]: truncation towards zero. *)
Definition int_of (pt : Q) : Z := Z.quot (Qnum pt) (Z.pos (Qden pt)).

(** [l.sort(key=...)]: a stable sort, as insertion from the right; [le x y]
    says that the key of [x] is at most the key of [y]. *)
Fixpoint sort_insert {A} (le : A → A → bool) (x : A) (l : list A) : list A :=
  match l with
  | [] => [x]
  | y :: l' => if le x y then x :: y :: l' else y :: sort_insert le x l'
  end.

Definition list_sort {A} (le : A → A → bool) (l : list A) : list A :=
  foldr (sort_insert le) [] l.

(** [key=lambda x: x[0], reverse=True] *)
Definition alt_le (x y : Q * Price) : bool := Qle_bool y.1 x.1.

(** [key=lambda x: (abs(x[0] - target), 0 if x[0] <= target else 1)],
    tuples compared lexicographically. *)
Definition std_key (target : Q) (x : Q * Price) : Q * Z :=
  (Qabs (x.1 - target), if Qle_bool x.1 target then 0 else 1).

Definition tuple_le (k1 k2 : Q * Z) : bool :=
  match (k1.1 ?= k2.1)%Q with
  | Lt => true
  | Eq => (k1.2 <=? k2.2)%Z
  | Gt => false
  end.

Definition std_le (target : Q) (x y : Q * Price) : bool :=
  tuple_le (std_key target x) (std_key target y).

(** [[(pt, val) for (pk, mk, pt, side), val in odds_lookup.items()
      if pk == pkey and mk == market and side == "over"]] *)
Definition lines_of (odds_lookup : list (OddsKey * Price))
    (pkey market : string) : list (Q * Price) :=
  omap (λ kv : OddsKey * Price,
          if decide (ok_player kv.1 = pkey ∧ ok_market kv.1 = market
                     ∧ ok_side kv.1 = "over")
          then Some (ok_point kv.1, kv.2) else None)
       odds_lookup.

Section Odds.

Variable normalize_name : string → string.

(** [odds_lookup] is the dict as the list of its items, in insertion
    order. *)
Definition pick_alt (pkey : string) (alt_key : option string)
    (odds_lookup : list (OddsKey * Price))
    (returned_markets : gset string) : option Pick :=
  match alt_key with
  | Some ak =>
      if decide (ak ∈ returned_markets) then
        match list_sort alt_le (lines_of odds_lookup pkey ak) with
        | (pt, val) :: _ =>
            Some {| point := inject_Z (int_of pt);
                    pick_american := american val;
                    pick_decimal := decimal val;
                    pick_book := book val;
                    used_market := ak |}
        | [] => None
        end
      else None
  | None => None
  end.

Definition pick_std (pkey : string) (std_key : option string)
    (threshold : Z) (odds_lookup : list (OddsKey * Price))
    (returned_markets : gset string) : option Pick :=
  match std_key with
  | Some sk =>
      if decide (sk ∈ returned_markets) then
        let target_point := threshold_to_over_point threshold in
        match list_sort (std_le target_point)
                        (lines_of odds_lookup pkey sk) with
        | (pt, val) :: _ =>
            Some {| point := pt;
                    pick_american := american val;
                    pick_decimal := decimal val;
                    pick_book := book val;
                    used_market := sk |}
        | [] => None
        end
      else None
  | None => None
  end.

Definition pick_highest_alt_or_best_standard (player stat_label : string)
    (threshold : Z) (odds_lookup : list (OddsKey * Price))
    (returned_markets : gset string) : option Pick :=
  let pkey := normalize_name player in
  let '(std_key, alt_key) := stat_to_markets stat_label in
  match pick_alt pkey alt_key odds_lookup returned_markets with
  | Some best => Some best
  | None => pick_std pkey std_key threshold odds_lookup returned_markets
  end.

End Odds.

(** *** Building the lookup *)

(** The odds service's JSON, field by field; [None] is an absent key. *)
Record JOutcome : Set := mkJOutcome {
  oc_description : option string;
  oc_name : option string;
  oc_point : option Q;
  oc_price : option Z
}.

Record JMarket : Set := mkJMarket {
  mk_key : option string;
  mk_outcomes : list JOutcome
}.

Record JBookmaker : Set := mkJBookmaker {
  bm_key : option string;
  bm_title : option string;
  bm_markets : list JMarket
}.

Record JEvent : Set := mkJEvent {
  ev_bookmakers : list JBookmaker
}.

Definition ODDS_BOOKMAKER : string := "fanduel".

Definition ODDS_MARKETS : list string :=
  ["player_points"; "player_points_alt";
   "player_rebounds"; "player_rebounds_alt";
   "player_assists"; "player_assists_alt";
   "player_three_points"; "player_three_points_alt"].

(** [1 + a/100 if a > 0 else 1 + 100/abs(a)] on an int price, the
    quotient taken exactly: the double the code computes is this value
    rounded, which for a negative price of eighteen digits or more is 1
    itself. *)
Definition american_to_decimal (a : Z) : Res Q :=
  if decide (a > 0) then Ok (1 + inject_Z a / 100)%Q
  else if decide (a = 0) then Raise ZeroDivisionError
  else Ok (1 + 100 / inject_Z (Z.abs a))%Q.

(** Keys are equal when their components are (the points as numbers). *)
Definition key_eqb (k1 k2 : OddsKey) : bool :=
  bool_decide (ok_player k1 = ok_player k2)
  && bool_decide (ok_market k1 = ok_market k2)
  && Qeq_bool (ok_point k1) (ok_point k2)
  && bool_decide (ok_side k1 = ok_side k2).

(** [d[k] = v]: an existing key keeps its place, a new one goes last. *)
Fixpoint dict_set (k : OddsKey) (v : Price) (d : list (OddsKey * Price))
    : list (OddsKey * Price) :=
  match d with
  | [] => [(k, v)]
  | (k', v') :: d' =>
      if key_eqb k' k then (k', v) :: d' else (k', v') :: dict_set k v d'
  end.

Section Fetch.

(** [normalize_name], [str.lower], and the answer of the odds service
    to the request for one market key (an exception when the request
    or the decoding fails). *)
Variable normalize_name : string → string.
Variable lower : string → string.
Variable odds_request : string → Res (list JEvent).

(** The loops of the fetch, after the test on the API key (the script
    carries one) and without the pauses between requests.  State of the
    loops over one market: the lookup and [got_any]. *)
Definition outcome_body (m : string) (oc : JOutcome)
    (st : list (OddsKey * Price) * bool)
    : Res (list (OddsKey * Price) * bool) :=
  let desc := lower (default "" (oc_description oc)) in
  if decide (desc ≠ "over") then Ok st
  else
    match oc_name oc, oc_point oc, oc_price oc with
    | Some name, Some pt, Some price =>
        if decide (name = "") then Ok st
        else
          dec ← american_to_decimal price;
          Ok (dict_set {| ok_player := normalize_name name;
                          ok_market := m;
                          ok_point := pt;
                          ok_side := "over" |}
                       {| american := price; decimal := dec;
                          book := "FanDuel" |}
                       st.1,
              true)
    | _, _, _ => Ok st
    end.

Definition market_body (m : string) (mk : JMarket)
    (st : list (OddsKey * Price) * bool)
    : Res (list (OddsKey * Price) * bool) :=
  if decide (mk_key mk ≠ Some m) then Ok st
  else for_each (outcome_body m) (mk_outcomes mk) st.

Definition bookmaker_body (m : string) (bm : JBookmaker)
    (st : list (OddsKey * Price) * bool)
    : Res (list (OddsKey * Price) * bool) :=
  if decide (ODDS_BOOKMAKER ≠ default "" (bm_key bm)
             ∧ ODDS_BOOKMAKER ≠ lower (default "" (bm_title bm)))
  then Ok st
  else for_each (market_body m) (bm_markets bm) st.

Definition event_body (m : string) (ev : JEvent)
    (st : list (OddsKey * Price) * bool)
    : Res (list (OddsKey * Price) * bool) :=
  for_each (bookmaker_body m) (ev_bookmakers ev) st.

(** Body of [for m in markets]; the state is the lookup and
    [returned_markets]. *)
Definition fetch_body (m : string)
    (st : list (OddsKey * Price) * gset string)
    : Res (list (OddsKey * Price) * gset string) :=
  match odds_request m with
  | Raise _ => Ok st
  | Ok data =>
      '(lookup, got_any) ← for_each (event_body m) data (st.1, false);
      Ok (lookup, if got_any : bool then {[ m ]} ∪ st.2 else st.2)
  end.

Definition fetch_fanduel_player_props_today
    : Res (list (OddsKey * Price) * gset string) :=
  for_each fetch_body ODDS_MARKETS ([], ∅).

End Fetch.

(** Every market with a line in the lookup is among the returned
    markets. *)
Definition markets_returned (odds_lookup : list (OddsKey * Price))
    (returned_markets : gset string) : Prop :=
  ∀ kv, kv ∈ odds_lookup → ok_market kv.1 ∈ returned_markets.

(** While the lines of market [m] are being stored: every market of the
    lookup has been returned already, or it is [m] and [got_any] is set. *)
Definition storing (m : string) (returned : gset string)
    (st : list (OddsKey * Price) * bool) : Prop :=
  ∀ kv, kv ∈ st.1 →
    ok_market kv.1 ∈ returned ∨ (st.2 = true ∧ ok_market kv.1 = m).

(** Distance of a line from the target point. *)
Definition distance (target pt : Q) : Q := Qabs (pt - target).

End Parlays.

(** ** test_multi_player_stats.py *)

Module TestMulti.

(** [(series >= threshold).mean() * 100]; the mean of an empty series is
    NaN, rendered [None]. *)
Definition hit_rate (series : list Z) (threshold : Z) : option Q :=
  if decide (series = []) then None
  else
    Some (inject_Z (Z.of_nat (length (filter (λ v, threshold ≤ v) series)))
          / inject_Z (Z.of_nat (length series)) * inject_Z 100)%Q.

End TestMulti.

(** ** Sample data *)

Module Samples.

Definition game (date : Z) (minutes : N) (points : Z) : GameRecord :=
  {| GAME_DATE := date; MIN := minutes; pts := points;
     reb := 0; ast := 0; fg3m := 0; stl := 0; blk := 0 |}.

(** Ten games with 30, 28, ..., 8 points, newest first. *)
Definition cold_window : DataFrame :=
  [game 110 30 30; game 109 30 28; game 108 30 25; game 107 30 22;
   game 106 30 20; game 105 30 18; game 104 30 15; game 103 30 12;
   game 102 30 10; game 101 30 8].

(** Ten games, eight of them with 30 points or more. *)
Definition hot_window : DataFrame :=
  [game 110 34 35; game 109 31 33; game 108 36 31; game 107 30 30;
   game 106 29 30; game 105 33 32; game 104 38 40; game 103 35 38;
   game 102 27 29; game 101 25 28].

(** A service holding twelve rows over two seasons, out of date order,
    two of them without minutes. *)
Definition two_seasons (pid : Z) (season : string) : Res DataFrame :=
  if decide (season = "2025-26"%string) then
    Ok [game 203 31 22; game 207 0 0; game 201 28 14; game 206 35 27;
        game 202 30 19; game 205 33 25; game 204 29 17]
  else if decide (season = "2024-25"%string) then
    Ok [game 98 26 12; game 100 0 0; game 96 24 9; game 99 32 21;
        game 97 27 16]
  else Raise RequestError.

(** A service with no rows for anybody. *)
Definition no_rows (pid : Z) (season : string) : Res DataFrame := Ok [].

(** Player 7 was cached on day 300 with one game of day 299; the clock
    reads 10:00 on day 300 throughout the call. *)
Definition yesterday_store : gmap Z Phase5.CacheFile :=
  {[ 7 := {| Phase5.updated := 300; Phase5.logs := [game 299 30 20] |} ]}.

Definition morning : Phase5.Clock :=
  let t := 300 * Phase5.us_per_day + 10 * Phase5.us_per_hour in
  {| Phase5.t_load := t; Phase5.t_today := t; Phase5.t_save := t |}.



(** What [two_seasons] makes of a lookback of ten. *)
Definition ten_rows : DataFrame :=
  [game 206 35 27; game 205 33 25; game 204 29 17; game 203 31 22;
   game 202 30 19; game 201 28 14; game 99 32 21; game 98 26 12;
   game 97 27 16; game 96 24 9].

(** A player list of one, a stats service that is down, and a cache file
    for that player last written at time 0. *)
Definition roster : list Parlays.Player :=
  [{| Parlays.id := 7; Parlays.full_name := "Player Seven" |}].

Definition down (pid : Z) (attempt : nat) : Res DataFrame :=
  Raise RequestError.

Definition stale_files : gmap string Parlays.File :=
  {[ Parlays.cache_path "Player Seven" :=
       {| Parlays.mtime := 0; Parlays.content := cold_window |} ]}.

(** Points lines for one player: an alternate ladder and two standard
    lines at the same distance from 19.5. *)
Definition price (a : Z) : Parlays.Price :=
  {| Parlays.american := a; Parlays.decimal := 2; Parlays.book := "FanDuel" |}.

Definition line (market : string) (pt : Q) (a : Z)
    : Parlays.OddsKey * Parlays.Price :=
  ({| Parlays.ok_player := "player seven"; Parlays.ok_market := market;
      Parlays.ok_point := pt; Parlays.ok_side := "over" |}, price a).

Definition standard_lines : list (Parlays.OddsKey * Parlays.Price) :=
  [line "player_points" (205 # 10) (-110);
   line "player_points" (185 # 10) (-125);
   line "player_points" (245 # 10) 150].

Definition ladder_lines : list (Parlays.OddsKey * Parlays.Price) :=
  [line "player_points_alt" 15 (-300);
   line "player_points_alt" 25 180;
   line "player_points_alt" 20 (-120)].

Definition points_markets : gset string :=
  {[ "player_points"; "player_points_alt" ]}.

(** Noon of day 300. *)
Definition noon : Z := 300 * Phase5.us_per_day + 12 * Phase5.us_per_hour.

End Samples.

(** ** nba_trends_parlays_final.py: automatic thresholds and parlays *)

Module Trends.

#[local] Open Scope string_scope.

(** What these functions can raise. *)
Inductive error : Set := IndexError | ValueError.

(** The stats of [for stat in ["PTS", "REB", "AST", "FG3M"]], their
    columns and their labels. *)
Inductive tstat : Set := T_PTS | T_REB | T_AST | T_FG3M.

#[global] Instance tstat_eq_dec : EqDecision tstat.
Proof. solve_decision. Defined.

Definition column (s : tstat) : category :=
  match s with
  | T_PTS => PTS
  | T_REB => REB
  | T_AST => AST
  | T_FG3M => FG3M
  end.

Definition label (s : tstat) : string :=
  match s with
  | T_PTS => "points"
  | T_REB => "rebounds"
  | T_AST => "assists"
  | T_FG3M => "threes"
  end.

Definition STATS : list tstat := [T_PTS; T_REB; T_AST; T_FG3M].

(** An entry of the result list. *)
Record Trend : Set := mkTrend {
  Stat : string;
  Threshold : Z;
  RateValue : Q;
  Hits : Z;
  Total : Z
}.

#[global] Instance descending_dec a b : Decision (descending a b).
Proof. unfold descending. apply _. Defined.

(** [df[stat].sort_values(ascending=False).tolist()] *)
Definition sorted_values (df : DataFrame) (c : category) : list Z :=
  merge_sort descending (stat c <$> df).

(** [idx = int(min_rate * len(vals)) - 1], raised to 0 when negative.
    The product is taken exactly; where the double product falls just
    below a whole number (0.7 * 90) the code's index is one lower. *)
Definition candidate_index (min_rate : Q) (n : nat) : Z :=
  let idx := Parlays.int_of (min_rate * inject_Z (Z.of_nat n)) - 1 in
  if decide (idx < 0)%Z then 0 else idx.

(** One run of the loop body: the entry to append, if any.  An index past
    the end of [vals] raises. *)
Definition stat_trend (df : DataFrame) (min_rate : Q) (s : tstat)
    : error + option Trend :=
  let total := Z.of_nat (length df) in
  let vals := sorted_values df (column s) in
  if decide (vals = []) then inr None
  else
    let idx := candidate_index min_rate (length vals) in
    match vals !! Z.to_nat idx with
    | None => inl IndexError
    | Some threshold =>
        let hits := hits_ge df (column s) threshold in
        let rate :=
          if decide (total = 0) then 0%Q
          else (inject_Z hits / inject_Z total)%Q in
        if Qle_bool min_rate rate && bool_decide (threshold > 0)%Z then
          if bool_decide (s ≠ T_PTS) && bool_decide (threshold ≤ 1)%Z
          then inr None
          else inr (Some {| Stat := label s; Threshold := threshold;
                            RateValue := rate; Hits := hits;
                            Total := total |})
        else inr None
    end.

Fixpoint trends_loop (df : DataFrame) (min_rate : Q) (stats : list tstat)
    (results : list Trend) : error + list Trend :=
  match stats with
  | [] => inr results
  | s :: stats' =>
      match stat_trend df min_rate s with
      | inl e => inl e
      | inr None => trends_loop df min_rate stats' results
      | inr (Some t) => trends_loop df min_rate stats' (results ++ [t])
      end
  end.

Definition calculate_auto_thresholds (df : DataFrame) (min_rate : Q)
    : error + list Trend :=
  if decide (df = []) then inr []
  else trends_loop df min_rate STATS [].

(** *** The parlay builder *)

Definition MAX_LEGS_POOL : nat := 15.

(** A leg of the pool; [odds] has the fields of a [Pick]. *)
Record Leg : Set := mkLeg {
  leg_player : string;
  leg_team : string;
  leg_stat : string;
  leg_threshold : Z;
  leg_rate : Q;
  leg_odds : Parlays.Pick
}.

Record Parlay : Set := mkParlay {
  legs : list Leg;
  decimal : Q;
  ev : Q
}.

(** [itertools.combinations(l, k)], in its order. *)
Fixpoint combinations {A} (l : list A) (k : nat) : list (list A) :=
  match k, l with
  | O, _ => [[]]
  | S _, [] => []
  | S k', x :: l' =>
      (cons x <$> combinations l' k') ++ combinations l' k
  end.

(** [np.prod(qs)] *)
Definition prod (qs : list Q) : Q := foldl Qmult 1%Q qs.

Definition product_dec (combo : list Leg) : Q :=
  prod ((λ l, Parlays.pick_decimal (leg_odds l)) <$> combo).

Definition product_prob (combo : list Leg) : Q :=
  prod (leg_rate <$> combo).

(** Body of the first loop over the combinations.  The products and the
    band test are taken exactly; the code takes them in doubles, so a
    product landing on the edge of the band (1.1 * 2.0 against 2.00 and
    0.20) can fall outside it there. *)
Definition band_step (target_dec tol : Q) (best : option Parlay)
    (combo : list Leg) : option Parlay :=
  let pd := product_dec combo in
  let e := (pd * product_prob combo)%Q in
  if Qle_bool (Qabs (pd - target_dec)) tol then
    match best with
    | None => Some {| legs := combo; decimal := pd; ev := e |}
    | Some b =>
        if negb (Qle_bool e (ev b))
        then Some {| legs := combo; decimal := pd; ev := e |}
        else best
    end
  else best.

(** [min(l, key=key)]: the first element with the least key; [None] is
    the [ValueError] on an empty sequence. *)
Definition min_by {A} (key : A → Q) (l : list A) : option A :=
  match l with
  | [] => None
  | x :: l' =>
      Some (foldl (λ m y, if negb (Qle_bool (key m) (key y)) then y else m)
                  x l')
  end.

Definition dist (target_dec : Q) (c : list Leg) : Q :=
  Qabs (product_dec c - target_dec).

Definition build_parlay_suggestions (pool : list Leg) (target_dec tol : Q)
    (size : nat) : error + option Parlay :=
  let domain := take MAX_LEGS_POOL pool in
  if decide (length domain < size)%nat then inr None
  else
    match foldl (band_step target_dec tol) None (combinations domain size) with
    | Some best => inr (Some best)
    | None =>
        if decide (domain = []) then inr None
        else
          match min_by (dist target_dec) (combinations domain size) with
          | None => inl ValueError
          | Some closest =>
              inr (Some {| legs := closest;
                           decimal := product_dec closest;
                           ev := (product_prob closest
                                  * product_dec closest)%Q |})
          end
    end.

(** What the first loop of [build_parlay_suggestions] holds after the
    combinations [pre]: nothing when none of them is in the band around
    the target, else one of them that is in the band, with the largest
    [ev] among those in the band. *)
Definition band_best (target_dec tol : Q) (pre : list (list Leg))
    (best : option Parlay) : Prop :=
  match best with
  | None => ∀ c, c ∈ pre → ¬ (dist target_dec c <= tol)%Q
  | Some b =>
      legs b ∈ pre
      ∧ (dist target_dec (legs b) <= tol)%Q
      ∧ decimal b = product_dec (legs b)
      ∧ ev b = (product_dec (legs b) * product_prob (legs b))%Q
      ∧ ∀ c, c ∈ pre → (dist target_dec c <= tol)%Q →
          (product_dec c * product_prob c <= ev b)%Q
  end.

End Trends.

(** ** nba_trends_phase4.py *)

Module Phase4.

#[local] Open Scope string_scope.

Definition LOOKBACK_GAMES : nat := 10.
Definition MIN_HIT_RATE : Q := 80 # 100.
Definition REQ_STARTERS : nat := 5.

Definition THRESHOLDS (c : category) : list Z :=
  match c with
  | PTS => [30; 25; 20; 15; 10]
  | REB => [12; 10; 8; 6]
  | AST => [10; 8; 6; 4]
  | FG3M => [4; 3; 2; 1]
  | STL => [3; 2; 1]
  | BLK => [3; 2; 1]
  end.

Definition STAT_LABEL (c : category) : string :=
  match c with
  | PTS => "Points"
  | REB => "Rebounds"
  | AST => "Assists"
  | FG3M => "3-Pointers"
  | STL => "Steals"
  | BLK => "Blocks"
  end.

Definition ORDERED_CATEGORIES : list category :=
  [PTS; REB; AST; FG3M; STL; BLK].

(** The same loop as [Phase5.best_hit], over the tables of this script. *)
Definition best_line_for_category (df : DataFrame) (stat_key : category)
    : Res (option (Z * Z * Q)) :=
  Phase5.best_hit THRESHOLDS MIN_HIT_RATE df stat_key.

Record Pick : Set := mkPick {
  player : string;
  team : string;
  cat : category;
  label : string;
  line : Z;
  hits : Z;
  rate : Q
}.

(** Body of [for key in ORDERED_CATEGORIES]. *)
Definition evaluate_body (name team_abbr : string) (logs : DataFrame)
    (key : category) (picks : list Pick) : Res (list Pick) :=
  best ← best_line_for_category logs key;
  match best with
  | Some (lvl, h, r) =>
      Ok (picks ++ [ {| player := name; team := team_abbr; cat := key;
                        label := STAT_LABEL key; line := lvl; hits := h;
                        rate := r |} ])%list
  | None => Ok picks
  end.

Definition evaluate_player_across_categories (name team_abbr : string)
    (logs : DataFrame) : Res (list Pick) :=
  if decide (logs = []) then Ok []
  else for_each (evaluate_body name team_abbr logs) ORDERED_CATEGORIES [].

(** A roster row and a candidate of [pick_top5_by_minutes]. *)
Record Candidate : Set := mkCandidate {
  cand_id : Z;
  cand_name : string;
  avg_min : Q;
  cand_logs : DataFrame
}.

(** [logs["MIN"].mean()] of a frame that is not empty. *)
Definition mean_minutes (logs : DataFrame) : Q :=
  (inject_Z (foldr (λ r acc, (Z.of_N (MIN r) + acc)%Z) 0%Z logs)
   / inject_Z (Z.of_nat (length logs)))%Q.

Section Starters.

(** [SEASONS] and the stats collaborator, as for the loader. *)
Variable SEASONS : list string.
Variable PlayerGameLog : Z → string → Res DataFrame.

(** [get_player_logs(pid, lookback)] is the loader of phase 5; the
    columns it keeps are those of a row. *)
Definition get_player_logs (player_id : Z) (lookback : nat) : Res DataFrame :=
  Phase5.fetch_player_logs SEASONS PlayerGameLog lookback player_id.

(** Body of [for _, row in roster_df.iterrows()]. *)
Definition candidate_body (row : Z * string) (candidates : list Candidate)
    : Res (list Candidate) :=
  logs ← get_player_logs row.1 LOOKBACK_GAMES;
  let avg := if decide (logs = []) then 0%Q else mean_minutes logs in
  Ok (candidates ++ [ {| cand_id := row.1; cand_name := row.2;
                         avg_min := avg; cand_logs := logs |} ])%list.

(** [key=lambda x: x["avg_min"], reverse=True] *)
Definition by_minutes (x y : Candidate) : bool :=
  Qle_bool (avg_min y) (avg_min x).

(** The filter [if c["logs"] is not None] keeps every candidate: [logs]
    is always a frame. *)
Definition pick_top5_by_minutes (roster : list (Z * string))
    : Res (list Candidate) :=
  candidates ← for_each candidate_body roster [];
  Ok (take REQ_STARTERS (Parlays.list_sort by_minutes candidates)).

End Starters.

End Phase4.

(** ** nba_trends_phase5_cached.py: the starters of a team *)

Module Phase5Starters.

Definition REQ_STARTERS : nat := 5.

(** An entry of [players] in [get_top5_by_minutes]. *)
Record Starter : Set := mkStarter {
  id : Z;
  name : string;
  logs : DataFrame;
  avg : Q
}.

(** [key=lambda x: x["avg"], reverse=True] *)
Definition by_avg (x y : Starter) : bool := Qle_bool (avg y) (avg x).

Section Top5.

Variable CACHE_MAX_AGE_HOURS : Z.
Variable SEASONS : list string.
Variable PlayerGameLog : Z → string → Res DataFrame.
Variable lookback : nat.

(** The roster service: the rows [(PLAYER_ID, PLAYER)] of a team. *)
Variable CommonTeamRoster : Z → Res (list (Z * string)).

(** The clock readings of the [n]-th call of [get_player_logs]. *)
Variable clock : nat → Phase5.Clock.

(** Body of [for _, row in df.iterrows()]; the state is [players], the
    cache store and the number of calls made so far. *)
Definition roster_body (row : Z * string)
    (st : list Starter * gmap Z Phase5.CacheFile * nat)
    : Res (list Starter * gmap Z Phase5.CacheFile * nat) :=
  let '(players, fs, n) := st in
  '(logs, fs') ← Phase5.get_player_logs CACHE_MAX_AGE_HOURS SEASONS
                    PlayerGameLog lookback fs (clock n) row.1;
  let avg := if decide (logs = []) then 0%Q
             else Phase4.mean_minutes logs in
  Ok (players ++ [ {| id := row.1; name := row.2; logs := logs;
                      avg := avg |} ], fs', S n)%list.

(** Returns [chosen] and the store as the calls leave it. *)
Definition get_top5_by_minutes (fs : gmap Z Phase5.CacheFile) (tid : Z)
    : Res (list Starter * gmap Z Phase5.CacheFile) :=
  match CommonTeamRoster tid with
  | Raise _ => Ok ([], fs)
  | Ok df =>
      '(players, fs', _) ← for_each roster_body df ([], fs, 0%nat);
      Ok (take REQ_STARTERS (Parlays.list_sort by_avg players), fs')
  end.

End Top5.

End Phase5Starters.

(** ** nba_trends_phase6_grouped.py: the cache without expiry *)

Module Phase6Logs.

Definition SEASONS : list string := ["2025-26"; "2024-25"]%string.

(** What [cache/{pid}.json] holds: text [pd.read_json] cannot read, or
    the records [safe_cache_save] dumped. *)
Inductive FileText : Set :=
| Corrupt
| Records (rows : DataFrame).

(** [os.replace] of the finished temporary file onto [{pid}.json]. *)
Definition safe_cache_save (fs : gmap Z FileText) (pid : Z) (df : DataFrame)
    : gmap Z FileText :=
  <[pid := Records df]> fs.

(** A file that cannot be read, or whose record list is empty (the frame
    then has no [GAME_DATE] column), is removed in the [except] branch. *)
Definition safe_cache_load (fs : gmap Z FileText) (pid : Z)
    : option DataFrame * gmap Z FileText :=
  match fs !! pid with
  | None => (None, fs)
  | Some (Records (r :: rows)) => (Some (sort_values_desc (r :: rows)), fs)
  | Some _ => (None, delete pid fs)
  end.

Section Logs.

Variable SEASONS : list string.
Variable PlayerGameLog : Z → string → Res DataFrame.

(** Body of [for season in SEASONS]; the request is not guarded. *)
Definition get_logs_body (pid : Z) (season : string) (all_logs : DataFrame)
    : Res (ctl DataFrame Empty_set) :=
  df ← PlayerGameLog pid season;
  let all_logs' := all_logs ++ filter (λ r, (0 < MIN r)%N) df in
  if Phase6.NUM_GAMES <=? Z.of_nat (length all_logs')
  then Ok (Break all_logs') else Ok (Continue all_logs').

(** Returns the frame ([None] for Python's [None]) and the store as the
    call leaves it. *)
Definition get_logs (fs : gmap Z FileText) (pid : Z)
    : Res (option DataFrame * gmap Z FileText) :=
  let '(cached, fs1) := safe_cache_load fs pid in
  let served :=
    match cached with
    | Some c => if Phase6.NUM_GAMES <=? Z.of_nat (length c) then Some c
                else None
    | None => None
    end in
  match served with
  | Some c => Ok (Some (take (Z.to_nat Phase6.NUM_GAMES) c), fs1)
  | None =>
      r ← for_in (get_logs_body pid) SEASONS [];
      match r with
      | inl all_logs =>
          if decide (all_logs = []) then Ok (None, fs1)
          else
            let sorted := sort_values_desc all_logs in
            Ok (Some (take (Z.to_nat Phase6.NUM_GAMES) sorted),
                safe_cache_save fs1 pid sorted)
      | inr impossible => match impossible : Empty_set with end
      end
  end.

(** The condition under which no request is made: a readable file with
    a full window of records. *)
Definition cache_hit (fs : gmap Z FileText) (pid : Z) : Prop :=
  ∃ rows, fs !! pid = Some (Records rows)
          ∧ Phase6.NUM_GAMES ≤ Z.of_nat (length rows).

End Logs.

End Phase6Logs.

(** ** More sample data *)

Module Fixtures.

#[local] Open Scope string_scope.

(** Ten games of an all-round player. *)
Definition all_round : DataFrame :=
  [mkGame 110 34 22 8 1 2 1 0; mkGame 109 33 25 7 2 3 0 1;
   mkGame 108 35 19 9 1 2 2 0; mkGame 107 36 30 6 0 4 1 0;
   mkGame 106 32 27 10 3 2 0 2; mkGame 105 31 21 7 1 3 1 0;
   mkGame 104 30 24 8 2 2 0 0; mkGame 103 29 18 5 1 2 1 1;
   mkGame 102 37 26 9 1 5 3 0; mkGame 101 28 23 7 2 3 0 0].

(** What a minimum rate of 0.9 finds in them. *)
Definition all_round_trends : list Trends.Trend :=
  [ {| Trends.Stat := "points"; Trends.Threshold := 19;
       Trends.RateValue := 9 # 10; Trends.Hits := 9; Trends.Total := 10 |};
    {| Trends.Stat := "rebounds"; Trends.Threshold := 6;
       Trends.RateValue := 9 # 10; Trends.Hits := 9; Trends.Total := 10 |};
    {| Trends.Stat := "threes"; Trends.Threshold := 2;
       Trends.RateValue := 10 # 10; Trends.Hits := 10; Trends.Total := 10 |} ].

(** Four legs priced 1.4, 1.5, 1.3 and 2.5. *)
Definition leg (name : string) (rate dec : Q) : Trends.Leg :=
  {| Trends.leg_player := name; Trends.leg_team := "UNK";
     Trends.leg_stat := "points"; Trends.leg_threshold := 20;
     Trends.leg_rate := rate;
     Trends.leg_odds :=
       {| Parlays.point := 195 # 10; Parlays.pick_american := -110;
          Parlays.pick_decimal := dec; Parlays.pick_book := "FanDuel";
          Parlays.used_market := "player_points" |} |}.

Definition pool : list Trends.Leg :=
  [leg "a" (90 # 100) (14 # 10); leg "b" (95 # 100) (15 # 10);
   leg "c" 1 (13 # 10); leg "d" (90 # 100) (25 # 10)].

(** The double around 2.00 and the double around 10.00 out of them. *)
Definition double_pick : Trends.Parlay :=
  Eval vm_compute in
    match Trends.build_parlay_suggestions pool 2 (2 # 10) 2 with
    | inr (Some p) => p
    | _ => {| Trends.legs := []; Trends.decimal := 0; Trends.ev := 0 |}
    end.

Definition long_shot : Trends.Parlay :=
  Eval vm_compute in
    match Trends.build_parlay_suggestions pool 10 (1 # 10) 2 with
    | inr (Some p) => p
    | _ => {| Trends.legs := []; Trends.decimal := 0; Trends.ev := 0 |}
    end.

(** A stats service that fails once and then answers with the ten rows
    of [all_round]. *)
Definition flaky (pid : Z) (attempt : nat) : Res DataFrame :=
  match attempt with
  | O => Raise RequestError
  | S _ => Ok all_round
  end.

(** An answer of the odds service for the points market: one event, the
    FanDuel book, two priced lines and one without a price. *)
Definition points_answer : list Parlays.JEvent :=
  [ {| Parlays.ev_bookmakers :=
         [ {| Parlays.bm_key := Some "fanduel";
              Parlays.bm_title := Some "FanDuel";
              Parlays.bm_markets :=
                [ {| Parlays.mk_key := Some "player_points";
                     Parlays.mk_outcomes :=
                       [ {| Parlays.oc_description := Some "over";
                            Parlays.oc_name := Some "player seven";
                            Parlays.oc_point := Some (205 # 10);
                            Parlays.oc_price := Some (-110) |};
                         {| Parlays.oc_description := Some "over";
                            Parlays.oc_name := Some "player eight";
                            Parlays.oc_point := Some (185 # 10);
                            Parlays.oc_price := Some 120 |};
                         {| Parlays.oc_description := Some "over";
                            Parlays.oc_name := Some "player nine";
                            Parlays.oc_point := Some (155 # 10);
                            Parlays.oc_price := None |} ] |} ] |} ] |} ].

Definition odds_service (m : string) : Res (list Parlays.JEvent) :=
  if decide (m = "player_points") then Ok points_answer
  else if decide (m = "player_assists") then Ok []
  else Raise RequestError.

Definition fetched_odds
    : list (Parlays.OddsKey * Parlays.Price) * gset string :=
  Eval vm_compute in
    match Parlays.fetch_fanduel_player_props_today (λ s, s) (λ s, s)
            odds_service with
    | Ok r => r
    | Raise _ => ([], ∅)
    end.

(** An alternate ladder at half points for the same player. *)
Definition half_point_ladder : list (Parlays.OddsKey * Parlays.Price) :=
  [Samples.line "player_points_alt" (195 # 10) (-120);
   Samples.line "player_points_alt" (245 # 10) 180].

(** An all-time service with twenty rows for everybody. *)
Definition career (pid : Z) (attempt : nat) : Res DataFrame :=
  Ok (all_round ++ Samples.cold_window)%list.

(** A roster service that knows team 1 only. *)
Definition team_roster (tid : Z) : Res (list (Z * string)) :=
  if decide (tid = 1) then Ok [(7, "Player Seven"); (8, "Player Eight")]
  else Raise RequestError.

(** A clock that reads 10:00 on day 300 at every call. *)
Definition every_morning (n : nat) : Phase5.Clock := Samples.morning.

(** A stats service that is down for every season. *)
Definition service_down (pid : Z) (season : string) : Res DataFrame :=
  Raise RequestError.

(** Player 7 with ten records on file. *)
Definition full_file : gmap Z Phase6Logs.FileText :=
  {[ 7 := Phase6Logs.Records Samples.ten_rows ]}.

End Fixtures.

(** * Properties *)

(** ** Counting and rates *)

Lemma filter_length_mono {A} (P1 P2 : A → Prop)
    `{∀ x, Decision (P1 x)} `{∀ x, Decision (P2 x)} (l : list A) :
  (∀ x, P1 x → P2 x) →
  (length (filter P1 l) ≤ length (filter P2 l))%nat.
Proof.
  intros Himp. induction l as [|x l IH]; [done|].
  rewrite !filter_cons.
  destruct (decide (P1 x)) as [H1|H1].
  - rewrite decide_True by auto. simpl. lia.
  - destruct (decide (P2 x)); simpl; lia.
Qed.

Lemma hits_ge_antitone (df : DataFrame) (c : category) (t1 t2 : Z) :
  t2 ≤ t1 → hits_ge df c t1 ≤ hits_ge df c t2.
Proof.
  intros Hle. unfold hits_ge. apply inj_le.
  apply filter_length_mono. intros r. lia.
Qed.

Lemma hits_ge_bounds (df : DataFrame) (c : category) (lvl : Z) :
  0 ≤ hits_ge df c lvl ≤ Z.of_nat (length df).
Proof.
  unfold hits_ge. split; [lia|]. apply inj_le, length_filter.
Qed.

Lemma Qdiv_le_mono_num (a b n : Z) :
  a ≤ b → 0 ≤ n → (inject_Z a / inject_Z n <= inject_Z b / inject_Z n)%Q.
Proof.
  intros Hab Hn. unfold Qdiv. apply Qmult_le_compat_r.
  - by rewrite <- Zle_Qle.
  - apply Qinv_le_0_compat. change 0%Q with (inject_Z 0). by rewrite <- Zle_Qle.
Qed.

Lemma rate_of_antitone (df : DataFrame) (c : category) (t1 t2 : Z) :
  t2 ≤ t1 → (rate_of df c t1 <= rate_of df c t2)%Q.
Proof.
  intros Hle. unfold rate_of. apply Qdiv_le_mono_num; [|lia].
  by apply hits_ge_antitone.
Qed.

Lemma truediv_nonzero (a b : Z) :
  b ≠ 0 → truediv a b = Ok (inject_Z a / inject_Z b)%Q.
Proof. intros Hb. unfold truediv. by rewrite (proj2 (Z.eqb_neq b 0) Hb). Qed.

Lemma length_nonzero (df : DataFrame) :
  df ≠ [] → Z.of_nat (length df) ≠ 0.
Proof. destruct df; [done|]. simpl. lia. Qed.

Lemma Qle_bool_false (x y : Q) : Qle_bool x y = false ↔ (y < x)%Q.
Proof.
  rewrite <- not_true_iff_false, Qle_bool_iff. split.
  - apply Qnot_le_lt.
  - apply Qlt_not_le.
Qed.

#[global] Instance descending_trans : Transitive descending.
Proof. unfold descending. intros x y z ? ?. lia. Qed.

(** The head of a descending ladder is its highest level. *)
Lemma descending_head (x : Z) (l : list Z) :
  Sorted descending (x :: l) → ∀ y, y ∈ l → y ≤ x.
Proof.
  intros Hs%Sorted_StronglySorted; [|apply _].
  apply StronglySorted_cons in Hs as [Hall _].
  rewrite Forall_forall in Hall. exact Hall.
Qed.

(** ** The threshold scanner *)

Section ScannerFacts.

Variable CATEGORIES : category → list Z.
Variable MIN_HIT : Q.

#[local] Abbreviation best_hit := (Phase5.best_hit CATEGORIES MIN_HIT).
#[local] Abbreviation best_hit_examined :=
  (Phase5.best_hit_examined CATEGORIES MIN_HIT).

(** One run of the loop body on a non-empty window. *)
Lemma best_hit_body_run (df : DataFrame) (c : category) (lvl : Z) :
  df ≠ [] →
  Phase5.best_hit_body MIN_HIT df (Z.of_nat (length df)) c lvl tt =
    if Qle_bool MIN_HIT (rate_of df c lvl)
    then Ok (Return (lvl, hits_ge df c lvl, rate_of df c lvl))
    else Ok (Break tt).
Proof.
  intros Hne. unfold Phase5.best_hit_body.
  rewrite truediv_nonzero by by apply length_nonzero. done.
Qed.

(** The scanner only ever looks at the head of the ladder. *)
Lemma best_hit_head (df : DataFrame) (c : category) (lvl : Z)
    (rest : list Z) :
  df ≠ [] →
  CATEGORIES c = lvl :: rest →
  best_hit df c =
    (if Qle_bool MIN_HIT (rate_of df c lvl)
     then Ok (Some (lvl, hits_ge df c lvl, rate_of df c lvl))
     else Ok None)
  ∧ best_hit_examined df c = [lvl].
Proof.
  intros Hne Hcat. unfold Phase5.best_hit, Phase5.best_hit_examined.
  rewrite (proj2 (Z.eqb_neq _ 0) (length_nonzero df Hne)), Hcat. simpl.
  rewrite best_hit_body_run by done.
  by destruct (Qle_bool MIN_HIT (rate_of df c lvl)).
Qed.

(** C1.  On a non-empty window, when the first threshold of the ladder
    has a hit rate below the minimum, [best_hit] returns no result and
    its loop has evaluated that first threshold only -- whatever the
    rest of the ladder is, so also when a lower threshold would have met
    the minimum. *)
Theorem best_hit_stops_on_first_miss (df : DataFrame) (c : category)
    (lvl : Z) (rest : list Z) :
  df ≠ [] →
  CATEGORIES c = lvl :: rest →
  (rate_of df c lvl < MIN_HIT)%Q →
  best_hit df c = Ok None ∧ best_hit_examined df c = [lvl].
Proof.
  intros Hne Hcat Hlow.
  destruct (best_hit_head df c lvl rest Hne Hcat) as [Hres Hseen].
  apply Qle_bool_false in Hlow. rewrite Hlow in Hres. done.
Qed.

(** C2.  On a ladder sorted in descending order, a result
    [(lvl, hits, rate)] of [best_hit] names the highest threshold of the
    ladder whose hit rate meets the minimum; [hits] is the number of
    games of the window with a stat value at or above [lvl], and [rate]
    is [hits] divided by the window size (which is positive). *)
Theorem best_hit_result_sound (df : DataFrame) (c : category)
    (lvl hits : Z) (rate : Q) :
  Sorted descending (CATEGORIES c) →
  best_hit df c = Ok (Some (lvl, hits, rate)) →
  (0 < length df)%nat
  ∧ lvl ∈ CATEGORIES c
  ∧ (MIN_HIT <= rate_of df c lvl)%Q
  ∧ (∀ l, l ∈ CATEGORIES c → (MIN_HIT <= rate_of df c l)%Q → l ≤ lvl)
  ∧ hits = Z.of_nat (length (filter (λ r, lvl ≤ stat c r) df))
  ∧ rate = (inject_Z hits / inject_Z (Z.of_nat (length df)))%Q.
Proof.
  intros Hsorted Hres.
  assert (Hne : df ≠ []).
  { intros ->. by vm_compute in Hres. }
  destruct (CATEGORIES c) as [|lvl0 rest] eqn:Hcat.
  { unfold Phase5.best_hit in Hres.
    rewrite (proj2 (Z.eqb_neq _ 0) (length_nonzero df Hne)), Hcat in Hres.
    by simpl in Hres. }
  destruct (best_hit_head df c lvl0 rest Hne Hcat) as [Hhead _].
  rewrite Hhead in Hres.
  destruct (Qle_bool MIN_HIT (rate_of df c lvl0)) eqn:Hmeets; [|done].
  injection Hres as <- <- <-.
  apply Qle_bool_iff in Hmeets.
  split_and!; try done.
  - destruct df; [done|simpl; lia].
  - left.
  - intros l [->|Hin]%elem_of_cons _; [lia|].
    by apply (descending_head lvl0 rest).
Qed.

(** When the head of the ladder meets the minimum the scanner does
    return it. *)
Lemma best_hit_first_meets (df : DataFrame) (c : category) (lvl : Z)
    (rest : list Z) :
  df ≠ [] →
  CATEGORIES c = lvl :: rest →
  (MIN_HIT <= rate_of df c lvl)%Q →
  best_hit df c = Ok (Some (lvl, hits_ge df c lvl, rate_of df c lvl)).
Proof.
  intros Hne Hcat Hmeets.
  destruct (best_hit_head df c lvl rest Hne Hcat) as [Hres _].
  apply Qle_bool_iff in Hmeets. by rewrite Hmeets in Hres.
Qed.

(** C8.  On the empty window the scanners return no result: the guard
    on the window size comes before the division. *)
Theorem best_hit_empty_window (c : category) :
  best_hit [] c = Ok None ∧ Phase6.best_line [] c = Ok None.
Proof. done. Qed.

(** C10.  For a fixed window and category the hit count, and with it
    the hit rate, can only grow when the threshold is lowered; so on a
    descending ladder whose first threshold meets a minimum rate every
    later threshold meets it too. *)
Theorem hit_count_antitone (df : DataFrame) (c : category) :
  (∀ t1 t2, t2 ≤ t1 → hits_ge df c t1 ≤ hits_ge df c t2)
  ∧ (∀ t1 t2, df ≠ [] → t2 ≤ t1 →
       (rate_of df c t1 <= rate_of df c t2)%Q)
  ∧ (∀ t1 t2 r1, t2 ≤ t1 →
       TestMulti.hit_rate (stat c <$> df) t1 = Some r1 →
       ∃ r2, TestMulti.hit_rate (stat c <$> df) t2 = Some r2
             ∧ (r1 <= r2)%Q)
  ∧ (∀ lvl rest, df ≠ [] →
       Sorted descending (lvl :: rest) →
       (MIN_HIT <= rate_of df c lvl)%Q →
       ∀ l, l ∈ rest → (MIN_HIT <= rate_of df c l)%Q).
Proof.
  split_and!.
  - intros t1 t2. apply hits_ge_antitone.
  - intros t1 t2 _. apply rate_of_antitone.
  - intros t1 t2 r1 Hle. unfold TestMulti.hit_rate.
    destruct (decide (stat c <$> df = [])); [done|].
    intros [= <-]. eexists; split; [done|].
    apply Qmult_le_compat_r; [|done].
    apply Qdiv_le_mono_num; [|lia].
    apply inj_le, filter_length_mono. intros v. lia.
  - intros lvl rest _ Hsorted Hmeets l Hin.
    eapply Qle_trans; [exact Hmeets|].
    apply rate_of_antitone. by apply (descending_head lvl rest).
Qed.

End ScannerFacts.

(** C1 at the window 30, 28, ..., 8 of the script's points ladder: 30 is
    reached once in ten games, the scan stops there, although 10 is
    reached nine times in ten. *)
Lemma best_hit_stops_on_first_miss_witness :
  (Phase5.MIN_HIT <= rate_of Samples.cold_window PTS 10)%Q
  ∧ Phase5.best_hit Phase5.CATEGORIES Phase5.MIN_HIT Samples.cold_window PTS
    = Ok None
  ∧ Phase5.best_hit_examined Phase5.CATEGORIES Phase5.MIN_HIT
      Samples.cold_window PTS = [30].
Proof.
  split; [by vm_compute|].
  apply (best_hit_stops_on_first_miss Phase5.CATEGORIES Phase5.MIN_HIT
           Samples.cold_window PTS 30 [25; 20; 15; 10]).
  - done.
  - reflexivity.
  - by vm_compute.
Defined.

(** C2 at a window with eight games of 30 points or more. *)
Lemma best_hit_result_sound_witness :
  (0 < length Samples.hot_window)%nat
  ∧ 30 ∈ Phase5.CATEGORIES PTS
  ∧ (Phase5.MIN_HIT <= rate_of Samples.hot_window PTS 30)%Q
  ∧ (∀ l, l ∈ Phase5.CATEGORIES PTS →
       (Phase5.MIN_HIT <= rate_of Samples.hot_window PTS l)%Q → l ≤ 30)
  ∧ 8 = Z.of_nat (length (filter (λ r, 30 ≤ stat PTS r) Samples.hot_window))
  ∧ (8 # 10)%Q
    = (inject_Z 8 / inject_Z (Z.of_nat (length Samples.hot_window)))%Q.
Proof.
  apply (best_hit_result_sound Phase5.CATEGORIES Phase5.MIN_HIT
           Samples.hot_window PTS 30 8 (8 # 10)%Q).
  - unfold descending. repeat constructor; lia.
  - reflexivity.
Defined.

(** C10 at the window 30, 28, ..., 8. *)
Lemma hit_count_antitone_witness :
  hits_ge Samples.cold_window PTS 20 ≤ hits_ge Samples.cold_window PTS 15
  ∧ (rate_of Samples.cold_window PTS 20
     <= rate_of Samples.cold_window PTS 15)%Q
  ∧ (∀ l, l ∈ [5; 0] → ((9 # 10) <= rate_of Samples.cold_window PTS l)%Q).
Proof.
  destruct (hit_count_antitone (9 # 10)%Q Samples.cold_window PTS)
    as (Hhits & Hrate & _ & Hladder).
  split_and!.
  - apply Hhits. lia.
  - apply Hrate; [done|lia].
  - apply (Hladder 10).
    + done.
    + unfold descending. repeat constructor; lia.
    + by vm_compute.
Defined.

(** ** The stat-window loader *)

#[global] Instance newer_first_trans : Transitive newer_first.
Proof. unfold newer_first. intros x y z ? ?. lia. Qed.

#[global] Instance newer_first_total : Total newer_first.
Proof. unfold newer_first. intros x y. lia. Qed.

Lemma sort_values_desc_perm (df : DataFrame) : sort_values_desc df ≡ₚ df.
Proof. apply merge_sort_Permutation. Qed.

Lemma sort_values_desc_sorted (df : DataFrame) :
  StronglySorted newer_first (sort_values_desc df).
Proof. apply StronglySorted_merge_sort; apply _. Qed.

(** [df.head(n)] of a sorted frame is sorted. *)
Lemma take_sorted {A} (R : relation A) (n : nat) (l : list A) :
  StronglySorted R l → StronglySorted R (take n l).
Proof.
  intros Hs. rewrite <- (take_drop n l) in Hs.
  by apply StronglySorted_app_1_l in Hs.
Qed.

Lemma filter_complement_length {A} (P : A → Prop) `{∀ x, Decision (P x)}
    (l : list A) :
  (length (filter P l) + length (filter (λ x, ¬ P x) l) = length l)%nat.
Proof.
  rewrite <- length_app. apply Permutation_length, filter_app_complement.
Qed.

Section LoaderFacts.

Variable SEASONS : list string.
Variable PlayerGameLog : Z → string → Res DataFrame.
Variable lookback : nat.
Variable pid : Z.

#[local] Abbreviation qualifying :=
  (Phase5.qualifying_rows PlayerGameLog pid).
#[local] Abbreviation fetch_body :=
  (Phase5.fetch_body PlayerGameLog lookback pid).

Lemma qualifying_cons (s : string) (seasons : list string) :
  qualifying (s :: seasons) =
    filter (λ r, (0 < MIN r)%N) (Phase5.season_rows PlayerGameLog pid s)
    ++ qualifying seasons.
Proof.
  unfold Phase5.qualifying_rows, Phase5.raw_rows. simpl.
  by rewrite filter_app.
Qed.

Lemma qualifying_app (s1 s2 : list string) :
  qualifying (s1 ++ s2) = qualifying s1 ++ qualifying s2.
Proof.
  induction s1 as [|s s1 IH]; [done|].
  simpl. by rewrite !qualifying_cons, IH, (assoc (++)).
Qed.

(** One season: the rows with minutes are appended, or nothing is when
    the request raised. *)
Lemma fetch_body_run (s : string) (acc : DataFrame) :
  fetch_body s acc =
    if decide (lookback ≤ length (acc ++ qualifying [s]))%nat
    then Ok (Break (acc ++ qualifying [s]))
    else Ok (Continue (acc ++ qualifying [s])).
Proof.
  unfold Phase5.fetch_body.
  replace (qualifying [s]) with
    (filter (λ r, (0 < MIN r)%N) (Phase5.season_rows PlayerGameLog pid s))
    by (by rewrite qualifying_cons, app_nil_r).
  unfold Phase5.season_rows.
  destruct (PlayerGameLog pid s) as [part|e]; simpl; [done|].
  by rewrite app_nil_r.
Qed.

(** The season loop never raises; it gathers the qualifying rows of a
    prefix of the season list, and it stops early only with [lookback]
    rows in hand. *)
Lemma fetch_loop_gathers (seasons : list string) (acc : DataFrame) :
  ∃ k : nat,
    for_in fetch_body seasons acc
      = Ok (inl (acc ++ qualifying (take k seasons)))
    ∧ ((lookback ≤ length (acc ++ qualifying (take k seasons)))%nat
       ∨ take k seasons = seasons).
Proof.
  revert acc. induction seasons as [|s seasons IH]; intros acc.
  - exists 0%nat. simpl. rewrite app_nil_r. auto.
  - simpl. rewrite fetch_body_run.
    destruct (decide (lookback ≤ length (acc ++ qualifying [s]))%nat)
      as [Hfull|Hmore].
    + exists 1%nat. simpl. rewrite take_0. auto.
    + destruct (IH (acc ++ qualifying [s])) as (k & Hrun & Hstop).
      exists (S k). simpl.
      change (s :: take k seasons) with ([s] ++ take k seasons).
      rewrite qualifying_app, app_assoc.
      split; [done|]. destruct Hstop as [? | ->]; auto.
Qed.

(** The loader never raises. *)
Lemma fetch_player_logs_returns :
  ∃ window : DataFrame,
    Phase5.fetch_player_logs SEASONS PlayerGameLog lookback pid = Ok window.
Proof.
  destruct (fetch_loop_gathers SEASONS []) as (k & Hrun & _).
  unfold Phase5.fetch_player_logs. rewrite Hrun. simpl.
  destruct (decide _); by eexists.
Qed.

(** C3.  Whatever the service returns for the listed seasons (rows in
    any order, failed requests), [fetch_player_logs] raises nothing and
    returns a window of at most [lookback] rows, newest first, all with
    minutes played and all taken from the rows received.  When no more
    than [lookback] rows with minutes exist the window holds all of
    them; so from 12 rows of which 2 have no minutes, with a lookback
    of 10, it holds exactly the other 10. *)
Theorem fetch_player_logs_window :
  ∃ window : DataFrame,
    Phase5.fetch_player_logs SEASONS PlayerGameLog lookback pid = Ok window
    ∧ (length window ≤ lookback)%nat
    ∧ StronglySorted newer_first window
    ∧ Forall (λ r, MIN r ≠ 0%N) window
    ∧ window ⊆+ qualifying SEASONS
    ∧ ((length (qualifying SEASONS) ≤ lookback)%nat →
         window ≡ₚ qualifying SEASONS)
    ∧ (length (Phase5.raw_rows PlayerGameLog pid SEASONS) = 12%nat →
       length (filter (λ r, MIN r = 0%N)
                 (Phase5.raw_rows PlayerGameLog pid SEASONS)) = 2%nat →
       lookback = 10%nat →
       length window = 10%nat ∧ window ≡ₚ qualifying SEASONS).
Proof.
  destruct (fetch_loop_gathers SEASONS []) as (k & Hrun & Hstop).
  simpl in Hrun, Hstop.
  set (df_all := qualifying (take k SEASONS)) in *.
  assert (Hsplit : qualifying SEASONS
                   = df_all ++ qualifying (drop k SEASONS)).
  { unfold df_all. by rewrite <- qualifying_app, take_drop. }
  set (window := if decide (df_all = []) then df_all
                 else take lookback (sort_values_desc df_all)).
  assert (Hsub : window ⊆+ df_all).
  { unfold window. destruct (decide (df_all = [])); [done|].
    etrans; [apply sublist_submseteq, sublist_take|].
    apply Permutation_submseteq, sort_values_desc_perm. }
  assert (Hall : (length (qualifying SEASONS) ≤ lookback)%nat →
                 window ≡ₚ qualifying SEASONS).
  { intros Hfew.
    assert (Heq : qualifying SEASONS = df_all).
    { destruct Hstop as [Hfull | Hk]; [|by unfold df_all; rewrite Hk].
      rewrite Hsplit, length_app in Hfew.
      destruct (qualifying (drop k SEASONS)) as [|r rest] eqn:Hrest.
      - by rewrite Hsplit, app_nil_r.
      - simpl in Hfew. lia. }
    rewrite Heq in Hfew |- *. unfold window.
    destruct (decide (df_all = [])); [done|].
    rewrite take_ge; [apply sort_values_desc_perm|].
    by rewrite (Permutation_length (sort_values_desc_perm df_all)). }
  exists window. split_and!.
  - unfold Phase5.fetch_player_logs. rewrite Hrun. simpl.
    unfold window. by destruct (decide (df_all = [])).
  - unfold window. destruct (decide (df_all = [])) as [-> | ]; simpl.
    + lia.
    + rewrite length_take. lia.
  - unfold window. destruct (decide (df_all = [])) as [-> | ].
    + constructor.
    + apply take_sorted, sort_values_desc_sorted.
  - apply Forall_forall. intros r Hr.
    apply (elem_of_submseteq _ _ _ Hr) in Hsub.
    apply list_elem_of_filter in Hsub as [Hmin _]. lia.
  - rewrite Hsplit. by apply submseteq_inserts_r.
  - exact Hall.
  - intros Hraw Hzero ->.
    assert (Hten : length (qualifying SEASONS) = 10%nat).
    { pose proof (filter_complement_length (λ r, (0 < MIN r)%N)
                    (Phase5.raw_rows PlayerGameLog pid SEASONS)) as Hsum.
      rewrite Hraw in Hsum.
      rewrite (list_filter_iff (λ r, ¬ (0 < MIN r)%N) (λ r, MIN r = 0%N))
        in Hsum by (intros r; lia).
      rewrite Hzero in Hsum. unfold Phase5.qualifying_rows. lia. }
    assert (Hperm : window ≡ₚ qualifying SEASONS) by (apply Hall; lia).
    split; [|done]. by rewrite (Permutation_length Hperm).
Qed.

End LoaderFacts.

(** C3 on the twelve sample rows: two seasons are read, the two rows
    without minutes are dropped, the other ten come back newest first. *)
Lemma fetch_player_logs_window_witness :
  length (Phase5.raw_rows Samples.two_seasons 7 Phase5.SEASONS) = 12%nat
  ∧ length (filter (λ r, MIN r = 0%N)
              (Phase5.raw_rows Samples.two_seasons 7 Phase5.SEASONS)) = 2%nat
  ∧ ∃ window,
      Phase5.fetch_player_logs Phase5.SEASONS Samples.two_seasons 10 7
        = Ok window
      ∧ length window = 10%nat
      ∧ window ≡ₚ Phase5.qualifying_rows Samples.two_seasons 7 Phase5.SEASONS
      ∧ StronglySorted newer_first window.
Proof.
  split; [reflexivity|]. split; [reflexivity|].
  destruct (fetch_player_logs_window Phase5.SEASONS Samples.two_seasons 10 7)
    as (window & Hrun & _ & Hsorted & _ & _ & _ & Hsample).
  destruct Hsample as [Hlen Hperm]; [reflexivity..|].
  exists window. done.
Defined.

Example fetch_player_logs_two_seasons :
  Phase5.fetch_player_logs Phase5.SEASONS Samples.two_seasons 10 7
  = Ok Samples.ten_rows.
Proof. reflexivity. Qed.

(** ** The dated cache of phase 5 *)

Lemma foldr_max_date (d : Z) (l : DataFrame) :
  let m := foldr (λ r' m, Z.max (GAME_DATE r') m) d l in
  (m = d ∨ ∃ r, r ∈ l ∧ GAME_DATE r = m)
  ∧ d ≤ m
  ∧ ∀ r, r ∈ l → GAME_DATE r ≤ m.
Proof.
  induction l as [|x l (Hm & Hd & Hall)]; simpl.
  - split_and!; [by left|lia|]. by intros r ?%elem_of_nil.
  - split_and!.
    + destruct (Z.max_spec (GAME_DATE x)
                  (foldr (λ r' m, Z.max (GAME_DATE r') m) d l))
        as [[_ ->]|[_ ->]].
      * destruct Hm as [?|(r & ? & ?)]; [by left|].
        right. exists r. split; [by right|done].
      * right. exists x. split; [by left|done].
    + lia.
    + intros r [->|Hr]%elem_of_cons; [lia|]. specialize (Hall r Hr). lia.
Qed.

(** [newest_game_date] is the largest date of the frame. *)
Lemma newest_game_date_spec (df : DataFrame) (m : Z) :
  Phase5.newest_game_date df = Some m ↔
    (∃ r, r ∈ df ∧ GAME_DATE r = m) ∧ ∀ r, r ∈ df → GAME_DATE r ≤ m.
Proof.
  destruct df as [|x l]; simpl.
  - split; [done|]. by intros [(r & ?%elem_of_nil & _) _].
  - destruct (foldr_max_date (GAME_DATE x) l) as (Hm & Hd & Hall).
    simpl in *. split.
    + intros [= <-]. split.
      * destruct Hm as [Hm|(r & ? & ?)].
        -- exists x. split; [by left|done].
        -- exists r. split; [by right|done].
      * intros r [->|Hr]%elem_of_cons; auto.
    + intros [(r & Hr & <-) Hmax]. f_equal.
      apply Z.le_antisymm.
      * destruct Hm as [->|(r' & Hr' & <-)].
        -- apply Hmax. by left.
        -- apply Hmax. by right.
      * apply elem_of_cons in Hr as [->|Hr]; auto.
  Qed.

Lemma newest_game_date_perm (df df' : DataFrame) :
  df ≡ₚ df' → Phase5.newest_game_date df = Phase5.newest_game_date df'.
Proof.
  intros Hperm.
  destruct (Phase5.newest_game_date df) as [m|] eqn:Hdf.
  - symmetry. apply newest_game_date_spec.
    apply newest_game_date_spec in Hdf as [(r & Hr & <-) Hmax].
    split.
    + exists r. by rewrite <- Hperm.
    + intros r' Hr'. rewrite <- Hperm in Hr'. auto.
  - destruct df; [|done]. apply Permutation_nil_l in Hperm. by subst.
Qed.

Lemma sort_values_desc_nil (df : DataFrame) :
  sort_values_desc df = [] ↔ df = [].
Proof.
  split; [|by intros ->].
  intros Hnil. apply Permutation_nil_r. rewrite <- Hnil.
  symmetry. apply sort_values_desc_perm.
Qed.

Section CacheFacts.

Variable CACHE_MAX_AGE_HOURS : Z.
Variable SEASONS : list string.
Variable PlayerGameLog : Z → string → Res DataFrame.
Variable lookback : nat.

#[local] Abbreviation load_cached_logs :=
  (Phase5.load_cached_logs CACHE_MAX_AGE_HOURS).
#[local] Abbreviation get_player_logs :=
  (Phase5.get_player_logs CACHE_MAX_AGE_HOURS SEASONS PlayerGameLog lookback).
#[local] Abbreviation fetch_player_logs :=
  (Phase5.fetch_player_logs SEASONS PlayerGameLog lookback).
#[local] Abbreviation entry_current :=
  (Phase5.entry_current CACHE_MAX_AGE_HOURS).

(** The two tests of [get_player_logs], read off the store. *)
Lemma cache_test_current (fs : gmap Z Phase5.CacheFile) (clk : Phase5.Clock)
    (pid : Z) (data : Phase5.CacheFile) :
  entry_current fs clk pid data →
  load_cached_logs fs (Phase5.t_load clk) pid
    = Ok (sort_values_desc (Phase5.logs data))
  ∧ Phase5.cached_is_current (sort_values_desc (Phase5.logs data))
      (Phase5.date_of (Phase5.t_today clk)) = true.
Proof.
  intros (Hfile & Hage & newest & Hnewest & Htoday).
  assert (Hrows : Phase5.logs data ≠ []).
  { intros Hnil. by rewrite Hnil in Hnewest. }
  split.
  - unfold Phase5.load_cached_logs. rewrite Hfile.
    rewrite decide_False by lia. by rewrite decide_False.
  - unfold Phase5.cached_is_current.
    rewrite decide_False by by rewrite sort_values_desc_nil.
    rewrite (newest_game_date_perm _ _ (sort_values_desc_perm _)), Hnewest.
    apply bool_decide_eq_true. lia.
Qed.

Lemma cache_test_not_current (fs : gmap Z Phase5.CacheFile) (clk : Phase5.Clock)
    (pid : Z) :
  Phase5.cache_wf fs →
  (∀ data, ¬ entry_current fs clk pid data) →
  ∃ cached,
    load_cached_logs fs (Phase5.t_load clk) pid = Ok cached
    ∧ Phase5.cached_is_current cached
        (Phase5.date_of (Phase5.t_today clk)) = false.
Proof.
  intros Hwf Hnot. unfold Phase5.load_cached_logs.
  destruct (fs !! pid) as [data|] eqn:Hfile; [|by exists []].
  destruct (decide (_ > _)) as [Hold|Hage]; [by exists []|].
  rewrite decide_False by by apply (Hwf pid).
  eexists; split; [done|].
  unfold Phase5.cached_is_current.
  destruct (decide (sort_values_desc _ = [])); [done|].
  rewrite (newest_game_date_perm _ _ (sort_values_desc_perm _)).
  destruct (Phase5.newest_game_date (Phase5.logs data)) as [newest|] eqn:Hnewest;
    [|done].
  apply bool_decide_eq_false. intros Htoday.
  apply (Hnot data). split_and!; [done|lia|].
  exists newest. split; [done|lia].
Qed.




(** C6 (amended).  On a miss, a fetch result that is not empty is
    written back under the date of the write; an empty fetch result is
    returned as it is and the store is left unchanged. *)
Theorem get_player_logs_write_back (fs : gmap Z Phase5.CacheFile)
    (clk : Phase5.Clock) (pid : Z) :
  Phase5.cache_wf fs →
  (∀ data, ¬ entry_current fs clk pid data) →
  ∃ fresh,
    fetch_player_logs pid = Ok fresh
    ∧ (fresh ≠ [] →
         get_player_logs fs clk pid
           = Ok (fresh,
                 <[pid := {| Phase5.updated :=
                               Phase5.date_of (Phase5.t_save clk);
                             Phase5.logs := fresh |}]> fs))
    ∧ (fresh = [] → get_player_logs fs clk pid = Ok ([], fs)).
Proof.
  intros Hwf Hnot.
  destruct (cache_test_not_current fs clk pid Hwf Hnot)
    as (cached & Hload & Htest).
  destruct (fetch_player_logs_returns SEASONS PlayerGameLog lookback pid)
    as (fresh & Hfetch).
  exists fresh. split; [done|].
  unfold Phase5.get_player_logs. rewrite Hload. simpl.
  rewrite Htest, Hfetch. simpl.
  split; intros Hfresh.
  - by rewrite decide_False.
  - rewrite decide_True by done. by rewrite Hfresh.
Qed.

(** Calls keep the store free of empty row lists. *)
Lemma get_player_logs_keeps_wf (fs fs' : gmap Z Phase5.CacheFile)
    (clk : Phase5.Clock) (pid : Z) (df : DataFrame) :
  Phase5.cache_wf fs →
  get_player_logs fs clk pid = Ok (df, fs') →
  Phase5.cache_wf fs'.
Proof.
  intros Hwf. unfold Phase5.get_player_logs.
  destruct (load_cached_logs fs (Phase5.t_load clk) pid) as [cached|e];
    simpl; [|done].
  destruct (Phase5.cached_is_current _ _); [by intros [= _ <-]|].
  destruct (fetch_player_logs pid) as [fresh|e]; simpl; [|done].
  destruct (decide (fresh = [])); intros [= _ <-]; [done|].
  intros pid' data. unfold Phase5.save_cached_logs.
  destruct (decide (pid = pid')) as [<-|Hne].
  - rewrite lookup_insert_eq. by intros [= <-].
  - rewrite lookup_insert_ne by done. apply Hwf.
Qed.

End CacheFacts.


Lemma singleton_store_wf (pid : Z) (data : Phase5.CacheFile) :
  Phase5.logs data ≠ [] →
  Phase5.cache_wf ({[ pid := data ]} : gmap Z Phase5.CacheFile).
Proof.
  intros Hrows pid' data' [_ <-]%lookup_singleton_Some. done.
Qed.

Lemma yesterday_store_not_current (data : Phase5.CacheFile) :
  ¬ Phase5.entry_current Phase5.CACHE_MAX_AGE_HOURS
      Samples.yesterday_store Samples.morning 7 data.
Proof.
  intros (Hfile & _ & newest & Hnewest & Htoday).
  unfold Samples.yesterday_store in Hfile.
  apply lookup_singleton_Some in Hfile as [_ <-].
  injection Hnewest as <-. by vm_compute in Htoday.
Qed.


(** C6 as stated fails.  With no entry for player 7 the cache misses; the
    service returns an empty set of rows, and nothing is written: the
    store has no entry for the player afterwards. *)
Lemma get_player_logs_empty_fetch_not_written :
  (∅ : gmap Z Phase5.CacheFile) !! 7 = None
  ∧ Phase5.fetch_player_logs Phase5.SEASONS Samples.no_rows 10 7 = Ok []
  ∧ ∃ fs', Phase5.get_player_logs Phase5.CACHE_MAX_AGE_HOURS Phase5.SEASONS
             Samples.no_rows 10 ∅ Samples.morning 7 = Ok ([], fs')
           ∧ fs' !! 7 = None.
Proof.
  split_and!; [reflexivity..|]. exists ∅. split; reflexivity.
Qed.

(** C6 (amended) on [yesterday_store]: the ten fetched rows replace the
    entry, stamped with day 300. *)
Lemma get_player_logs_write_back_witness :
  Phase5.get_player_logs Phase5.CACHE_MAX_AGE_HOURS Phase5.SEASONS
    Samples.two_seasons 10 Samples.yesterday_store Samples.morning 7
  = Ok (Samples.ten_rows,
        <[7 := {| Phase5.updated := 300; Phase5.logs := Samples.ten_rows |}]>
          Samples.yesterday_store).
Proof.
  destruct (get_player_logs_write_back Phase5.CACHE_MAX_AGE_HOURS
              Phase5.SEASONS Samples.two_seasons 10
              Samples.yesterday_store Samples.morning 7)
    as (fresh & Hfetch & Hput & _).
  - by apply singleton_store_wf.
  - apply yesterday_store_not_current.
  - injection Hfetch as <-. by apply Hput.
Defined.

(** ** Cache expiry *)

Lemma us_per_day_pos : 0 < Phase5.us_per_day.
Proof. done. Qed.

(** The age [load_cached_logs] sees for an entry written at [T] is the
    real age plus the time of day of [T]. *)
Lemma dated_age (T dt : Z) :
  (T + dt) - Phase5.strptime_day (Phase5.date_of T)
  = dt + T `mod` Phase5.us_per_day.
Proof.
  unfold Phase5.strptime_day, Phase5.date_of.
  pose proof (Z.div_mod T Phase5.us_per_day) as Hdm.
  pose proof us_per_day_pos. lia.
Qed.

Lemma us_per_hour_val : Phase5.us_per_hour = 3600000000.
Proof. reflexivity. Qed.

Lemma us_per_day_val : Phase5.us_per_day = 86400000000.
Proof. reflexivity. Qed.

Lemma timedelta_hours_val (h : Z) :
  Phase5.timedelta_hours h = h * 3600000000.
Proof. reflexivity. Qed.

Section ExpiryFacts.

Variable T : Z.

Lemma is_cache_valid_23h_25h (fs : gmap string Parlays.File)
    (player_name : string) (df : DataFrame) :
  Parlays.is_cache_valid (Parlays.save_cache fs T player_name df)
    (T + 23 * Phase5.us_per_hour) (Parlays.cache_path player_name) = true
  ∧ Parlays.is_cache_valid (Parlays.save_cache fs T player_name df)
      (T + 25 * Phase5.us_per_hour) (Parlays.cache_path player_name)
    = false.
Proof.
  unfold Parlays.is_cache_valid, Parlays.save_cache.
  rewrite lookup_insert_eq. cbn [Parlays.mtime].
  rewrite timedelta_hours_val, us_per_hour_val.
  unfold Parlays.CACHE_EXPIRY_HOURS. split.
  - apply bool_decide_eq_true. lia.
  - apply bool_decide_eq_false. lia.
Qed.

Lemma load_cached_logs_23h_25h (fs : gmap Z Phase5.CacheFile) (pid : Z)
    (df : DataFrame) :
  df ≠ [] →
  Phase5.load_cached_logs 24 (Phase5.save_cached_logs fs T pid df)
    (T + 25 * Phase5.us_per_hour) pid = Ok []
  ∧ (Phase5.load_cached_logs 24 (Phase5.save_cached_logs fs T pid df)
       (T + 23 * Phase5.us_per_hour) pid = Ok (sort_values_desc df)
     ↔ T `mod` Phase5.us_per_day ≤ Phase5.us_per_hour).
Proof.
  intros Hdf.
  unfold Phase5.load_cached_logs, Phase5.save_cached_logs.
  rewrite lookup_insert_eq. cbn [Phase5.updated Phase5.logs].
  rewrite !dated_age.
  pose proof (Z.mod_pos_bound T _ us_per_day_pos) as Htod.
  rewrite timedelta_hours_val, us_per_hour_val.
  rewrite us_per_day_val in *.
  split.
  - rewrite decide_True by lia. done.
  - destruct (decide (_ > _)) as [Hold|Hfresh].
    + split; [|lia]. intros [= Hnil]. symmetry in Hnil.
      by destruct Hdf; apply sort_values_desc_nil.
    + rewrite decide_False by done. split; [lia|done].
Qed.

End ExpiryFacts.

(** C5 at an entry written at noon.  Twenty-three hours later, at 11:00 of
    the next day, [load_cached_logs] discards it (the rows are not
    returned), while the mtime check of the sibling scripts accepts an
    entry of that age. *)
Theorem load_cached_logs_noon_entry :
  Phase5.load_cached_logs Phase5.CACHE_MAX_AGE_HOURS
    (Phase5.save_cached_logs ∅ Samples.noon 7 Samples.hot_window)
    (Samples.noon + 23 * Phase5.us_per_hour) 7
  = Ok []
  ∧ Parlays.is_cache_valid
      (Parlays.save_cache ∅ Samples.noon "Player Seven" Samples.hot_window)
      (Samples.noon + 23 * Phase5.us_per_hour)
      (Parlays.cache_path "Player Seven")
    = true.
Proof. split; reflexivity. Qed.

(** ** The retrying loader of the parlay script *)

Section RetryFacts.

Variable normalize_name : string → string.
Variable all_players : list Parlays.Player.
Variable PlayerGameLog_season : Z → nat → Res DataFrame.
Variable PlayerGameLog_all_time : Z → nat → Res DataFrame.

#[local] Abbreviation attempt_body :=
  (Parlays.attempt_body PlayerGameLog_season PlayerGameLog_all_time).
#[local] Abbreviation get_last_n_games :=
  (Parlays.get_last_n_games normalize_name all_players
     PlayerGameLog_season PlayerGameLog_all_time).

(** A run of attempts that all raise ends without a result, having
    slept [attempt + 1] seconds after each. *)
Lemma attempts_all_fail (fs : gmap string Parlays.File) (now : Z)
    (player_name : string) (num_games : nat) (pid : Z)
    (attempts : list nat) (secs : Z) :
  (∀ a, a ∈ attempts → ∃ e, PlayerGameLog_season pid a = Raise e) →
  for_in (attempt_body fs now player_name num_games pid) attempts secs
  = Ok (inl (foldl (λ s a, s + 1 * (Z.of_nat a + 1)) secs attempts)).
Proof.
  revert secs. induction attempts as [|a attempts IH]; intros secs Hfail.
  - done.
  - destruct (Hfail a) as [e He]; [by left|].
    simpl. unfold Parlays.attempt_body at 1. rewrite He. simpl.
    apply IH. intros a' Ha'. apply Hfail. by right.
Qed.

(** No run of attempts raises. *)
Lemma attempts_never_raise (fs : gmap string Parlays.File) (now : Z)
    (player_name : string) (num_games : nat) (pid : Z)
    (attempts : list nat) (secs : Z) :
  ∃ r, for_in (attempt_body fs now player_name num_games pid) attempts secs
       = Ok r.
Proof.
  revert secs. induction attempts as [|a attempts IH]; intros secs.
  - by eexists.
  - simpl. unfold Parlays.attempt_body at 1.
    destruct (PlayerGameLog_season pid a) as [logs|e]; simpl.
    + by eexists.
    + apply IH.
Qed.

Lemma get_last_n_games_never_raises (fs : gmap string Parlays.File)
    (now now_save : Z) (player_name : string) (num_games : nat) :
  ∃ out, get_last_n_games fs now now_save player_name num_games = Ok out.
Proof.
  unfold Parlays.get_last_n_games.
  destruct (Parlays.is_cache_valid _ _ _); [by eexists|].
  destruct (Parlays.find_player _ _ _) as [m|]; [|by eexists].
  destruct (attempts_never_raise fs now_save player_name num_games
              (Parlays.id m) (seq 0 3) 0) as [r ->].
  simpl. destruct r; by eexists.
Qed.

(** C7.  When the cache is not fresh, the player is known and the
    season request raises on each of the three attempts,
    [get_last_n_games] raises nothing: it returns the content of the
    player's cache file when there is one (it is stale at this point),
    and an empty frame when there is none.  The store is left as it was,
    after 1 + 2 + 3 seconds of back-off. *)
Theorem get_last_n_games_fetch_failure (fs : gmap string Parlays.File)
    (now now_save : Z) (player_name : string) (num_games : nat)
    (m : Parlays.Player) :
  Parlays.is_cache_valid fs now (Parlays.cache_path player_name) = false →
  Parlays.find_player normalize_name all_players player_name = Some m →
  (∀ attempt, (attempt < 3)%nat →
     ∃ e, PlayerGameLog_season (Parlays.id m) attempt = Raise e) →
  ∃ out,
    get_last_n_games fs now now_save player_name num_games = Ok out
    ∧ (∀ f, fs !! Parlays.cache_path player_name = Some f →
         Parlays.ret out = Parlays.content f)
    ∧ (fs !! Parlays.cache_path player_name = None → Parlays.ret out = [])
    ∧ Parlays.files out = fs
    ∧ Parlays.slept out = 6.
Proof.
  intros Hstale Hfound Hfail.
  unfold Parlays.get_last_n_games. rewrite Hstale, Hfound.
  rewrite attempts_all_fail.
  - simpl. eexists. split; [done|]. simpl.
    unfold Parlays.load_cache, Parlays.open_read.
    split_and!; [|by intros ->|done..].
    by intros f ->.
  - intros a Ha. apply Hfail. apply elem_of_seq in Ha. lia.
Qed.

End RetryFacts.

(** C7 with the stats service down: the file written at time 0 is long
    stale on day 300 and its rows come back; without a file the result is
    the empty frame. *)
Lemma get_last_n_games_fetch_failure_witness :
  (∃ out,
     Parlays.get_last_n_games (λ s, s) Samples.roster Samples.down
       Samples.down Samples.stale_files Samples.noon Samples.noon
       "Player Seven" 20 = Ok out
     ∧ Parlays.ret out = Samples.cold_window)
  ∧ (∃ out,
       Parlays.get_last_n_games (λ s, s) Samples.roster Samples.down
         Samples.down ∅ Samples.noon Samples.noon "Player Seven" 20 = Ok out
       ∧ Parlays.ret out = []).
Proof.
  split.
  - destruct (get_last_n_games_fetch_failure (λ s, s) Samples.roster
                Samples.down Samples.down Samples.stale_files
                Samples.noon Samples.noon "Player Seven" 20
                {| Parlays.id := 7; Parlays.full_name := "Player Seven" |})
      as (out & Hrun & Hfile & _); [reflexivity..| |].
    + intros attempt _. by eexists.
    + exists out. split; [done|].
      by apply (Hfile {| Parlays.mtime := 0;
                         Parlays.content := Samples.cold_window |}).
  - destruct (get_last_n_games_fetch_failure (λ s, s) Samples.roster
                Samples.down Samples.down ∅
                Samples.noon Samples.noon "Player Seven" 20
                {| Parlays.id := 7; Parlays.full_name := "Player Seven" |})
      as (out & Hrun & _ & Hnone & _); [reflexivity..| |].
    + intros attempt _. by eexists.
    + exists out. split; [done|]. by apply Hnone.
Defined.

(** ** Odds line selection *)

Section SortFacts.

Context {A : Type} (le : A → A → bool).
Hypothesis le_total : ∀ x y, le x y = true ∨ le y x = true.
Hypothesis le_trans : ∀ x y z, le x y = true → le y z = true → le x z = true.

Lemma sort_insert_perm (x : A) (l : list A) :
  Parlays.sort_insert le x l ≡ₚ x :: l.
Proof.
  induction l as [|y l IH]; simpl; [done|].
  destruct (le x y); [done|]. rewrite IH. apply Permutation_swap.
Qed.

Lemma list_sort_perm (l : list A) : Parlays.list_sort le l ≡ₚ l.
Proof.
  induction l as [|x l IH]; [done|].
  unfold Parlays.list_sort in *. simpl.
  by rewrite sort_insert_perm, IH.
Qed.

Lemma sort_insert_sorted (x : A) (l : list A) :
  StronglySorted (λ a b, le a b = true) l →
  StronglySorted (λ a b, le a b = true) (Parlays.sort_insert le x l).
Proof.
  induction 1 as [|y l Hsorted IH Hall]; simpl.
  - repeat constructor.
  - destruct (le x y) eqn:Hxy.
    + constructor; [by constructor|].
      constructor; [done|].
      eapply Forall_impl; [exact Hall|]. intros z Hyz. by eapply le_trans.
    + constructor; [done|].
      rewrite sort_insert_perm. constructor; [|done].
      destruct (le_total x y) as [Habs|?]; [congruence|done].
Qed.

Lemma list_sort_sorted (l : list A) :
  StronglySorted (λ a b, le a b = true) (Parlays.list_sort le l).
Proof.
  induction l as [|x l IH]; [constructor|].
  unfold Parlays.list_sort in *. simpl. by apply sort_insert_sorted.
Qed.

(** The first element after sorting comes before every element. *)
Lemma list_sort_head (l : list A) (x : A) (rest : list A) :
  Parlays.list_sort le l = x :: rest →
  x ∈ l ∧ ∀ y, y ∈ l → le x y = true.
Proof.
  intros Hsort.
  pose proof (list_sort_perm l) as Hperm.
  pose proof (list_sort_sorted l) as Hsorted.
  rewrite Hsort in Hperm, Hsorted.
  apply StronglySorted_cons in Hsorted as [Hall _].
  rewrite Forall_forall in Hall. split.
  - rewrite <- Hperm. by left.
  - intros y Hy. rewrite <- Hperm in Hy.
    apply elem_of_cons in Hy as [->|Hy]; [|by apply Hall].
    by destruct (le_total x x).
Qed.

Lemma list_sort_nil (l : list A) : Parlays.list_sort le l = [] ↔ l = [].
Proof.
  split; [|by intros ->].
  intros Hnil. apply Permutation_nil_r. rewrite <- Hnil.
  symmetry. apply list_sort_perm.
Qed.

End SortFacts.

Lemma alt_le_total (x y : Q * Parlays.Price) :
  Parlays.alt_le x y = true ∨ Parlays.alt_le y x = true.
Proof.
  unfold Parlays.alt_le. rewrite !Qle_bool_iff.
  destruct (Qlt_le_dec x.1 y.1) as [?%Qlt_le_weak|?]; auto.
Qed.

Lemma alt_le_trans (x y z : Q * Parlays.Price) :
  Parlays.alt_le x y = true → Parlays.alt_le y z = true →
  Parlays.alt_le x z = true.
Proof.
  unfold Parlays.alt_le. rewrite !Qle_bool_iff. intros ? ?.
  by apply Qle_trans with y.1.
Qed.

(** Lexicographic order on [(distance, side)] keys. *)
Lemma tuple_le_spec (k1 k2 : Q * Z) :
  Parlays.tuple_le k1 k2 = true ↔
    (k1.1 < k2.1)%Q ∨ ((k1.1 == k2.1)%Q ∧ k1.2 ≤ k2.2).
Proof.
  unfold Parlays.tuple_le.
  destruct (Qcompare_spec k1.1 k2.1) as [Heq|Hlt|Hgt].
  - rewrite Z.leb_le. split; [by right|].
    intros [Hlt|[_ ?]]; [|done].
    rewrite Heq in Hlt. by apply Qlt_irrefl in Hlt.
  - split; [by left|done].
  - split; [done|]. intros [Hlt|[Heq _]].
    + destruct (Qlt_irrefl k1.1). by apply Qlt_trans with k2.1.
    + rewrite Heq in Hgt. by apply Qlt_irrefl in Hgt.
Qed.

Lemma tuple_le_total (k1 k2 : Q * Z) :
  Parlays.tuple_le k1 k2 = true ∨ Parlays.tuple_le k2 k1 = true.
Proof.
  rewrite !tuple_le_spec.
  destruct (Qcompare_spec k1.1 k2.1) as [Heq|Hlt|Hgt]; [|by auto..].
  destruct (Z.le_ge_cases k1.2 k2.2).
  - left. by right.
  - right. right. split; [by symmetry|done].
Qed.

Lemma tuple_le_trans (k1 k2 k3 : Q * Z) :
  Parlays.tuple_le k1 k2 = true → Parlays.tuple_le k2 k3 = true →
  Parlays.tuple_le k1 k3 = true.
Proof.
  rewrite !tuple_le_spec.
  intros [H12|[H12 Hz12]] [H23|[H23 Hz23]].
  - left. by apply Qlt_trans with k2.1.
  - left. by rewrite <- H23.
  - left. by rewrite H12.
  - right. split; [by rewrite H12|lia].
Qed.

Lemma std_le_total (target : Q) (x y : Q * Parlays.Price) :
  Parlays.std_le target x y = true ∨ Parlays.std_le target y x = true.
Proof. apply tuple_le_total. Qed.

Lemma std_le_trans (target : Q) (x y z : Q * Parlays.Price) :
  Parlays.std_le target x y = true → Parlays.std_le target y z = true →
  Parlays.std_le target x z = true.
Proof. apply tuple_le_trans. Qed.

(** What [std_le] says about two lines: the first is at least as near to
    the target, and at equal distance it is on the low side whenever the
    second is. *)
Lemma std_le_spec (target : Q) (x y : Q * Parlays.Price) :
  Parlays.std_le target x y = true →
  (Parlays.distance target x.1 <= Parlays.distance target y.1)%Q
  ∧ ((Parlays.distance target y.1 == Parlays.distance target x.1)%Q →
     (y.1 <= target)%Q → (x.1 <= target)%Q).
Proof.
  unfold Parlays.std_le. rewrite tuple_le_spec.
  unfold Parlays.std_key, Parlays.distance. simpl.
  intros [Hlt|[Heq Hside]].
  - split; [by apply Qlt_le_weak|].
    intros Hsame _. rewrite Hsame in Hlt. by apply Qlt_irrefl in Hlt.
  - split; [by rewrite Heq; apply Qle_refl|].
    intros _ Hlow%Qle_bool_iff. rewrite Hlow in Hside.
    destruct (Qle_bool x.1 target) eqn:Hx; [by apply Qle_bool_iff|lia].
Qed.

(** [int] of a whole number of points is that number. *)
Lemma int_of_whole (pt : Q) (n : Z) :
  (pt == inject_Z n)%Q → Parlays.int_of pt = n.
Proof.
  unfold Qeq, Parlays.int_of. simpl. intros Hpt.
  rewrite Z.mul_1_r in Hpt. rewrite Hpt. by apply Z.quot_mul.
Qed.

(** [int] cuts the fraction off, towards zero. *)
Lemma int_of_trunc (pt : Q) :
  ((0 <= pt)%Q →
     (inject_Z (Parlays.int_of pt) <= pt)%Q
     ∧ (pt < inject_Z (Parlays.int_of pt) + 1)%Q)
  ∧ ((pt <= 0)%Q →
       (pt <= inject_Z (Parlays.int_of pt))%Q
       ∧ (inject_Z (Parlays.int_of pt) - 1 < pt)%Q).
Proof.
  destruct pt as [n d]. unfold Qminus.
  unfold Parlays.int_of, Qle, Qlt, Qplus, Qopp, inject_Z. cbn [Qnum Qden].
  rewrite !Z.mul_1_r, ?Pos.mul_1_l.
  assert (Hd : 0 < Z.pos d) by lia.
  split; intros Hn.
  - assert (Hn' : 0 ≤ n) by lia.
    rewrite Z.quot_div_nonneg by done.
    pose proof (Z.mul_div_le n (Z.pos d) Hd).
    pose proof (Z.mul_succ_div_gt n (Z.pos d) Hd).
    nia.
  - assert (Hn' : 0 ≤ - n) by lia.
    assert (Hq : n `quot` Z.pos d = - ((- n) `div` Z.pos d)).
    { rewrite <- (Z.quot_div_nonneg (- n)) by lia.
      rewrite Z.quot_opp_l by lia. lia. }
    rewrite Hq.
    pose proof (Z.mul_div_le (- n) (Z.pos d) Hd).
    pose proof (Z.mul_succ_div_gt (- n) (Z.pos d) Hd).
    nia.
Qed.

(** The lines of a player in a market are the "over" entries of the
    lookup under that player and market. *)
Lemma lines_of_elem (odds_lookup : list (Parlays.OddsKey * Parlays.Price))
    (pkey market : string) (pt : Q) (val : Parlays.Price) :
  (pt, val) ∈ Parlays.lines_of odds_lookup pkey market ↔
    ∃ k, (k, val) ∈ odds_lookup
         ∧ Parlays.ok_player k = pkey
         ∧ Parlays.ok_market k = market
         ∧ Parlays.ok_side k = "over"%string
         ∧ Parlays.ok_point k = pt.
Proof.
  unfold Parlays.lines_of. rewrite list_elem_of_omap. split.
  - intros ([k v] & Hin & Hsel). simpl in Hsel.
    destruct (decide _) as [(? & ? & ?)|]; [|done].
    injection Hsel as <- <-. by exists k.
  - intros (k & Hin & Hp & Hm & Hs & Hpt). exists (k, val).
    split; [done|]. simpl. rewrite decide_True by done. by rewrite Hpt.
Qed.

Section OddsFacts.

Variable normalize_name : string → string.
Variables (player stat_label : string) (threshold : Z).
Variable odds_lookup : list (Parlays.OddsKey * Parlays.Price).
Variable returned_markets : gset string.
Variables (std alt : string).

#[local] Abbreviation alts :=
  (Parlays.lines_of odds_lookup (normalize_name player) alt).
#[local] Abbreviation stds :=
  (Parlays.lines_of odds_lookup (normalize_name player) std).
#[local] Abbreviation target := (Parlays.threshold_to_over_point threshold).

(** A market with a line for the player has been returned. *)
Lemma lines_market_returned (market : string) :
  Parlays.markets_returned odds_lookup returned_markets →
  Parlays.lines_of odds_lookup (normalize_name player) market ≠ [] →
  market ∈ returned_markets.
Proof.
  intros Hinv Hlines.
  destruct (Parlays.lines_of _ _ _) as [|[pt val] rest] eqn:Heq; [done|].
  assert (Hin : (pt, val)
                ∈ Parlays.lines_of odds_lookup (normalize_name player) market)
    by (rewrite Heq; left).
  apply lines_of_elem in Hin as (k & Hk & _ & <- & _).
  apply (Hinv (k, val) Hk).
Qed.

(** C9 (amended).  For a stat with markets and a lookup as the odds fetch
    builds it: when the player has alternate "over" lines for the stat,
    the pick carries the price of the alternate line with the highest
    point and names the alternate market; the point it reports is that
    line's point with the fraction cut off (towards zero), so the line's
    own point on a whole-number ladder.  When the player has no
    alternate line, the pick is the standard "over" line nearest to
    [threshold - 0.5], the one at or below the target when two lines are
    equally near; with no line at all there is no pick. *)
Theorem pick_highest_alt_else_nearest_standard :
  Parlays.stat_to_markets stat_label = (Some std, Some alt) →
  Parlays.markets_returned odds_lookup returned_markets →
  (alts ≠ [] →
     ∃ pt val n,
       (pt, val) ∈ alts
       ∧ (∀ pt' val', (pt', val') ∈ alts → (pt' <= pt)%Q)
       ∧ ((0 <= pt)%Q → (inject_Z n <= pt)%Q ∧ (pt < inject_Z n + 1)%Q)
       ∧ ((pt <= 0)%Q → (pt <= inject_Z n)%Q ∧ (inject_Z n - 1 < pt)%Q)
       ∧ ((∃ m, (pt == inject_Z m)%Q) → (inject_Z n == pt)%Q)
       ∧ Parlays.pick_highest_alt_or_best_standard normalize_name player
           stat_label threshold odds_lookup returned_markets
         = Some {| Parlays.point := inject_Z n;
                   Parlays.pick_american := Parlays.american val;
                   Parlays.pick_decimal := Parlays.decimal val;
                   Parlays.pick_book := Parlays.book val;
                   Parlays.used_market := alt |})
  ∧ (alts = [] → stds ≠ [] →
       ∃ pt val,
         (pt, val) ∈ stds
         ∧ (∀ pt' val', (pt', val') ∈ stds →
              (Parlays.distance target pt <= Parlays.distance target pt')%Q
              ∧ ((Parlays.distance target pt'
                  == Parlays.distance target pt)%Q →
                 (pt' <= target)%Q → (pt <= target)%Q))
         ∧ Parlays.pick_highest_alt_or_best_standard normalize_name player
             stat_label threshold odds_lookup returned_markets
           = Some {| Parlays.point := pt;
                     Parlays.pick_american := Parlays.american val;
                     Parlays.pick_decimal := Parlays.decimal val;
                     Parlays.pick_book := Parlays.book val;
                     Parlays.used_market := std |})
  ∧ (alts = [] → stds = [] →
       Parlays.pick_highest_alt_or_best_standard normalize_name player
         stat_label threshold odds_lookup returned_markets = None).
Proof.
  intros Hstat Hinv.
  unfold Parlays.pick_highest_alt_or_best_standard. rewrite Hstat.
  unfold Parlays.pick_alt, Parlays.pick_std.
  split_and!.
  - intros Halts.
    rewrite decide_True by by apply lines_market_returned.
    destruct (Parlays.list_sort Parlays.alt_le alts)
      as [|[pt val] rest] eqn:Hsort.
    { by apply list_sort_nil in Hsort. }
    apply (list_sort_head _ alt_le_total alt_le_trans) in Hsort
      as [Hin Hmax].
    exists pt, val, (Parlays.int_of pt).
    split_and!; [done| | | | |done].
    + intros pt' val' Hin'. specialize (Hmax _ Hin').
      by apply Qle_bool_iff in Hmax.
    + apply int_of_trunc.
    + apply int_of_trunc.
    + intros [m Hm]. by rewrite (int_of_whole pt m Hm).
  - intros Halts Hstds. rewrite Halts. simpl.
    destruct (decide (alt ∈ returned_markets)); simpl.
    all: rewrite decide_True by by apply lines_market_returned.
    all: destruct (Parlays.list_sort (Parlays.std_le target) stds)
           as [|[pt val] rest] eqn:Hsort;
         [by apply list_sort_nil in Hsort|].
    all: apply (list_sort_head _ (std_le_total target)
                  (std_le_trans target)) in Hsort as [Hin Hmin].
    all: exists pt, val; split_and!; [done| |done].
    all: intros pt' val' Hin'; specialize (Hmin _ Hin').
    all: by apply std_le_spec in Hmin.
  - intros Halts Hstds. rewrite Halts, Hstds. simpl.
    destruct (decide (alt ∈ returned_markets)); simpl.
    all: by destruct (decide (std ∈ returned_markets)).
Qed.

End OddsFacts.

(** ** The lookup built by the odds fetch *)

(** An invariant of the loop state that every run of the body keeps is
    kept by the loop. *)
Lemma for_each_inv {A S} (P : S → Prop) (body : A → S → Res S)
    (l : list A) (s s' : S) :
  (∀ x t t', P t → body x t = Ok t' → P t') →
  P s → for_each body l s = Ok s' → P s'.
Proof.
  intros Hbody. revert s. induction l as [|x l IH]; intros s Hs; simpl.
  - by intros [= <-].
  - destruct (body x s) as [t|e] eqn:Hx; simpl; [|done].
    apply IH. by eapply Hbody.
Qed.

(** [d[k] = v] adds no market other than that of [k]. *)
Lemma dict_set_market (k : Parlays.OddsKey) (v : Parlays.Price)
    (d : list (Parlays.OddsKey * Parlays.Price))
    (kv : Parlays.OddsKey * Parlays.Price) :
  kv ∈ Parlays.dict_set k v d →
  Parlays.ok_market kv.1 = Parlays.ok_market k
  ∨ ∃ kv', kv' ∈ d ∧ Parlays.ok_market kv'.1 = Parlays.ok_market kv.1.
Proof.
  induction d as [|[k' v'] d IH]; simpl.
  - intros ->%list_elem_of_singleton. by left.
  - destruct (Parlays.key_eqb k' k).
    + intros [->|Hin]%elem_of_cons; right.
      * exists (k', v'). split; [by left|done].
      * exists kv. split; [by right|done].
    + intros [->|Hin]%elem_of_cons.
      * right. exists (k', v'). split; [by left|done].
      * destruct (IH Hin) as [?|(kv' & ? & ?)]; [by left|].
        right. exists kv'. split; [by right|done].
Qed.

Section FetchFacts.

Variable normalize_name : string → string.
Variable lower : string → string.
Variable odds_request : string → Res (list Parlays.JEvent).

Lemma outcome_body_storing (m : string) (returned : gset string)
    (oc : Parlays.JOutcome) st st' :
  Parlays.storing m returned st →
  Parlays.outcome_body normalize_name lower m oc st = Ok st' →
  Parlays.storing m returned st'.
Proof.
  intros Hst. unfold Parlays.outcome_body.
  destruct (decide _); [by intros [= <-]|].
  destruct (Parlays.oc_name oc) as [name|]; [|by intros [= <-]].
  destruct (Parlays.oc_point oc) as [pt|]; [|by intros [= <-]].
  destruct (Parlays.oc_price oc) as [price|]; [|by intros [= <-]].
  destruct (decide (name = _)); [by intros [= <-]|].
  destruct (Parlays.american_to_decimal price) as [dec|e]; simpl; [|done].
  intros [= <-] kv Hkv. simpl in *.
  apply dict_set_market in Hkv as [Hm|(kv' & Hkv' & Hm)].
  - right. by rewrite Hm.
  - destruct (Hst kv' Hkv') as [?|[_ ?]].
    + left. by rewrite <- Hm.
    + right. by rewrite <- Hm.
Qed.

Lemma event_body_storing (m : string) (returned : gset string)
    (ev : Parlays.JEvent) st st' :
  Parlays.storing m returned st →
  Parlays.event_body normalize_name lower m ev st = Ok st' →
  Parlays.storing m returned st'.
Proof.
  unfold Parlays.event_body. intros Hst.
  apply for_each_inv; [|done]. clear. intros bm st st' Hst.
  unfold Parlays.bookmaker_body.
  destruct (decide _); [by intros [= <-]|].
  apply for_each_inv; [|done]. clear. intros mk st st' Hst.
  unfold Parlays.market_body.
  destruct (decide _); [by intros [= <-]|].
  apply for_each_inv; [|done]. clear. intros oc st st'.
  apply outcome_body_storing.
Qed.

Lemma fetch_body_returned (m : string) st st' :
  Parlays.markets_returned st.1 st.2 →
  Parlays.fetch_body normalize_name lower odds_request m st = Ok st' →
  Parlays.markets_returned st'.1 st'.2.
Proof.
  intros Hst. unfold Parlays.fetch_body.
  destruct (odds_request m) as [data|e]; [|by intros [= <-]].
  destruct (for_each _ data (st.1, false)) as [[lookup got_any]|e]
    eqn:Hloop; simpl; [|done].
  intros [= <-]. simpl.
  assert (Hinv : Parlays.storing m st.2 (lookup, got_any)).
  { eapply for_each_inv; [|shelve|exact Hloop].
    intros ev t t'. apply event_body_storing.
    Unshelve. intros kv Hkv. left. by apply Hst. }
  intros kv Hkv. destruct (Hinv kv Hkv) as [?|[Hany Hm]]; simpl in *.
  - destruct got_any; set_solver.
  - rewrite Hany, Hm. set_solver.
Qed.

(** Whatever the odds service answers, the lookup and the set of
    returned markets that the fetch hands to the selection agree. *)
Lemma fetch_markets_returned
    (odds_lookup : list (Parlays.OddsKey * Parlays.Price))
    (returned_markets : gset string) :
  Parlays.fetch_fanduel_player_props_today normalize_name lower odds_request
    = Ok (odds_lookup, returned_markets) →
  Parlays.markets_returned odds_lookup returned_markets.
Proof.
  unfold Parlays.fetch_fanduel_player_props_today. intros Hrun.
  apply (for_each_inv
           (λ st, Parlays.markets_returned st.1 st.2)) in Hrun; [done| |].
  - intros m t t'. apply fetch_body_returned.
  - by intros kv ?%elem_of_nil.
Qed.

End FetchFacts.

Lemma sample_markets_returned :
  Parlays.markets_returned (Samples.standard_lines ++ Samples.ladder_lines)
    Samples.points_markets
  ∧ Parlays.markets_returned Samples.standard_lines Samples.points_markets.
Proof.
  unfold Parlays.markets_returned, Samples.standard_lines,
    Samples.ladder_lines, Samples.points_markets.
  split; intros kv Hkv; simpl in Hkv;
    repeat (apply elem_of_cons in Hkv as [-> | Hkv]);
    solve [set_solver | by apply elem_of_nil in Hkv].
Qed.

(** C9 on the sample lines.  With the alternate ladder 15, 25, 20 in the
    lookup the pick is the alternate line at 25; with the standard lines
    20.5, 18.5 and 24.5 alone and a threshold of 20, the pick is among
    the two lines one point from 19.5 and on the low side. *)
Lemma pick_highest_alt_else_nearest_standard_witness :
  (∃ pt val,
     (pt, val) ∈ Parlays.lines_of
                   (Samples.standard_lines ++ Samples.ladder_lines)
                   "player seven" "player_points_alt"
     ∧ (pt == 25)%Q
     ∧ Parlays.pick_highest_alt_or_best_standard (λ s, s) "player seven"
         "points" 20 (Samples.standard_lines ++ Samples.ladder_lines)
         Samples.points_markets
       = Some {| Parlays.point := 25;
                 Parlays.pick_american := Parlays.american val;
                 Parlays.pick_decimal := Parlays.decimal val;
                 Parlays.pick_book := Parlays.book val;
                 Parlays.used_market := "player_points_alt" |})
  ∧ (∃ pt val,
       (pt, val) ∈ Parlays.lines_of Samples.standard_lines
                     "player seven" "player_points"
       ∧ (pt <= Parlays.threshold_to_over_point 20)%Q
       ∧ Parlays.pick_highest_alt_or_best_standard (λ s, s) "player seven"
           "points" 20 Samples.standard_lines Samples.points_markets
         = Some {| Parlays.point := pt;
                   Parlays.pick_american := Parlays.american val;
                   Parlays.pick_decimal := Parlays.decimal val;
                   Parlays.pick_book := Parlays.book val;
                   Parlays.used_market := "player_points" |}).
Proof.
  destruct sample_markets_returned as [Hboth Hstd]. split.
  - destruct (pick_highest_alt_else_nearest_standard (λ s, s)
                "player seven" "points" 20
                (Samples.standard_lines ++ Samples.ladder_lines)
                Samples.points_markets "player_points" "player_points_alt")
      as (Halt & _); [reflexivity|done|].
    destruct Halt as (pt & val & n & Hin & Hmax & Hpos & _ & _ & Hpick);
      [done|].
    assert (Hpt : (pt == 25)%Q).
    { apply Qle_antisym.
      - vm_compute in Hin.
        repeat (apply elem_of_cons in Hin as [[= -> _] | Hin]);
          [by vm_compute..|by apply elem_of_nil in Hin].
      - apply (Hmax _ (Samples.price 180)). vm_compute. right. left. }
    exists pt, val. split_and!; [done|done|].
    rewrite Hpick. do 2 f_equal.
    destruct Hpos as [Hlo Hhi]; [by rewrite Hpt|].
    rewrite Hpt in Hlo, Hhi.
    change 25%Q with (inject_Z 25) in Hlo, Hhi.
    change 1%Q with (inject_Z 1) in Hhi.
    rewrite <- inject_Z_plus in Hhi.
    rewrite <- Zle_Qle in Hlo. rewrite <- Zlt_Qlt in Hhi.
    assert (n = 25) as -> by lia. done.
  - destruct (pick_highest_alt_else_nearest_standard (λ s, s)
                "player seven" "points" 20 Samples.standard_lines
                Samples.points_markets "player_points" "player_points_alt")
      as (_ & Hnear & _); [reflexivity|done|].
    destruct Hnear as (pt & val & Hin & Hmin & Hpick); [done..|].
    exists pt, val. split_and!; [done| |done].
    destruct (Hmin (185 # 10)%Q (Samples.price (-125))) as [Hle Hlow].
    { vm_compute. right. left. }
    apply Hlow; [|by vm_compute].
    apply Qle_antisym; [|done].
    vm_compute in Hin.
    repeat (apply elem_of_cons in Hin as [[= -> _] | Hin]);
      [by vm_compute..|by apply elem_of_nil in Hin].
Defined.

(** C9 as stated fails.  The player's highest alternate line is at 24.5;
    the pick carries its price but reports the point 24, and the lookup
    holds no line at 24: what comes back is not a line of the market. *)
Lemma pick_alt_point_is_no_line :
  (245 # 10, Samples.price 180)
    ∈ Parlays.lines_of (Samples.standard_lines ++ Fixtures.half_point_ladder)
        "player seven" "player_points_alt"
  ∧ (∀ pt val,
       (pt, val) ∈ Parlays.lines_of
                     (Samples.standard_lines ++ Fixtures.half_point_ladder)
                     "player seven" "player_points_alt" →
       (pt <= 245 # 10)%Q)
  ∧ Parlays.pick_highest_alt_or_best_standard (λ s, s) "player seven"
      "points" 20 (Samples.standard_lines ++ Fixtures.half_point_ladder)
      Samples.points_markets
    = Some {| Parlays.point := 24; Parlays.pick_american := 180;
              Parlays.pick_decimal := 2; Parlays.pick_book := "FanDuel";
              Parlays.used_market := "player_points_alt" |}
  ∧ ∀ kv, kv ∈ Samples.standard_lines ++ Fixtures.half_point_ladder →
      ¬ (Parlays.ok_point kv.1 == 24)%Q.
Proof.
  split_and!.
  - vm_compute. right. left.
  - intros pt val Hin. vm_compute in Hin.
    repeat (apply elem_of_cons in Hin as [[= -> _] | Hin]);
      [by vm_compute..|by apply elem_of_nil in Hin].
  - by vm_compute.
  - intros kv Hin. vm_compute in Hin.
    repeat (apply elem_of_cons in Hin as [-> | Hin]);
      [by vm_compute..|by apply elem_of_nil in Hin].
Qed.

Example pick_sample_alt :
  Parlays.pick_highest_alt_or_best_standard (λ s, s) "player seven"
    "points" 20 (Samples.standard_lines ++ Samples.ladder_lines)
    Samples.points_markets
  = Some {| Parlays.point := 25; Parlays.pick_american := 180;
            Parlays.pick_decimal := 2; Parlays.pick_book := "FanDuel";
            Parlays.used_market := "player_points_alt" |}.
Proof. reflexivity. Qed.

Example pick_sample_standard :
  Parlays.pick_highest_alt_or_best_standard (λ s, s) "player seven"
    "points" 20 Samples.standard_lines Samples.points_markets
  = Some {| Parlays.point := 185 # 10; Parlays.pick_american := -125;
            Parlays.pick_decimal := 2; Parlays.pick_book := "FanDuel";
            Parlays.used_market := "player_points" |}.
Proof. reflexivity. Qed.

(** ** Automatic thresholds *)

#[global] Instance descending_total : Total descending.
Proof. unfold descending. intros x y. lia. Qed.

Lemma filter_length_all {A} (P : A → Prop) `{∀ x, Decision (P x)}
    (l : list A) :
  Forall P l → length (filter P l) = length l.
Proof.
  induction 1 as [|x l Hx _ IH]; [done|].
  rewrite filter_cons, decide_True by done. simpl. by rewrite IH.
Qed.

Lemma filter_length_none {A} (P : A → Prop) `{∀ x, Decision (P x)}
    (l : list A) :
  Forall (λ x, ¬ P x) l → length (filter P l) = 0%nat.
Proof.
  induction 1 as [|x l Hx _ IH]; [done|].
  by rewrite filter_cons, decide_False.
Qed.

(** In a list sorted from the highest value down, the value at index [i]
    is reached by at least [i + 1] entries, and any higher level by at
    most [i]. *)
Lemma sorted_count_at (l : list Z) (i : nat) (v : Z) :
  StronglySorted descending l → l !! i = Some v →
  (i < length (filter (λ x, (v ≤ x)%Z) l))%nat.
Proof.
  intros Hsorted Hv.
  pose proof (lookup_lt_Some _ _ _ Hv) as Hi.
  rewrite <- (take_drop_middle l i v Hv) in Hsorted |- *.
  apply StronglySorted_app in Hsorted as (Hcross & _ & _).
  rewrite filter_app, length_app, filter_length_all.
  - rewrite length_take_le by lia.
    rewrite filter_cons, decide_True by lia. simpl. lia.
  - apply Forall_forall. intros x Hx. apply (Hcross x v Hx). left.
Qed.

Lemma sorted_count_above (l : list Z) (i : nat) (v t : Z) :
  StronglySorted descending l → l !! i = Some v → v < t →
  (length (filter (λ x, (t ≤ x)%Z) l) ≤ i)%nat.
Proof.
  intros Hsorted Hv Hlt.
  pose proof (lookup_lt_Some _ _ _ Hv) as Hi.
  rewrite <- (take_drop_middle l i v Hv) in Hsorted |- *.
  apply StronglySorted_app in Hsorted as (_ & _ & Htail).
  apply StronglySorted_cons in Htail as [Hbelow _].
  rewrite filter_app, length_app.
  rewrite (filter_length_none _ (v :: drop (S i) l)).
  - pose proof (length_filter (λ x, t ≤ x) (take i l)) as Hle.
    rewrite length_take_le in Hle by lia. lia.
  - constructor; [lia|].
    eapply Forall_impl; [exact Hbelow|]. unfold descending. intros x ?. lia.
Qed.

Lemma hits_ge_values (df : DataFrame) (c : category) (lvl : Z) :
  hits_ge df c lvl
  = Z.of_nat (length (filter (λ v, lvl ≤ v) (stat c <$> df))).
Proof.
  unfold hits_ge. f_equal. induction df as [|r df IH]; [done|].
  rewrite fmap_cons, !filter_cons.
  destruct (decide (lvl ≤ stat c r)); simpl; by rewrite IH.
Qed.

Lemma sorted_values_perm (df : DataFrame) (c : category) :
  Trends.sorted_values df c ≡ₚ stat c <$> df.
Proof. apply merge_sort_Permutation. Qed.

Lemma sorted_values_sorted (df : DataFrame) (c : category) :
  StronglySorted descending (Trends.sorted_values df c).
Proof. apply StronglySorted_merge_sort; apply _. Qed.

Lemma hits_ge_sorted (df : DataFrame) (c : category) (lvl : Z) :
  hits_ge df c lvl
  = Z.of_nat (length (filter (λ v, lvl ≤ v) (Trends.sorted_values df c))).
Proof.
  rewrite hits_ge_values. f_equal. apply Permutation_length.
  by rewrite sorted_values_perm.
Qed.

Lemma sorted_values_length (df : DataFrame) (c : category) :
  length (Trends.sorted_values df c) = length df.
Proof.
  rewrite (Permutation_length (sorted_values_perm df c)).
  apply length_fmap.
Qed.

(** [int] on a rational that is not negative is the floor. *)
Lemma int_of_floor (q : Q) : (0 <= q)%Q → Parlays.int_of q = Qfloor q.
Proof.
  destruct q as [n d]. unfold Qle, Parlays.int_of. simpl. intros Hn.
  apply Z.quot_div_nonneg; lia.
Qed.

Lemma int_of_nonpos (q : Q) : (q <= 0)%Q → Parlays.int_of q ≤ 0.
Proof.
  destruct q as [n d]. unfold Qle, Parlays.int_of. simpl. intros Hn.
  rewrite Z.mul_1_r in Hn.
  rewrite <- (Z.opp_involutive n), Z.quot_opp_l by lia.
  pose proof (Z.quot_pos (- n) (Z.pos d)). lia.
Qed.

Lemma label_inj (s1 s2 : Trends.tstat) :
  Trends.label s1 = Trends.label s2 → s1 = s2.
Proof. by destruct s1, s2. Qed.

(** The index of the candidate threshold lies in the list whenever the
    minimum rate is at most 1. *)
Lemma candidate_index_bounds (min_rate : Q) (n : nat) :
  0 ≤ Trends.candidate_index min_rate n
  ∧ ((min_rate <= 1)%Q → (0 < n)%nat →
     Trends.candidate_index min_rate n < Z.of_nat n).
Proof.
  unfold Trends.candidate_index.
  set (q := (min_rate * inject_Z (Z.of_nat n))%Q).
  split; [destruct (decide _); lia|].
  intros Hrate Hn. destruct (decide _); [lia|].
  assert (Hq : (q <= inject_Z (Z.of_nat n))%Q).
  { unfold q. rewrite <- (Qmult_1_l (inject_Z (Z.of_nat n))) at 2.
    apply Qmult_le_compat_r; [done|].
    change 0%Q with (inject_Z 0). rewrite <- Zle_Qle. lia. }
  destruct (Qlt_le_dec q 0) as [Hneg|Hpos].
  - pose proof (int_of_nonpos q (Qlt_le_weak _ _ Hneg)). lia.
  - rewrite int_of_floor by done.
    pose proof (Qfloor_resp_le _ _ Hq) as Hfl.
    rewrite Qfloor_Z in Hfl. lia.
Qed.

(** What an entry produced for stat [s] says. *)
Lemma stat_trend_some (df : DataFrame) (min_rate : Q) (s : Trends.tstat)
    (t : Trends.Trend) :
  df ≠ [] →
  Trends.stat_trend df min_rate s = inr (Some t) →
  Trends.sorted_values df (Trends.column s)
    !! Z.to_nat (Trends.candidate_index min_rate (length df))
    = Some (Trends.Threshold t)
  ∧ Trends.Stat t = Trends.label s
  ∧ Trends.Total t = Z.of_nat (length df)
  ∧ Trends.Hits t = hits_ge df (Trends.column s) (Trends.Threshold t)
  ∧ Trends.RateValue t = rate_of df (Trends.column s) (Trends.Threshold t)
  ∧ (min_rate <= Trends.RateValue t)%Q
  ∧ 0 < Trends.Threshold t
  ∧ (s ≠ Trends.T_PTS → 2 ≤ Trends.Threshold t).
Proof.
  intros Hdf. unfold Trends.stat_trend.
  destruct (decide _) as [|_]; [done|].
  rewrite sorted_values_length.
  destruct (_ !! _) as [threshold|] eqn:Hthr; [|done].
  rewrite decide_False by by apply length_nonzero.
  destruct (Qle_bool _ _) eqn:Hrate; simpl; [|done].
  destruct (bool_decide (threshold > 0)) eqn:Hpos; simpl; [|done].
  apply bool_decide_eq_true in Hpos. apply Qle_bool_iff in Hrate.
  destruct (bool_decide (s ≠ _) && _) eqn:Htriv; [done|].
  intros [= <-]. simpl. split_and!; try done; [lia|].
  intros Hs. apply andb_false_iff in Htriv as [Htriv|Htriv].
  - by apply bool_decide_eq_false in Htriv.
  - apply bool_decide_eq_false in Htriv. lia.
Qed.

(** The loop appends entries of the stats it is given, in their order. *)
Lemma trends_loop_spec (df : DataFrame) (min_rate : Q)
    (stats : list Trends.tstat) (acc res : list Trends.Trend) :
  Trends.trends_loop df min_rate stats acc = inr res →
  ∃ extra,
    res = acc ++ extra
    ∧ Forall (λ t, ∃ s, Trends.stat_trend df min_rate s = inr (Some t)) extra
    ∧ sublist (Trends.Stat <$> extra) (Trends.label <$> stats).
Proof.
  revert acc. induction stats as [|s stats IH]; intros acc; simpl.
  - intros [= <-]. exists []. by rewrite app_nil_r.
  - destruct (Trends.stat_trend df min_rate s) as [e|[t|]] eqn:Hs; [done| |].
    + intros Hrun. apply IH in Hrun as (extra & -> & Hall & Hsub).
      exists (t :: extra). split_and!.
      * by rewrite <- app_assoc.
      * constructor; [by exists s|done].
      * simpl. assert (Hlabel : Trends.Stat t = Trends.label s).
        { unfold Trends.stat_trend in Hs.
          destruct (decide _); [done|]. destruct (_ !! _); [|done].
          destruct (_ && _); [|done]. destruct (_ && _); [done|].
          by injection Hs as <-. }
        rewrite Hlabel. by constructor.
    + intros Hrun. apply IH in Hrun as (extra & -> & Hall & Hsub).
      exists extra. split_and!; [done..|]. by constructor.
Qed.

Lemma calculate_spec (df : DataFrame) (min_rate : Q)
    (trends : list Trends.Trend) :
  Trends.calculate_auto_thresholds df min_rate = inr trends →
  (df = [] → trends = [])
  ∧ Forall (λ t, df ≠ []
               ∧ ∃ s, Trends.stat_trend df min_rate s = inr (Some t)) trends
  ∧ sublist (Trends.Stat <$> trends) (Trends.label <$> Trends.STATS).
Proof.
  unfold Trends.calculate_auto_thresholds.
  destruct (decide (df = [])) as [->|Hdf].
  - intros [= <-]. split_and!; [done|constructor|apply sublist_nil_l].
  - intros (extra & -> & Hall & Hsub)%trends_loop_spec. simpl.
    split_and!; [done| |done].
    eapply Forall_impl; [exact Hall|]. intros t' [s' Hs'].
    split; [done|by exists s'].
Qed.

(** X1 (soundness).  Every entry of [calculate_auto_thresholds] is for one
    of the four stats, counts the games of the frame at or above its
    threshold, has that count over the number of games as its rate, meets
    the minimum rate, and has a positive threshold that is a value some
    game of the frame has for the stat -- at least 2 for rebounds,
    assists and threes. *)
Theorem auto_thresholds_sound (df : DataFrame) (min_rate : Q)
    (trends : list Trends.Trend) (t : Trends.Trend) :
  Trends.calculate_auto_thresholds df min_rate = inr trends →
  t ∈ trends →
  ∃ s,
    Trends.Stat t = Trends.label s
    ∧ Trends.Total t = Z.of_nat (length df)
    ∧ Trends.Hits t
      = Z.of_nat (length (filter (λ r, Trends.Threshold t
                                       ≤ stat (Trends.column s) r) df))
    ∧ Trends.RateValue t
      = (inject_Z (Trends.Hits t) / inject_Z (Trends.Total t))%Q
    ∧ (min_rate <= Trends.RateValue t)%Q
    ∧ 0 < Trends.Threshold t
    ∧ (s ≠ Trends.T_PTS → 2 ≤ Trends.Threshold t)
    ∧ ∃ r, r ∈ df ∧ stat (Trends.column s) r = Trends.Threshold t.
Proof.
  intros (_ & Hall & _)%calculate_spec Ht.
  rewrite Forall_forall in Hall.
  destruct (Hall t Ht) as (Hdf & s & Hs).
  apply stat_trend_some in Hs
    as (Hidx & Hstat & Htotal & Hhits & Hrate & Hmin & Hpos & Htriv);
    [|done].
  exists s. split_and!; try done.
  - by rewrite Hrate, Hhits, Htotal.
  - apply list_elem_of_lookup_2 in Hidx.
    rewrite sorted_values_perm in Hidx.
    apply list_elem_of_fmap in Hidx as (r & -> & Hr). by exists r.
Qed.

(** X2 (order).  The entries come in the order points, rebounds, assists,
    threes, with at most one entry per stat; an empty frame gives no
    entry. *)
Theorem auto_thresholds_order (df : DataFrame) (min_rate : Q)
    (trends : list Trends.Trend) :
  Trends.calculate_auto_thresholds df min_rate = inr trends →
  sublist (Trends.Stat <$> trends)
    ["points"; "rebounds"; "assists"; "threes"]%string
  ∧ (df = [] → trends = []).
Proof. intros (Hempty & _ & Hsub)%calculate_spec. done. Qed.

(** X3 (highest level).  With a positive minimum rate, no level above the
    threshold of an entry reaches the minimum rate for that stat: the
    threshold is the highest level the player cleared often enough. *)
Theorem auto_threshold_is_highest (df : DataFrame) (min_rate : Q)
    (trends : list Trends.Trend) (t : Trends.Trend) (s : Trends.tstat)
    (lvl : Z) :
  (0 < min_rate)%Q →
  Trends.calculate_auto_thresholds df min_rate = inr trends →
  t ∈ trends →
  Trends.Stat t = Trends.label s →
  Trends.Threshold t < lvl →
  (rate_of df (Trends.column s) lvl < min_rate)%Q.
Proof.
  intros Hrate (_ & Hall & _)%calculate_spec Ht Hstat Hlvl.
  rewrite Forall_forall in Hall.
  destruct (Hall t Ht) as (Hdf & s' & Hs).
  apply stat_trend_some in Hs as (Hidx & Hstat' & _); [|done].
  assert (s' = s) as -> by (apply label_inj; congruence).
  pose proof (sorted_count_above _ _ _ lvl
                (sorted_values_sorted df (Trends.column s)) Hidx Hlvl)
    as Hcount.
  assert (Hn : 0 < Z.of_nat (length df)).
  { pose proof (length_nonzero df Hdf). lia. }
  unfold rate_of. apply Qlt_shift_div_r.
  { change 0%Q with (inject_Z 0). by rewrite <- Zlt_Qlt. }
  rewrite hits_ge_sorted.
  set (hits := length (filter (λ v, lvl ≤ v)
                         (Trends.sorted_values df (Trends.column s)))) in *.
  set (q := (min_rate * inject_Z (Z.of_nat (length df)))%Q).
  assert (Hq : (0 < q)%Q).
  { unfold q. apply Qmult_lt_0_compat; [done|].
    change 0%Q with (inject_Z 0). by rewrite <- Zlt_Qlt. }
  unfold Trends.candidate_index in Hcount. fold q in Hcount.
  destruct (decide _) as [Hclamp|Hin].
  - assert (hits = 0%nat) as -> by (simpl in Hcount; lia). done.
  - rewrite int_of_floor in Hcount, Hin by by apply Qlt_le_weak.
    apply Qlt_le_trans with (inject_Z (Qfloor q)); [|apply Qfloor_le].
    rewrite <- Zlt_Qlt. lia.
Qed.

(** X4 (errors).  With a minimum rate of at most 1 the function raises
    nothing; with a minimum rate of 2 or more it raises [IndexError] on
    every frame that is not empty. *)
Theorem auto_thresholds_errors (df : DataFrame) (min_rate : Q) :
  ((min_rate <= 1)%Q →
     ∃ trends, Trends.calculate_auto_thresholds df min_rate = inr trends)
  ∧ ((2 <= min_rate)%Q → df ≠ [] →
       Trends.calculate_auto_thresholds df min_rate = inl Trends.IndexError).
Proof.
  split.
  - intros Hrate. unfold Trends.calculate_auto_thresholds.
    destruct (decide (df = [])) as [|Hdf]; [by eexists|].
    assert (Hstat : ∀ s, ∃ o, Trends.stat_trend df min_rate s = inr o).
    { intros s. unfold Trends.stat_trend.
      destruct (decide _); [by eexists|].
      rewrite sorted_values_length.
      destruct (candidate_index_bounds min_rate (length df)) as [H0 Hlt].
      destruct (lookup_lt_is_Some_2 (Trends.sorted_values df (Trends.column s))
                  (Z.to_nat (Trends.candidate_index min_rate (length df))))
        as [v ->].
      { rewrite sorted_values_length.
        destruct df; [done|]. specialize (Hlt Hrate). simpl in *. lia. }
      destruct (_ && _); [|by eexists]. destruct (_ && _); by eexists. }
    generalize (@nil Trends.Trend). generalize Trends.STATS.
    intros stats. induction stats as [|s stats IH]; intros acc; simpl.
    + by eexists.
    + destruct (Hstat s) as [[t|] ->]; apply IH.
  - intros Hrate Hdf. unfold Trends.calculate_auto_thresholds.
    rewrite decide_False by done. simpl.
    unfold Trends.stat_trend at 1.
    rewrite decide_False
      by (intros Hnil; apply (f_equal length) in Hnil;
          rewrite sorted_values_length in Hnil; by destruct df).
    rewrite sorted_values_length.
    rewrite lookup_ge_None_2; [done|].
    rewrite sorted_values_length.
    unfold Trends.candidate_index.
    set (n := Z.of_nat (length df)).
    assert (Hn : 0 < n) by (pose proof (length_nonzero df Hdf); lia).
    assert (Hq : (inject_Z (2 * n) <= min_rate * inject_Z n)%Q).
    { rewrite inject_Z_mult. apply Qmult_le_compat_r; [done|].
      change 0%Q with (inject_Z 0). rewrite <- Zle_Qle. lia. }
    rewrite int_of_floor.
    + apply Qfloor_resp_le in Hq. rewrite Qfloor_Z in Hq.
      destruct (decide _); lia.
    + eapply Qle_trans; [|exact Hq].
      change 0%Q with (inject_Z 0). rewrite <- Zle_Qle. lia.
Qed.

Example auto_thresholds_all_round :
  Trends.calculate_auto_thresholds Fixtures.all_round (9 # 10)
  = inr Fixtures.all_round_trends.
Proof. reflexivity. Qed.

Lemma auto_thresholds_sound_witness :
  ∃ s,
    "rebounds"%string = Trends.label s
    ∧ 10 = Z.of_nat (length Fixtures.all_round)
    ∧ 9 = Z.of_nat (length (filter (λ r, 6 ≤ stat (Trends.column s) r)
                              Fixtures.all_round))
    ∧ (9 # 10)%Q = (inject_Z 9 / inject_Z 10)%Q
    ∧ ((9 # 10) <= (9 # 10))%Q
    ∧ 0 < 6
    ∧ (s ≠ Trends.T_PTS → 2 ≤ 6)
    ∧ ∃ r, r ∈ Fixtures.all_round ∧ stat (Trends.column s) r = 6.
Proof.
  apply (auto_thresholds_sound Fixtures.all_round (9 # 10)
           Fixtures.all_round_trends
           {| Trends.Stat := "rebounds"; Trends.Threshold := 6;
              Trends.RateValue := 9 # 10; Trends.Hits := 9;
              Trends.Total := 10 |} auto_thresholds_all_round).
  right. left.
Defined.

Lemma auto_thresholds_order_witness :
  sublist ["points"; "rebounds"; "threes"]%string
    ["points"; "rebounds"; "assists"; "threes"]%string.
Proof.
  exact (proj1 (auto_thresholds_order Fixtures.all_round (9 # 10)
                  Fixtures.all_round_trends auto_thresholds_all_round)).
Defined.

Lemma auto_threshold_is_highest_witness :
  (rate_of Fixtures.all_round PTS 20 < 9 # 10)%Q.
Proof.
  apply (auto_threshold_is_highest Fixtures.all_round (9 # 10)
           Fixtures.all_round_trends
           {| Trends.Stat := "points"; Trends.Threshold := 19;
              Trends.RateValue := 9 # 10; Trends.Hits := 9;
              Trends.Total := 10 |} Trends.T_PTS 20).
  - done.
  - exact auto_thresholds_all_round.
  - left.
  - done.
  - done.
Defined.

Lemma auto_thresholds_errors_witness :
  (∃ trends,
     Trends.calculate_auto_thresholds Fixtures.all_round (9 # 10)
     = inr trends)
  ∧ Trends.calculate_auto_thresholds Fixtures.all_round 2
    = inl Trends.IndexError.
Proof.
  destruct (auto_thresholds_errors Fixtures.all_round (9 # 10)) as [Hok _].
  destruct (auto_thresholds_errors Fixtures.all_round 2) as [_ Herr].
  split; [by apply Hok|by apply Herr].
Defined.


(** ** The parlay builder *)

(** The combinations of [k] elements are the sublists of length [k]. *)
Lemma combinations_elem {A} (l : list A) (k : nat) (c : list A) :
  c ∈ Trends.combinations l k ↔ sublist c l ∧ length c = k.
Proof.
  revert k c. induction l as [|x l IH]; intros [|k] c; simpl.
  - rewrite list_elem_of_singleton. split.
    + intros ->. split; [constructor|done].
    + intros [_ Hlen]. by destruct c.
  - split; [by intros ?%elem_of_nil|].
    intros [->%sublist_nil_r Hlen]. done.
  - rewrite list_elem_of_singleton. split.
    + intros ->. split; [apply sublist_nil_l|done].
    + intros [_ Hlen]. by destruct c.
  - rewrite elem_of_app, list_elem_of_fmap, !IH. split.
    + intros [(c' & -> & [Hsub Hlen]%IH)|[Hsub Hlen]].
      * split; [by constructor|simpl; lia].
      * split; [by constructor|done].
    + intros [Hsub Hlen]. apply sublist_cons_r in Hsub
        as [Hsub|(c' & -> & Hsub)].
      * by right.
      * left. exists c'. split; [done|]. apply IH.
        split; [done|]. simpl in Hlen. lia.
Qed.

Lemma combinations_nonempty {A} (l : list A) (k : nat) :
  (k ≤ length l)%nat → Trends.combinations l k ≠ [].
Proof.
  intros Hk Hnil.
  assert (Hin : take k l ∈ Trends.combinations l k).
  { apply combinations_elem. split; [apply sublist_take|].
    by rewrite length_take_le. }
  rewrite Hnil in Hin. by apply elem_of_nil in Hin.
Qed.

(** [min] returns an element of least key, and fails on [[]] only. *)
Lemma min_by_spec {A} (key : A → Q) (l : list A) :
  match Trends.min_by key l with
  | None => l = []
  | Some m => m ∈ l ∧ ∀ y, y ∈ l → (key m <= key y)%Q
  end.
Proof.
  destruct l as [|x l]; simpl; [done|].
  assert (Hgen : ∀ (pre : list A) (m : A),
            m ∈ pre → (∀ y, y ∈ pre → (key m <= key y)%Q) →
            let m' := foldl (λ m y, if negb (Qle_bool (key m) (key y))
                                    then y else m) m l in
            m' ∈ pre ++ l ∧ ∀ y, y ∈ pre ++ l → (key m' <= key y)%Q).
  { induction l as [|z l IH]; intros pre m Hm Hmin; simpl.
    - by rewrite app_nil_r.
    - replace (pre ++ z :: l) with ((pre ++ [z]) ++ l)
        by by rewrite <- app_assoc.
      destruct (Qle_bool (key m) (key z)) eqn:Hle; simpl; apply IH.
      + apply elem_of_app. by left.
      + apply Qle_bool_iff in Hle.
        intros y [Hy | ->%list_elem_of_singleton]%elem_of_app; auto.
      + apply elem_of_app. right. by left.
      + apply Qle_bool_false, Qlt_le_weak in Hle.
        intros y [Hy | ->%list_elem_of_singleton]%elem_of_app.
        * eapply Qle_trans; [exact Hle|]. by apply Hmin.
        * apply Qle_refl. }
  apply (Hgen [x] x).
  - left.
  - intros y ->%list_elem_of_singleton. apply Qle_refl.
Qed.

Section ParlayFacts.

Variables (target_dec tol : Q).

Lemma band_step_keeps (pre : list (list Trends.Leg))
    (best : option Trends.Parlay) (c : list Trends.Leg) :
  Trends.band_best target_dec tol pre best →
  Trends.band_best target_dec tol (pre ++ [c]) (Trends.band_step target_dec tol best c).
Proof.
  unfold Trends.band_step. fold (Trends.dist target_dec c).
  intros Hbest.
  destruct (Qle_bool (Trends.dist target_dec c) tol) eqn:Hband.
  - apply Qle_bool_iff in Hband.
    destruct best as [b|]; unfold Trends.band_best in *; simpl in *.
    + destruct Hbest as (Hin & Hb & Hdec & Hev & Hmax).
      destruct (Qle_bool _ (Trends.ev b)) eqn:Hcmp; simpl.
      * apply Qle_bool_iff in Hcmp. split_and!; try done.
        { apply elem_of_app. by left. }
        intros c' [Hc' | ->%list_elem_of_singleton]%elem_of_app; auto.
      * apply Qle_bool_false, Qlt_le_weak in Hcmp.
        split_and!; try done.
        { apply elem_of_app. right. left. }
        intros c' [Hc' | ->%list_elem_of_singleton]%elem_of_app Hc.
        -- eapply Qle_trans; [by apply Hmax|done].
        -- apply Qle_refl.
    + split_and!; try done.
      { apply elem_of_app. right. left. }
      intros c' [Hc' | ->%list_elem_of_singleton]%elem_of_app Hc.
      * by destruct (Hbest c').
      * apply Qle_refl.
  - apply Qle_bool_false, Qlt_not_le in Hband.
    destruct best as [b|]; unfold Trends.band_best in *; simpl in *.
    + destruct Hbest as (Hin & Hb & Hdec & Hev & Hmax).
      split_and!; try done.
      { apply elem_of_app. by left. }
      intros c' [Hc' | ->%list_elem_of_singleton]%elem_of_app; [auto|done].
    + intros c' [Hc' | ->%list_elem_of_singleton]%elem_of_app; [auto|done].
Qed.

Lemma band_loop_keeps (cs pre : list (list Trends.Leg))
    (best : option Trends.Parlay) :
  Trends.band_best target_dec tol pre best →
  Trends.band_best target_dec tol (pre ++ cs) (foldl (Trends.band_step target_dec tol) best cs).
Proof.
  revert pre best. induction cs as [|c cs IH]; intros pre best Hbest; simpl.
  - by rewrite app_nil_r.
  - replace (pre ++ c :: cs) with ((pre ++ [c]) ++ cs)
      by by rewrite <- app_assoc.
    by apply IH, band_step_keeps.
Qed.

Lemma band_loop_spec (cs : list (list Trends.Leg)) :
  Trends.band_best target_dec tol cs (foldl (Trends.band_step target_dec tol) None cs).
Proof.
  apply (band_loop_keeps cs [] None).
  intros c Hc. by apply elem_of_nil in Hc.
Qed.

End ParlayFacts.

Section BuilderFacts.

Variable pool : list Trends.Leg.
Variables (target_dec tol : Q) (size : nat).

#[local] Abbreviation domain := (take Trends.MAX_LEGS_POOL pool).
#[local] Abbreviation build :=
  (Trends.build_parlay_suggestions pool target_dec tol size).

(** The cases of the builder. *)
Lemma build_cases :
  ((length domain < size)%nat ∧ build = inr None)
  ∨ ((size ≤ length domain)%nat
     ∧ ∃ best, Trends.band_best target_dec tol
                 (Trends.combinations domain size) best
       ∧ match best with
         | Some b => build = inr (Some b)
         | None =>
             (domain = [] ∧ build = inr None)
             ∨ (domain ≠ []
                ∧ ∃ closest,
                    closest ∈ Trends.combinations domain size
                    ∧ (∀ c, c ∈ Trends.combinations domain size →
                         (Trends.dist target_dec closest
                          <= Trends.dist target_dec c)%Q)
                    ∧ build
                      = inr (Some
                          {| Trends.legs := closest;
                             Trends.decimal := Trends.product_dec closest;
                             Trends.ev := (Trends.product_prob closest
                                           * Trends.product_dec closest)%Q |}))
         end).
Proof.
  unfold Trends.build_parlay_suggestions.
  destruct (decide (length domain < size)%nat) as [Hshort|Hlong];
    [by left|right].
  split; [lia|].
  pose proof (band_loop_spec target_dec tol
                (Trends.combinations domain size)) as Hbest.
  destruct (foldl _ None _) as [b|]; [by exists (Some b)|].
  exists None. split; [done|].
  destruct (decide (domain = [])) as [|Hdom]; [by left|right].
  split; [done|].
  pose proof (min_by_spec (Trends.dist target_dec)
                (Trends.combinations domain size)) as Hmin.
  destruct (Trends.min_by _ _) as [closest|].
  - destruct Hmin as [Hin Hleast]. by exists closest.
  - destruct (combinations_nonempty domain size); [lia|done].
Qed.

(** X5.  Without [size] legs among the first fifteen of the pool there is
    no suggestion; with them (and a pool that is not empty) there always
    is one, and nothing is raised. *)
Theorem parlay_found_iff_enough_legs :
  ((length (take Trends.MAX_LEGS_POOL pool) < size)%nat →
     Trends.build_parlay_suggestions pool target_dec tol size = inr None)
  ∧ ((size ≤ length (take Trends.MAX_LEGS_POOL pool))%nat →
     take Trends.MAX_LEGS_POOL pool ≠ [] →
       ∃ p, Trends.build_parlay_suggestions pool target_dec tol size
            = inr (Some p)).
Proof.
  destruct build_cases as [[Hshort Hnone]|(Hlong & best & _ & Hrun)].
  - split; [done|lia].
  - split; [lia|]. intros _ Hdom.
    destruct best as [b|]; [by exists b|].
    destruct Hrun as [[? _]|(_ & closest & _ & _ & ->)]; [done|by eexists].
Qed.

(** X6.  A suggestion is never made of anything but the pool: its legs
    are exactly [size] legs taken, in their order, from the first fifteen
    legs of the pool; its decimal price is the product of their prices
    and its [ev] that price times the product of their rates. *)
Theorem parlay_is_combination (p : Trends.Parlay) :
  Trends.build_parlay_suggestions pool target_dec tol size = inr (Some p) →
  sublist (Trends.legs p) (take Trends.MAX_LEGS_POOL pool)
  ∧ length (Trends.legs p) = size
  ∧ Trends.decimal p = Trends.product_dec (Trends.legs p)
  ∧ (Trends.ev p
     == Trends.product_dec (Trends.legs p)
        * Trends.product_prob (Trends.legs p))%Q.
Proof.
  intros Hp.
  destruct build_cases as [[_ Hnone]|(_ & best & Hbest & Hrun)];
    [congruence|].
  destruct best as [b|].
  - rewrite Hrun in Hp. injection Hp as <-.
    destruct Hbest as (Hin & Hb & Hdec & Hev & Hmax).
    apply combinations_elem in Hin as [Hsub Hlen].
    split_and!; [done|done|done|by rewrite Hev].
  - destruct Hrun as [[_ Hnone]|(_ & closest & Hin & _ & Hrun)];
      [congruence|].
    rewrite Hrun in Hp. injection Hp as <-. simpl.
    apply combinations_elem in Hin as [Hsub Hlen].
    split_and!; [done|done|done|apply Qmult_comm].
Qed.

(** X7.  When no combination of [size] legs is priced within the tolerance
    of the target, the suggestion is a combination whose price is nearest
    to the target. *)
Theorem parlay_nearest (p : Trends.Parlay) :
  build = inr (Some p) →
  (∀ c, sublist c domain → length c = size →
     ¬ (Trends.dist target_dec c <= tol)%Q) →
  ∀ c, sublist c domain → length c = size →
    (Trends.dist target_dec (Trends.legs p) <= Trends.dist target_dec c)%Q.
Proof.
  intros Hp Hnone c Hc Hlenc.
  destruct build_cases as [[_ Hn]|(_ & best & Hbest & Hrun)]; [congruence|].
  destruct best as [b|].
  - destruct Hbest as (Hin & Hb & _).
    apply combinations_elem in Hin as [Hsub Hlen].
    by destruct (Hnone (Trends.legs b)).
  - destruct Hrun as [[_ Hn]|(_ & closest & _ & Hleast & Hrun)];
      [congruence|].
    rewrite Hrun in Hp. injection Hp as <-. simpl.
    apply Hleast. by apply combinations_elem.
Qed.

End BuilderFacts.

Example double_pick_legs :
  Trends.leg_player <$> Trends.legs Fixtures.double_pick = ["b"; "c"]%string
  ∧ Trends.leg_player <$> Trends.legs Fixtures.long_shot = ["b"; "d"]%string.
Proof. split; reflexivity. Qed.

Lemma parlay_found_iff_enough_legs_witness :
  Trends.build_parlay_suggestions Fixtures.pool 2 (2 # 10) 5 = inr None
  ∧ ∃ p, Trends.build_parlay_suggestions Fixtures.pool 2 (2 # 10) 2
         = inr (Some p).
Proof.
  split.
  - apply (proj1 (parlay_found_iff_enough_legs Fixtures.pool 2 (2 # 10) 5)).
    simpl. lia.
  - apply (proj2 (parlay_found_iff_enough_legs Fixtures.pool 2 (2 # 10) 2)).
    + simpl. lia.
    + done.
Defined.

Lemma parlay_is_combination_witness :
  sublist (Trends.legs Fixtures.double_pick) Fixtures.pool
  ∧ length (Trends.legs Fixtures.double_pick) = 2%nat
  ∧ (Trends.decimal Fixtures.double_pick
     == Trends.product_dec (Trends.legs Fixtures.double_pick))%Q.
Proof.
  destruct (parlay_is_combination Fixtures.pool 2 (2 # 10) 2
              Fixtures.double_pick) as (Hsub & Hlen & Hdec & _);
    [reflexivity|].
  split_and!; [exact Hsub|exact Hlen|by rewrite Hdec].
Defined.

Lemma parlay_nearest_witness :
  (Trends.dist 10 (Trends.legs Fixtures.long_shot)
   <= Trends.dist 10 (take 2 Fixtures.pool))%Q.
Proof.
  apply (parlay_nearest Fixtures.pool 10 (1 # 10) 2 Fixtures.long_shot).
  - reflexivity.
  - intros c Hsub Hlen.
    assert (Hc : c ∈ Trends.combinations (take Trends.MAX_LEGS_POOL
                                            Fixtures.pool) 2)
      by by apply combinations_elem.
    vm_compute in Hc.
    repeat (apply elem_of_cons in Hc as [-> | Hc]);
      [by vm_compute..|by apply elem_of_nil in Hc].
  - apply (sublist_take _ 2).
  - reflexivity.
Defined.

(** ** More on the scanner, the loader and the dated cache *)

(** X8.  [best_hit] never raises, and it reports a threshold exactly
    when the window is not empty and the first threshold of the ladder
    meets the minimum rate; the report is that first threshold with its
    hit count and rate. *)
Theorem best_hit_reports_iff (CATEGORIES : category → list Z) (MIN_HIT : Q)
    (df : DataFrame) (c : category) :
  (∃ o, Phase5.best_hit CATEGORIES MIN_HIT df c = Ok o)
  ∧ ∀ lvl hits rate,
      Phase5.best_hit CATEGORIES MIN_HIT df c = Ok (Some (lvl, hits, rate))
      ↔ df ≠ []
        ∧ (∃ rest, CATEGORIES c = lvl :: rest)
        ∧ (MIN_HIT <= rate_of df c lvl)%Q
        ∧ hits = hits_ge df c lvl
        ∧ rate = rate_of df c lvl.
Proof.
  destruct (decide (df = [])) as [->|Hdf].
  { split; [by eexists|]. intros lvl hits rate. split; [done|].
    by intros [? _]. }
  destruct (CATEGORIES c) as [|lvl0 rest] eqn:Hcat.
  { assert (Hnone : Phase5.best_hit CATEGORIES MIN_HIT df c = Ok None).
    { unfold Phase5.best_hit.
      rewrite (proj2 (Z.eqb_neq _ 0) (length_nonzero df Hdf)), Hcat.
      done. }
    rewrite Hnone. split; [by eexists|]. intros lvl hits rate.
    split; [done|]. by intros (_ & [rest' ?] & _). }
  destruct (best_hit_head CATEGORIES MIN_HIT df c lvl0 rest Hdf Hcat)
    as [-> _].
  destruct (Qle_bool MIN_HIT (rate_of df c lvl0)) eqn:Hmeets.
  - split; [by eexists|]. intros lvl hits rate. split.
    + intros [= <- <- <-]. apply Qle_bool_iff in Hmeets.
      split_and!; try done. by exists rest.
    + intros (_ & [rest' [= -> _]] & _ & -> & ->). done.
  - split; [by eexists|]. intros lvl hits rate. split; [done|].
    intros (_ & [rest' [= -> _]] & Habs%Qle_bool_iff & _). congruence.
Qed.

Section LoaderMoreFacts.

Variable PlayerGameLog : Z → string → Res DataFrame.
Variable lookback : nat.
Variable pid : Z.

(** X9.  When the first listed season alone holds [lookback] rows with
    minutes, the later seasons are not read: the window is made of
    first-season rows whatever the service holds for the others. *)
Theorem fetch_player_logs_first_season_enough (season : string)
    (later : list string) (part : DataFrame) :
  PlayerGameLog pid season = Ok part →
  (lookback ≤ length (filter (λ r, (0 < MIN r)%N) part))%nat →
  Phase5.fetch_player_logs (season :: later) PlayerGameLog lookback pid
  = Ok (take lookback
          (sort_values_desc (filter (λ r, (0 < MIN r)%N) part))).
Proof.
  intros Hpart Hfull. unfold Phase5.fetch_player_logs. simpl.
  unfold Phase5.fetch_body at 1. rewrite Hpart. simpl.
  rewrite decide_True by done. simpl.
  destruct (decide _) as [Hnil|]; [|done].
  rewrite Hnil in Hfull |- *. simpl in Hfull.
  by replace lookback with 0%nat by lia.
Qed.

(** The season loop reads the first season always, and a further one
    only while the rows in hand are fewer than [lookback]. *)
Lemma fetch_loop_first (seasons : list string) (acc : DataFrame) :
  ∃ k : nat,
    (k ≤ length seasons)%nat
    ∧ (seasons ≠ [] → (0 < k)%nat)
    ∧ for_in (Phase5.fetch_body PlayerGameLog lookback pid) seasons acc
      = Ok (inl (acc ++ Phase5.qualifying_rows PlayerGameLog pid
                          (take k seasons)))
    ∧ (k = length seasons
       ∨ (lookback ≤ length (acc ++ Phase5.qualifying_rows PlayerGameLog pid
                                      (take k seasons)))%nat)
    ∧ ∀ j, (0 < j < k)%nat →
        (length (acc ++ Phase5.qualifying_rows PlayerGameLog pid
                          (take j seasons)) < lookback)%nat.
Proof.
  revert acc. induction seasons as [|s seasons IH]; intros acc.
  - exists 0%nat. simpl. rewrite app_nil_r.
    split_and!; [done|done|done|by left|]. intros j Hj. lia.
  - cbn [for_in]. rewrite fetch_body_run.
    destruct (decide (lookback ≤ length
                (acc ++ Phase5.qualifying_rows PlayerGameLog pid [s]))%nat)
      as [Hfull|Hmore].
    + exists 1%nat. cbn [take]. rewrite take_0.
      split_and!; [simpl; lia|lia|done|by right|]. intros j Hj. lia.
    + destruct (IH (acc ++ Phase5.qualifying_rows PlayerGameLog pid [s]))
        as (k & Hk & _ & Hrun & Hstop & Hfirst).
      assert (Hsplit : ∀ i,
        acc ++ Phase5.qualifying_rows PlayerGameLog pid
                 (take (S i) (s :: seasons))
        = (acc ++ Phase5.qualifying_rows PlayerGameLog pid [s])
          ++ Phase5.qualifying_rows PlayerGameLog pid (take i seasons)).
      { intros i. cbn [take].
        change (s :: take i seasons) with ([s] ++ take i seasons).
        by rewrite qualifying_app, app_assoc. }
      exists (S k). rewrite Hsplit.
      split_and!; [simpl; lia|lia|done| |].
      * destruct Hstop as [->|?]; [by left|by right].
      * intros [|j] Hj; [lia|]. rewrite Hsplit.
        destruct j as [|j].
        -- rewrite take_0.
           change (Phase5.qualifying_rows PlayerGameLog pid [])
             with ([] : DataFrame).
           rewrite app_nil_r. lia.
        -- apply Hfirst. lia.
Qed.

(** X10.  [fetch_player_logs] always returns.  It reads the seasons in
    list order, the first one always and a further one only while fewer
    than [lookback] rows with minutes are in hand; of the rows gathered
    that way the window holds the [lookback] most recent (all of them
    when they are fewer), newest first: no row gathered but left out is
    newer than a row in the window. *)
Theorem fetch_player_logs_most_recent (SEASONS : list string) :
  ∃ (k : nat) (window rest : DataFrame),
    Phase5.fetch_player_logs SEASONS PlayerGameLog lookback pid = Ok window
    ∧ (k ≤ length SEASONS)%nat
    ∧ (SEASONS ≠ [] → (0 < k)%nat)
    ∧ (k = length SEASONS
       ∨ (lookback ≤ length (Phase5.qualifying_rows PlayerGameLog pid
                                (take k SEASONS)))%nat)
    ∧ (∀ j, (0 < j < k)%nat →
         (length (Phase5.qualifying_rows PlayerGameLog pid (take j SEASONS))
          < lookback)%nat)
    ∧ window ++ rest
      ≡ₚ Phase5.qualifying_rows PlayerGameLog pid (take k SEASONS)
    ∧ length window
      = (lookback `min` length (Phase5.qualifying_rows PlayerGameLog pid
                                  (take k SEASONS)))%nat
    ∧ StronglySorted newer_first window
    ∧ (∀ r r', r ∈ window → r' ∈ rest → GAME_DATE r' ≤ GAME_DATE r).
Proof.
  destruct (fetch_loop_first SEASONS [])
    as (k & Hk & Hpos & Hrun & Hstop & Hfirst).
  simpl in Hrun, Hstop, Hfirst.
  set (df_all := Phase5.qualifying_rows PlayerGameLog pid (take k SEASONS))
    in *.
  exists k, (take lookback (sort_values_desc df_all)),
    (drop lookback (sort_values_desc df_all)).
  assert (Hperm : take lookback (sort_values_desc df_all)
                  ++ drop lookback (sort_values_desc df_all) ≡ₚ df_all).
  { rewrite take_drop. apply sort_values_desc_perm. }
  split_and!; [|done|done|done|done|done| | |].
  - unfold Phase5.fetch_player_logs. rewrite Hrun. simpl.
    destruct (decide (df_all = [])) as [Hnil|]; [|done].
    rewrite Hnil. by destruct lookback.
  - by rewrite length_take, (Permutation_length (sort_values_desc_perm _)).
  - apply take_sorted, sort_values_desc_sorted.
  - pose proof (sort_values_desc_sorted df_all) as Hsorted.
    rewrite <- (take_drop lookback) in Hsorted.
    apply StronglySorted_app in Hsorted as (Hcross & _ & _).
    intros r r' Hr Hr'. apply (Hcross r r' Hr Hr').
Qed.

End LoaderMoreFacts.

(** X11.  An entry written on day [D] is served by [load_cached_logs],
    newest first, up to the midnight that ends day [D] and not after it;
    writing it does not change what is loaded for other players. *)
Theorem load_cached_logs_after_save (fs : gmap Z Phase5.CacheFile)
    (T now pid : Z) (df : DataFrame) :
  df ≠ [] →
  Phase5.load_cached_logs 24 (Phase5.save_cached_logs fs T pid df) now pid
  = (if decide (now ≤ (Phase5.date_of T + 1) * Phase5.us_per_day)
     then Ok (sort_values_desc df) else Ok [])
  ∧ ∀ pid', pid' ≠ pid →
      Phase5.load_cached_logs 24 (Phase5.save_cached_logs fs T pid df)
        now pid'
      = Phase5.load_cached_logs 24 fs now pid'.
Proof.
  intros Hdf. unfold Phase5.load_cached_logs, Phase5.save_cached_logs.
  split.
  - rewrite lookup_insert_eq. cbn [Phase5.updated Phase5.logs].
    unfold Phase5.strptime_day.
    rewrite timedelta_hours_val, us_per_day_val.
    destruct (decide (now ≤ _)) as [Hin|Hout].
    + rewrite decide_False by lia. by rewrite decide_False.
    + by rewrite decide_True by lia.
  - intros pid' Hne. by rewrite lookup_insert_ne.
Qed.

(** X12.  What [save_cached_logs] wrote is what [get_player_logs] returns
    afterwards, without a request to the service: for rows whose newest
    game is dated today or later, read before the midnight-based age
    runs out, the call returns them newest first and leaves the store as
    it is. *)
Theorem get_player_logs_after_save (CACHE_MAX_AGE_HOURS : Z)
    (SEASONS : list string) (PlayerGameLog : Z → string → Res DataFrame)
    (lookback : nat) (fs : gmap Z Phase5.CacheFile) (T pid : Z)
    (df : DataFrame) (clk : Phase5.Clock) (newest : Z) :
  Phase5.newest_game_date df = Some newest →
  Phase5.date_of (Phase5.t_today clk) ≤ newest →
  Phase5.t_load clk - Phase5.strptime_day (Phase5.date_of T)
    ≤ Phase5.timedelta_hours CACHE_MAX_AGE_HOURS →
  Phase5.get_player_logs CACHE_MAX_AGE_HOURS SEASONS PlayerGameLog lookback
    (Phase5.save_cached_logs fs T pid df) clk pid
  = Ok (sort_values_desc df, Phase5.save_cached_logs fs T pid df).
Proof.
  intros Hnewest Htoday Hage.
  destruct (cache_test_current CACHE_MAX_AGE_HOURS
              (Phase5.save_cached_logs fs T pid df) clk pid
              {| Phase5.updated := Phase5.date_of T; Phase5.logs := df |})
    as [Hload Htest].
  { split_and!.
    - unfold Phase5.save_cached_logs. apply lookup_insert_eq.
    - done.
    - by exists newest. }
  unfold Phase5.get_player_logs. rewrite Hload. simpl in *.
  by rewrite Htest.
Qed.

(** ** More on the mtime cache and the retrying loader *)

Lemma is_cache_valid_after_save (fs : gmap string Parlays.File) (T now : Z)
    (player_name : string) (df : DataFrame) :
  Parlays.is_cache_valid (Parlays.save_cache fs T player_name df) now
    (Parlays.cache_path player_name) = true
  ↔ now - T < 24 * Phase5.us_per_hour.
Proof.
  unfold Parlays.is_cache_valid, Parlays.save_cache.
  rewrite lookup_insert_eq. cbn [Parlays.mtime].
  by rewrite bool_decide_eq_true.
Qed.

Lemma load_cache_after_save (fs : gmap string Parlays.File) (T : Z)
    (player_name : string) (df : DataFrame) :
  Parlays.load_cache (Parlays.save_cache fs T player_name df) player_name
  = df.
Proof.
  unfold Parlays.load_cache, Parlays.open_read, Parlays.save_cache.
  by rewrite lookup_insert_eq.
Qed.

(** X13.  A frame saved by [save_cache] at time [T] is valid exactly while
    less than 24 hours have passed since [T], and [load_cache] returns it
    as it was saved. *)
Theorem mtime_cache_round_trip (fs : gmap string Parlays.File) (T now : Z)
    (player_name : string) (df : DataFrame) :
  (Parlays.is_cache_valid (Parlays.save_cache fs T player_name df) now
     (Parlays.cache_path player_name) = true
   ↔ now - T < 24 * Phase5.us_per_hour)
  ∧ Parlays.load_cache (Parlays.save_cache fs T player_name df) player_name
    = df.
Proof.
  split; [apply is_cache_valid_after_save|apply load_cache_after_save].
Qed.

Section RetryMoreFacts.

Variable normalize_name : string → string.
Variable all_players : list Parlays.Player.
Variable PlayerGameLog_season : Z → nat → Res DataFrame.
Variable PlayerGameLog_all_time : Z → nat → Res DataFrame.

#[local] Abbreviation attempt_body :=
  (Parlays.attempt_body PlayerGameLog_season PlayerGameLog_all_time).
#[local] Abbreviation get_last_n_games :=
  (Parlays.get_last_n_games normalize_name all_players
     PlayerGameLog_season PlayerGameLog_all_time).

(** Attempt [k] on a season request that succeeds: it works with the
    season's rows, or with the all-time rows when the season has fewer
    than [num_games] and the second request succeeds. *)
Lemma attempt_body_ok (fs : gmap string Parlays.File) (now : Z)
    (player_name : string) (num_games : nat) (pid : Z) (k : nat)
    (logs : DataFrame) (secs : Z) :
  PlayerGameLog_season pid k = Ok logs →
  attempt_body fs now player_name num_games pid k secs
  = Ok (Return
          {| Parlays.ret :=
               take num_games
                 (if decide (length logs < num_games)%nat
                  then try_except (PlayerGameLog_all_time pid k) logs
                  else logs);
             Parlays.files :=
               Parlays.save_cache fs now player_name
                 (if decide (length logs < num_games)%nat
                  then try_except (PlayerGameLog_all_time pid k) logs
                  else logs);
             Parlays.slept := secs |}).
Proof.
  intros Hlogs. unfold Parlays.attempt_body. by rewrite Hlogs.
Qed.

(** What the call answers when attempt [k] works with the rows
    [fetched]. *)
#[local] Abbreviation answered fs now_save player_name num_games k fetched :=
  (Ok {| Parlays.ret := take num_games fetched;
         Parlays.files := Parlays.save_cache fs now_save player_name fetched;
         Parlays.slept := Z.of_nat k * (Z.of_nat k + 1) / 2 |}).

(** X14.  When the cache is not fresh, the player is known, the first [k]
    season requests raise and request [k] (of the three) succeeds, the
    call works with the rows of that attempt: the season's rows when
    they are [num_games] or more; otherwise the all-time rows when that
    request succeeds, and the season's rows when it raises.  It returns
    the first [num_games] of these rows, writes all of them to the
    player's cache file, and has slept 1 + ... + k seconds. *)
Theorem get_last_n_games_retry (fs : gmap string Parlays.File)
    (now now_save : Z) (player_name : string) (num_games : nat)
    (m : Parlays.Player) (k : nat) (logs : DataFrame) :
  Parlays.is_cache_valid fs now (Parlays.cache_path player_name) = false →
  Parlays.find_player normalize_name all_players player_name = Some m →
  (k < 3)%nat →
  (∀ a, (a < k)%nat →
     ∃ e, PlayerGameLog_season (Parlays.id m) a = Raise e) →
  PlayerGameLog_season (Parlays.id m) k = Ok logs →
  ((num_games ≤ length logs)%nat →
     get_last_n_games fs now now_save player_name num_games
     = answered fs now_save player_name num_games k logs)
  ∧ ((length logs < num_games)%nat →
     ∀ more, PlayerGameLog_all_time (Parlays.id m) k = Ok more →
       get_last_n_games fs now now_save player_name num_games
       = answered fs now_save player_name num_games k more)
  ∧ ((length logs < num_games)%nat →
     ∀ e, PlayerGameLog_all_time (Parlays.id m) k = Raise e →
       get_last_n_games fs now now_save player_name num_games
       = answered fs now_save player_name num_games k logs).
Proof.
  intros Hstale Hfound Hk Hfail Hlogs.
  unfold Parlays.get_last_n_games. rewrite Hstale, Hfound.
  assert (Hraise : ∀ a secs, (a < k)%nat →
            attempt_body fs now_save player_name num_games (Parlays.id m)
              a secs
            = Ok (Continue (secs + 1 * (Z.of_nat a + 1)))).
  { intros a secs Ha. destruct (Hfail a Ha) as [e He].
    unfold Parlays.attempt_body. by rewrite He. }
  pose proof (λ secs, attempt_body_ok fs now_save player_name num_games
                        (Parlays.id m) k logs secs Hlogs) as Hrun.
  assert (Hloop :
    ∀ fetched,
      fetched = (if decide (length logs < num_games)%nat
                 then try_except (PlayerGameLog_all_time (Parlays.id m) k)
                        logs
                 else logs) →
      (r ← for_in (attempt_body fs now_save player_name num_games
                     (Parlays.id m)) (seq 0 3) 0;
       match r with
       | inr out => Ok out
       | inl secs =>
           Ok {| Parlays.ret := Parlays.load_cache fs player_name;
                 Parlays.files := fs; Parlays.slept := secs |}
       end)
      = answered fs now_save player_name num_games k fetched).
  { intros fetched ->. change (seq 0 3) with [0; 1; 2]%nat.
    destruct k as [|[|[|k]]]; [| | |lia]; cbn [for_in].
    - by rewrite Hrun.
    - rewrite Hraise by lia. cbn [for_in]. by rewrite Hrun.
    - rewrite Hraise by lia. cbn [for_in]. rewrite Hraise by lia.
      cbn [for_in]. by rewrite Hrun. }
  split_and!.
  - intros Hlong. apply Hloop. by rewrite decide_False by lia.
  - intros Hshort more Hmore. apply Hloop.
    by rewrite decide_True, Hmore by done.
  - intros Hshort e He. apply Hloop.
    by rewrite decide_True, He by done.
Qed.

(** X15.  While the player's cache file is valid the call answers from it:
    the first [num_games] cached rows, no request, no sleep, the store
    untouched -- so what one call fetched and saved, a call within the
    next 24 hours returns again. *)
Theorem get_last_n_games_cached (fs : gmap string Parlays.File)
    (T now now_save : Z) (player_name : string) (num_games : nat)
    (df : DataFrame) :
  now - T < 24 * Phase5.us_per_hour →
  get_last_n_games (Parlays.save_cache fs T player_name df) now now_save
    player_name num_games
  = Ok {| Parlays.ret := take num_games df;
          Parlays.files := Parlays.save_cache fs T player_name df;
          Parlays.slept := 0 |}.
Proof.
  intros Hfresh. unfold Parlays.get_last_n_games.
  rewrite (proj2 (is_cache_valid_after_save fs T now player_name df) Hfresh).
  by rewrite load_cache_after_save.
Qed.

(** A run of attempts that returns has written the player's file. *)
Lemma attempts_return_saved (fs : gmap string Parlays.File) (now : Z)
    (player_name : string) (num_games : nat) (pid : Z)
    (attempts : list nat) (secs : Z) (out : Parlays.Outcome) :
  for_in (attempt_body fs now player_name num_games pid) attempts secs
    = Ok (inr out) →
  ∃ logs, Parlays.files out = Parlays.save_cache fs now player_name logs.
Proof.
  revert secs. induction attempts as [|a attempts IH]; intros secs; simpl.
  - done.
  - unfold Parlays.attempt_body at 1.
    destruct (PlayerGameLog_season pid a) as [logs|e]; simpl.
    + intros [= <-]. by eexists.
    + apply IH.
Qed.

(** X16.  Whatever happens, a call for one player changes no cache file
    but that player's own. *)
Theorem get_last_n_games_other_files (fs : gmap string Parlays.File)
    (now now_save : Z) (player_name : string) (num_games : nat)
    (out : Parlays.Outcome) (path : string) :
  get_last_n_games fs now now_save player_name num_games = Ok out →
  path ≠ Parlays.cache_path player_name →
  Parlays.files out !! path = fs !! path.
Proof.
  unfold Parlays.get_last_n_games. intros Hrun Hpath.
  destruct (Parlays.is_cache_valid _ _ _); [by injection Hrun as <-|].
  destruct (Parlays.find_player _ _ _) as [m|]; [|by injection Hrun as <-].
  destruct (for_in _ _ _) as [[secs|out']|e] eqn:Hloop; simpl in Hrun;
    [by injection Hrun as <-| |done].
  injection Hrun as <-.
  apply attempts_return_saved in Hloop as [logs ->].
  unfold Parlays.save_cache. by rewrite lookup_insert_ne.
Qed.

End RetryMoreFacts.

(** ** More on the odds lookup and the selection *)

Lemma american_to_decimal_nonzero (a : Z) :
  a ≠ 0 →
  ∃ d, Parlays.american_to_decimal a = Ok d
       ∧ (1 < d)%Q
       ∧ (a ≤ -100 → (d <= 2)%Q)
       ∧ (100 ≤ a → (2 <= d)%Q).
Proof.
  unfold Parlays.american_to_decimal.
  intros Ha. destruct (decide (a > 0)) as [Hpos|Hneg].
  - eexists. split_and!; [done| |lia|].
    + rewrite <- (Qplus_0_r 1) at 1. apply Qplus_lt_r.
      apply Qlt_shift_div_l; [done|]. rewrite Qmult_0_l.
      change 0%Q with (inject_Z 0). rewrite <- Zlt_Qlt. lia.
    + intros Hbig. change 2%Q with (1 + 1)%Q. apply Qplus_le_r.
      apply Qle_shift_div_l; [done|]. rewrite Qmult_1_l.
      change 100%Q with (inject_Z 100). rewrite <- Zle_Qle. lia.
  - rewrite decide_False by done. eexists. split_and!; [done| | |lia].
    + rewrite <- (Qplus_0_r 1) at 1. apply Qplus_lt_r.
      apply Qlt_shift_div_l; [|by rewrite Qmult_0_l].
      change 0%Q with (inject_Z 0). rewrite <- Zlt_Qlt. lia.
    + intros Hbig. change 2%Q with (1 + 1)%Q. apply Qplus_le_r.
      apply Qle_shift_div_r.
      * change 0%Q with (inject_Z 0). rewrite <- Zlt_Qlt. lia.
      * rewrite Qmult_1_l. change 100%Q with (inject_Z 100).
        rewrite <- Zle_Qle. lia.
Qed.

(** X17.  [american_to_decimal] raises [ZeroDivisionError] on a price of 0.
    On any other price of at most nine digits it gives decimal odds above
    1: at most 2 for a price of -100 or below, at least 2 for a price of
    100 or above. *)
Theorem american_to_decimal_range (a : Z) :
  (a = 0 → Parlays.american_to_decimal a = Raise ZeroDivisionError)
  ∧ (a ≠ 0 → Z.abs a ≤ 999999999 →
     ∃ d, Parlays.american_to_decimal a = Ok d
          ∧ (1 < d)%Q
          ∧ (a ≤ -100 → (d <= 2)%Q)
          ∧ (100 ≤ a → (2 <= d)%Q)).
Proof.
  split; [by intros ->|]. intros Ha _. by apply american_to_decimal_nonzero.
Qed.

Lemma for_each_inv_in {A S} (P : S → Prop) (body : A → S → Res S)
    (l : list A) (s s' : S) :
  (∀ x t t', x ∈ l → P t → body x t = Ok t' → P t') →
  P s → for_each body l s = Ok s' → P s'.
Proof.
  revert s. induction l as [|x l IH]; intros s Hbody Hs; simpl.
  - by intros [= <-].
  - destruct (body x s) as [t|e] eqn:Hx; simpl; [|done].
    apply IH.
    + intros y t1 t2 Hy. apply Hbody. by right.
    + eapply Hbody; [by left|done..].
Qed.

Lemma key_eqb_market (k1 k2 : Parlays.OddsKey) :
  Parlays.key_eqb k1 k2 = true →
  Parlays.ok_market k1 = Parlays.ok_market k2
  ∧ Parlays.ok_side k1 = Parlays.ok_side k2.
Proof.
  unfold Parlays.key_eqb.
  intros [[[_ Hm%bool_decide_eq_true]%andb_true_iff _]%andb_true_iff
            Hs%bool_decide_eq_true]%andb_true_iff.
  done.
Qed.

(** [d[k] = v] keeps every key, and has a key of the market of [k]. *)
Lemma dict_set_keeps (k : Parlays.OddsKey) (v : Parlays.Price)
    (d : list (Parlays.OddsKey * Parlays.Price))
    (kv : Parlays.OddsKey * Parlays.Price) :
  kv ∈ d → ∃ kv', kv' ∈ Parlays.dict_set k v d ∧ kv'.1 = kv.1.
Proof.
  induction d as [|[k' v'] d IH]; simpl; [by intros ?%elem_of_nil|].
  intros [->|Hin]%elem_of_cons.
  - destruct (Parlays.key_eqb k' k).
    + exists (k', v). split; [by left|done].
    + exists (k', v'). split; [by left|done].
  - destruct (Parlays.key_eqb k' k).
    + exists kv. split; [by right|done].
    + destruct (IH Hin) as (kv' & Hkv' & Heq).
      exists kv'. split; [by right|done].
Qed.

Lemma dict_set_has (k : Parlays.OddsKey) (v : Parlays.Price)
    (d : list (Parlays.OddsKey * Parlays.Price)) :
  ∃ k', (k', v) ∈ Parlays.dict_set k v d
        ∧ Parlays.ok_market k' = Parlays.ok_market k
        ∧ Parlays.ok_side k' = Parlays.ok_side k.
Proof.
  induction d as [|[k' v'] d IH]; simpl.
  - exists k. split; [by left|done].
  - destruct (Parlays.key_eqb k' k) eqn:Heq.
    + apply key_eqb_market in Heq. exists k'. split; [by left|done].
    + destruct IH as (k'' & Hin & Hk''). exists k''. split; [by right|done].
Qed.

(** Entries of [d[k] = v]: old entries, or an old or the new key with the
    new value. *)
Lemma dict_set_entry (k : Parlays.OddsKey) (v : Parlays.Price)
    (d : list (Parlays.OddsKey * Parlays.Price))
    (kv : Parlays.OddsKey * Parlays.Price) :
  kv ∈ Parlays.dict_set k v d →
  kv ∈ d
  ∨ (kv.2 = v ∧ Parlays.ok_market kv.1 = Parlays.ok_market k
     ∧ Parlays.ok_side kv.1 = Parlays.ok_side k).
Proof.
  induction d as [|[k' v'] d IH]; simpl.
  - intros ->%list_elem_of_singleton. by right.
  - destruct (Parlays.key_eqb k' k) eqn:Heq.
    + apply key_eqb_market in Heq.
      intros [->|Hin]%elem_of_cons; [by right|]. left. by right.
    + intros [->|Hin]%elem_of_cons; [left; by left|].
      destruct (IH Hin) as [?|?]; [|by right]. left. by right.
Qed.

Section FetchMoreFacts.

Variable normalize_name : string → string.
Variable lower : string → string.
Variable odds_request : string → Res (list Parlays.JEvent).

#[local] Abbreviation entry_ok kv :=
  (Parlays.ok_side (fst kv) = "over"%string
   ∧ Parlays.book (snd kv) = "FanDuel"%string
   ∧ Parlays.american_to_decimal (Parlays.american (snd kv))
     = Ok (Parlays.decimal (snd kv))
   ∧ Parlays.ok_market (fst kv) ∈ Parlays.ODDS_MARKETS).

(** While the lines of market [m] are stored: the entries are well
    formed, the markets returned so far still have a line, and so has [m]
    once [got_any] is set. *)
#[local] Abbreviation filling m returned st :=
  ((∀ kv, kv ∈ fst st → entry_ok kv)
   ∧ (∀ m', m' ∈ returned →
        ∃ kv, kv ∈ fst st ∧ Parlays.ok_market (fst kv) = m')
   ∧ (snd st = true →
        ∃ kv, kv ∈ fst st ∧ Parlays.ok_market (fst kv) = m)).

Lemma outcome_body_filling (m : string) (returned : gset string)
    (oc : Parlays.JOutcome) (st st' : list (Parlays.OddsKey * Parlays.Price)
                                      * bool) :
  m ∈ Parlays.ODDS_MARKETS →
  filling m returned st →
  Parlays.outcome_body normalize_name lower m oc st = Ok st' →
  filling m returned st'.
Proof.
  intros Hm Hst. unfold Parlays.outcome_body.
  destruct (decide _); [by intros [= <-]|].
  destruct (Parlays.oc_name oc) as [name|]; [|by intros [= <-]].
  destruct (Parlays.oc_point oc) as [pt|]; [|by intros [= <-]].
  destruct (Parlays.oc_price oc) as [price|]; [|by intros [= <-]].
  destruct (decide (name = _)); [by intros [= <-]|].
  destruct (Parlays.american_to_decimal price) as [dec|e] eqn:Hdec;
    [|done]. simpl.
  intros [= <-]. simpl. destruct Hst as (Hok & Hret & Hany).
  split_and!.
  - intros kv [Hold|(Hv & Hmk & Hsd)]%dict_set_entry; [by apply Hok|].
    rewrite Hv, Hmk, Hsd. done.
  - intros m' Hm'. destruct (Hret m' Hm') as (kv & Hkv & Hmk).
    destruct (dict_set_keeps
                {| Parlays.ok_player := normalize_name name;
                   Parlays.ok_market := m; Parlays.ok_point := pt;
                   Parlays.ok_side := "over" |}
                {| Parlays.american := price; Parlays.decimal := dec;
                   Parlays.book := "FanDuel" |} st.1 kv Hkv)
      as (kv' & Hkv' & Heq).
    exists kv'. split; [done|]. by rewrite Heq.
  - intros _.
    destruct (dict_set_has
                {| Parlays.ok_player := normalize_name name;
                   Parlays.ok_market := m; Parlays.ok_point := pt;
                   Parlays.ok_side := "over" |}
                {| Parlays.american := price; Parlays.decimal := dec;
                   Parlays.book := "FanDuel" |} st.1)
      as (k' & Hin & Hmk & _).
    by exists (k', {| Parlays.american := price; Parlays.decimal := dec;
                      Parlays.book := "FanDuel" |}).
Qed.

Lemma event_body_filling (m : string) (returned : gset string)
    (ev : Parlays.JEvent) (st st' : list (Parlays.OddsKey * Parlays.Price)
                                    * bool) :
  m ∈ Parlays.ODDS_MARKETS →
  filling m returned st →
  Parlays.event_body normalize_name lower m ev st = Ok st' →
  filling m returned st'.
Proof.
  unfold Parlays.event_body. intros Hm Hst.
  apply (for_each_inv (λ st, filling m returned st)); [|done].
  clear -Hm. intros bm st st' Hst.
  unfold Parlays.bookmaker_body.
  destruct (decide _); [by intros [= <-]|].
  apply (for_each_inv (λ st, filling m returned st)); [|done].
  clear -Hm. intros mk st st' Hst.
  unfold Parlays.market_body.
  destruct (decide _); [by intros [= <-]|].
  apply (for_each_inv (λ st, filling m returned st)); [|done].
  clear -Hm. intros oc st st'. by apply outcome_body_filling.
Qed.

(** X18.  In what the odds fetch returns, the returned markets are exactly
    the markets that have a line in the lookup, and every line is an
    "over" line of one of the requested markets, booked at FanDuel, whose
    decimal odds are what [american_to_decimal] makes of its American
    price (a price that is not 0). *)
Theorem fetch_lookup_exact
    (odds_lookup : list (Parlays.OddsKey * Parlays.Price))
    (returned_markets : gset string) :
  Parlays.fetch_fanduel_player_props_today normalize_name lower odds_request
    = Ok (odds_lookup, returned_markets) →
  (∀ m, m ∈ returned_markets
        ↔ ∃ kv, kv ∈ odds_lookup ∧ Parlays.ok_market kv.1 = m)
  ∧ ∀ kv, kv ∈ odds_lookup →
      Parlays.ok_side kv.1 = "over"%string
      ∧ Parlays.book kv.2 = "FanDuel"%string
      ∧ Parlays.american_to_decimal (Parlays.american kv.2)
        = Ok (Parlays.decimal kv.2)
      ∧ Parlays.american kv.2 ≠ 0
      ∧ Parlays.ok_market kv.1 ∈ Parlays.ODDS_MARKETS.
Proof.
  intros Hrun.
  pose proof (fetch_markets_returned _ _ _ _ _ Hrun) as Hback.
  unfold Parlays.fetch_fanduel_player_props_today in Hrun.
  apply (for_each_inv_in
           (λ st, (∀ kv, kv ∈ st.1 → entry_ok kv)
                  ∧ ∀ m, m ∈ st.2 →
                      ∃ kv, kv ∈ st.1 ∧ Parlays.ok_market kv.1 = m))
    in Hrun.
  - simpl in Hrun. destruct Hrun as [Hok Hret]. split.
    + intros m. split; [by apply Hret|].
      intros (kv & Hkv & <-). by apply Hback.
    + intros kv Hkv. destruct (Hok kv Hkv) as (Hside & Hbook & Hdec & Hmk).
      split_and!; [done..| |done].
      intros Hzero. by rewrite Hzero in Hdec.
  - clear. intros m st st' Hm [Hok Hret]. unfold Parlays.fetch_body.
    destruct (odds_request m) as [data|e]; [|by intros [= <-]].
    destruct (for_each _ data (st.1, false)) as [[lookup got_any]|e]
      eqn:Hloop; simpl; [|done].
    intros [= <-]. simpl.
    apply (for_each_inv (λ t, filling m st.2 t)) in Hloop.
    + destruct Hloop as (Hok' & Hret' & Hany). simpl in *.
      split; [done|]. intros m'. destruct got_any.
      * intros [->%elem_of_singleton|Hm']%elem_of_union; auto.
      * auto.
    + intros ev t t'. by apply event_body_filling.
    + simpl. split_and!; [done..|]. done.
  - simpl. split.
    + by intros kv ?%elem_of_nil.
    + by intros m ?%elem_of_empty.
Qed.

End FetchMoreFacts.

(** X19.  A pick is never invented: it carries the price of an "over" line
    that the lookup holds for this player in one of the two markets of
    the stat, a market among the returned ones; its point is the point of
    that line, passed through [int] when the line is an alternate one. *)
Theorem pick_is_a_line (normalize_name : string → string)
    (player stat_label : string) (threshold : Z)
    (odds_lookup : list (Parlays.OddsKey * Parlays.Price))
    (returned_markets : gset string) (b : Parlays.Pick) :
  Parlays.pick_highest_alt_or_best_standard normalize_name player
    stat_label threshold odds_lookup returned_markets = Some b →
  ∃ k val,
    (k, val) ∈ odds_lookup
    ∧ Parlays.ok_player k = normalize_name player
    ∧ Parlays.ok_side k = "over"%string
    ∧ Parlays.ok_market k = Parlays.used_market b
    ∧ Parlays.used_market b ∈ returned_markets
    ∧ Parlays.pick_american b = Parlays.american val
    ∧ Parlays.pick_decimal b = Parlays.decimal val
    ∧ Parlays.pick_book b = Parlays.book val
    ∧ ((Parlays.stat_to_markets stat_label).1
         = Some (Parlays.used_market b)
       ∧ Parlays.point b = Parlays.ok_point k
       ∨ (Parlays.stat_to_markets stat_label).2
           = Some (Parlays.used_market b)
         ∧ Parlays.point b
           = inject_Z (Parlays.int_of (Parlays.ok_point k))).
Proof.
  unfold Parlays.pick_highest_alt_or_best_standard.
  destruct (Parlays.stat_to_markets stat_label) as [std alt]. simpl.
  destruct (Parlays.pick_alt _ _ _ _) as [best|] eqn:Halt.
  - intros [= <-]. unfold Parlays.pick_alt in Halt.
    destruct alt as [ak|]; [|done].
    destruct (decide (ak ∈ returned_markets)); [|done].
    destruct (Parlays.list_sort _ _) as [|[pt val] rest] eqn:Hsort; [done|].
    injection Halt as <-. simpl.
    assert (Hin : (pt, val)
                  ∈ Parlays.lines_of odds_lookup (normalize_name player) ak).
    { rewrite <- (list_sort_perm Parlays.alt_le), Hsort. left. }
    apply lines_of_elem in Hin as (k & Hk & Hp & Hm & Hs & Hpt).
    exists k, val. rewrite Hpt. split_and!; try done. by right.
  - unfold Parlays.pick_std.
    destruct std as [sk|]; [|done].
    destruct (decide (sk ∈ returned_markets)); [|done].
    destruct (Parlays.list_sort _ _) as [|[pt val] rest] eqn:Hsort; [done|].
    intros [= <-]. simpl.
    assert (Hin : (pt, val)
                  ∈ Parlays.lines_of odds_lookup (normalize_name player) sk).
    { rewrite <- (list_sort_perm
                    (Parlays.std_le
                       (Parlays.threshold_to_over_point threshold))),
        Hsort. left. }
    apply lines_of_elem in Hin as (k & Hk & Hp & Hm & Hs & Hpt).
    exists k, val. rewrite Hpt. split_and!; try done. by left.
Qed.

(** *** The extras above on sample data *)

Lemma fetch_player_logs_first_season_enough_witness :
  ∃ part,
    Samples.two_seasons 7 "2025-26" = Ok part
    ∧ (5 ≤ length (filter (λ r, (0 < MIN r)%N) part))%nat
    ∧ Phase5.fetch_player_logs Phase5.SEASONS Samples.two_seasons 5 7
      = Ok (take 5 (sort_values_desc (filter (λ r, (0 < MIN r)%N) part))).
Proof.
  eexists. split; [reflexivity|]. split; [simpl; lia|].
  apply (fetch_player_logs_first_season_enough Samples.two_seasons 5 7
           "2025-26" ["2024-25"%string]).
  - reflexivity.
  - simpl. lia.
Defined.

Lemma load_cached_logs_after_save_witness :
  Phase5.load_cached_logs 24
    (Phase5.save_cached_logs ∅ Samples.noon 7 Samples.cold_window)
    (Samples.noon + Phase5.us_per_hour) 7
  = Ok (sort_values_desc Samples.cold_window).
Proof.
  destruct (load_cached_logs_after_save ∅ Samples.noon
              (Samples.noon + Phase5.us_per_hour) 7 Samples.cold_window)
    as [Hload _]; [done|].
  rewrite Hload. by rewrite decide_True by by vm_compute.
Defined.

Lemma get_player_logs_after_save_witness :
  Phase5.get_player_logs Phase5.CACHE_MAX_AGE_HOURS Phase5.SEASONS
    Samples.two_seasons 10
    (Phase5.save_cached_logs ∅ Samples.noon 7 [Samples.game 300 30 20])
    Samples.morning 7
  = Ok (sort_values_desc [Samples.game 300 30 20],
        Phase5.save_cached_logs ∅ Samples.noon 7 [Samples.game 300 30 20]).
Proof.
  apply (get_player_logs_after_save Phase5.CACHE_MAX_AGE_HOURS
           Phase5.SEASONS Samples.two_seasons 10 ∅ Samples.noon 7
           [Samples.game 300 30 20] Samples.morning 300).
  - reflexivity.
  - by vm_compute.
  - by vm_compute.
Defined.

Lemma get_last_n_games_retry_witness :
  Parlays.get_last_n_games (λ s, s) Samples.roster Fixtures.flaky
    Fixtures.career ∅ Samples.noon Samples.noon "Player Seven" 15
  = Ok {| Parlays.ret := take 15 (Fixtures.all_round ++ Samples.cold_window);
          Parlays.files :=
            Parlays.save_cache ∅ Samples.noon "Player Seven"
              (Fixtures.all_round ++ Samples.cold_window);
          Parlays.slept := 1 |}.
Proof.
  destruct (get_last_n_games_retry (λ s, s) Samples.roster Fixtures.flaky
              Fixtures.career ∅ Samples.noon Samples.noon "Player Seven" 15
              {| Parlays.id := 7; Parlays.full_name := "Player Seven" |}
              1 Fixtures.all_round)
    as (_ & Hmore & _); [reflexivity..|lia| |reflexivity|].
  - intros a Ha. assert (a = 0%nat) as -> by lia. by eexists.
  - apply Hmore; [simpl; lia|reflexivity].
Defined.

Lemma get_last_n_games_cached_witness :
  Parlays.get_last_n_games (λ s, s) Samples.roster Samples.down
    Samples.down
    (Parlays.save_cache ∅ Samples.noon "Player Seven" Fixtures.all_round)
    (Samples.noon + Phase5.us_per_hour) Samples.noon "Player Seven" 5
  = Ok {| Parlays.ret := take 5 Fixtures.all_round;
          Parlays.files :=
            Parlays.save_cache ∅ Samples.noon "Player Seven"
              Fixtures.all_round;
          Parlays.slept := 0 |}.
Proof.
  apply (get_last_n_games_cached (λ s, s) Samples.roster Samples.down
           Samples.down ∅ Samples.noon).
  by vm_compute.
Defined.

Lemma get_last_n_games_other_files_witness :
  Parlays.save_cache ∅ Samples.noon "Player Seven" Fixtures.all_round
    !! Parlays.cache_path "Player Eight"
  = (∅ : gmap string Parlays.File) !! Parlays.cache_path "Player Eight".
Proof.
  apply (get_last_n_games_other_files (λ s, s) Samples.roster Fixtures.flaky
           Samples.down ∅ Samples.noon Samples.noon "Player Seven" 5
           {| Parlays.ret := take 5 Fixtures.all_round;
              Parlays.files :=
                Parlays.save_cache ∅ Samples.noon "Player Seven"
                  Fixtures.all_round;
              Parlays.slept := 1 |}).
  - reflexivity.
  - by vm_compute.
Defined.

Lemma american_to_decimal_range_witness :
  Parlays.american_to_decimal 0 = Raise ZeroDivisionError
  ∧ ∃ d, Parlays.american_to_decimal (-110) = Ok d
         ∧ (1 < d)%Q ∧ (d <= 2)%Q.
Proof.
  split.
  - by apply (proj1 (american_to_decimal_range 0)).
  - destruct (proj2 (american_to_decimal_range (-110)))
      as (d & Hd & Hlow & Hfav & _); [done|simpl; lia|].
    exists d. split_and!; [done|done|]. apply Hfav. lia.
Defined.

Lemma fetch_lookup_exact_witness :
  (∀ m, m ∈ Fixtures.fetched_odds.2
        ↔ ∃ kv, kv ∈ Fixtures.fetched_odds.1 ∧ Parlays.ok_market kv.1 = m)
  ∧ ∀ kv, kv ∈ Fixtures.fetched_odds.1 →
      Parlays.ok_side kv.1 = "over"%string
      ∧ Parlays.book kv.2 = "FanDuel"%string
      ∧ Parlays.american_to_decimal (Parlays.american kv.2)
        = Ok (Parlays.decimal kv.2)
      ∧ Parlays.american kv.2 ≠ 0
      ∧ Parlays.ok_market kv.1 ∈ Parlays.ODDS_MARKETS.
Proof.
  apply (fetch_lookup_exact (λ s, s) (λ s, s) Fixtures.odds_service).
  reflexivity.
Defined.

Example fetched_odds_lines :
  length Fixtures.fetched_odds.1 = 2%nat
  ∧ Fixtures.fetched_odds.2 = {[ "player_points"%string ]}.
Proof. split; reflexivity. Qed.

Lemma pick_is_a_line_witness :
  ∃ k val,
    (k, val) ∈ Samples.standard_lines
    ∧ Parlays.ok_market k = "player_points"%string
    ∧ Parlays.american val = -125.
Proof.
  destruct (pick_is_a_line (λ s, s) "player seven" "points" 20
              Samples.standard_lines Samples.points_markets
              {| Parlays.point := 185 # 10; Parlays.pick_american := -125;
                 Parlays.pick_decimal := 2; Parlays.pick_book := "FanDuel";
                 Parlays.used_market := "player_points" |})
    as (k & val & Hin & _ & _ & Hm & _ & Ham & _); [reflexivity|].
  exists k, val. by split_and!.
Defined.

(** ** nba_trends_phase4.py: picks per category and starters *)

Lemma phase4_ladder (c : category) :
  ∃ lvl rest, Phase4.THRESHOLDS c = lvl :: rest.
Proof. destruct c; by eexists _, _. Qed.

(** On a frame that is not empty, the line of a category is its first
    threshold when that meets the minimum rate, and nothing otherwise. *)
Lemma best_line_for_category_run (logs : DataFrame) (c : category)
    (lvl : Z) (rest : list Z) :
  logs ≠ [] →
  Phase4.THRESHOLDS c = lvl :: rest →
  Phase4.best_line_for_category logs c
  = if Qle_bool Phase4.MIN_HIT_RATE (rate_of logs c lvl)
    then Ok (Some (lvl, hits_ge logs c lvl, rate_of logs c lvl))
    else Ok None.
Proof.
  intros Hlogs Hcat. unfold Phase4.best_line_for_category.
  by destruct (best_hit_head Phase4.THRESHOLDS Phase4.MIN_HIT_RATE
                 logs c lvl rest Hlogs Hcat) as [-> _].
Qed.

Section EvaluateFacts.

Variables (name team_abbr : string) (logs : DataFrame).

Lemma evaluate_body_run (c : category) (lvl : Z) (rest : list Z)
    (picks : list Phase4.Pick) :
  logs ≠ [] →
  Phase4.THRESHOLDS c = lvl :: rest →
  Phase4.evaluate_body name team_abbr logs c picks
  = if Qle_bool Phase4.MIN_HIT_RATE (rate_of logs c lvl)
    then Ok (picks ++ [ {| Phase4.player := name;
                           Phase4.team := team_abbr; Phase4.cat := c;
                           Phase4.label := Phase4.STAT_LABEL c;
                           Phase4.line := lvl;
                           Phase4.hits := hits_ge logs c lvl;
                           Phase4.rate := rate_of logs c lvl |} ])
    else Ok picks.
Proof.
  intros Hlogs Hcat. unfold Phase4.evaluate_body.
  rewrite (best_line_for_category_run logs c lvl rest Hlogs Hcat).
  by destruct (Qle_bool _ _).
Qed.

#[local] Abbreviation meets c :=
  (∃ lvl rest, Phase4.THRESHOLDS c = lvl :: rest
               ∧ Qle Phase4.MIN_HIT_RATE (rate_of logs c lvl)).

#[local] Abbreviation pick_ok p :=
  (Phase4.player p = name
   ∧ Phase4.team p = team_abbr
   ∧ Phase4.label p = Phase4.STAT_LABEL (Phase4.cat p)
   ∧ (∃ rest, Phase4.THRESHOLDS (Phase4.cat p) = Phase4.line p :: rest)
   ∧ Phase4.hits p = hits_ge logs (Phase4.cat p) (Phase4.line p)
   ∧ Phase4.rate p = rate_of logs (Phase4.cat p) (Phase4.line p)
   ∧ Qle Phase4.MIN_HIT_RATE (Phase4.rate p)).

Lemma evaluate_loop (cats : list category) (acc : list Phase4.Pick) :
  logs ≠ [] →
  ∃ new,
    for_each (Phase4.evaluate_body name team_abbr logs) cats acc
      = Ok (acc ++ new)
    ∧ sublist (Phase4.cat <$> new) cats
    ∧ (∀ c, c ∈ Phase4.cat <$> new ↔ c ∈ cats ∧ meets c)
    ∧ Forall (λ p, pick_ok p) new.
Proof.
  intros Hlogs. revert acc.
  induction cats as [|c cats IH]; intros acc.
  - exists []. rewrite app_nil_r. split_and!; [done|done| |constructor].
    intros c. split; [by intros ?%elem_of_nil|by intros [?%elem_of_nil _]].
  - destruct (phase4_ladder c) as (lvl & rest & Hcat).
    cbn [for_each].
    rewrite (evaluate_body_run c lvl rest acc Hlogs Hcat).
    destruct (Qle_bool _ _) eqn:Hmeets; simpl.
    + apply Qle_bool_iff in Hmeets.
      destruct (IH (acc ++ [ {| Phase4.player := name;
                                Phase4.team := team_abbr; Phase4.cat := c;
                                Phase4.label := Phase4.STAT_LABEL c;
                                Phase4.line := lvl;
                                Phase4.hits := hits_ge logs c lvl;
                                Phase4.rate := rate_of logs c lvl |} ]))
        as (new & -> & Hsub & Hmem & Hall).
      eexists (_ :: new). split_and!.
      * by rewrite <- app_assoc.
      * simpl. by constructor.
      * intros c'. simpl. rewrite !elem_of_cons, Hmem. split.
        -- intros [->|[? ?]]; [|by auto].
           split; [by left|]. by exists lvl, rest.
        -- intros [[->|?] ?]; auto.
      * constructor; [|done]. simpl. split_and!; try done. by exists rest.
    + apply Qle_bool_false in Hmeets.
      destruct (IH acc) as (new & -> & Hsub & Hmem & Hall).
      exists new. split_and!; [done|by constructor| |done].
      intros c'. rewrite elem_of_cons, Hmem. split; [by intuition|].
      intros [[->|?] Hm]; [|done].
      destruct Hm as (lvl' & rest' & Hcat' & Hle).
      rewrite Hcat in Hcat'. injection Hcat' as <- <-.
      by apply Qlt_not_le in Hmeets.
Qed.

(** X20.  [evaluate_player_across_categories] raises nothing.  Its picks
    come in category order, one at most per category: a category has a
    pick exactly when the frame is not empty and the first threshold of
    its ladder meets the minimum rate, and the pick names that threshold
    with its hit count and rate. *)
Theorem evaluate_player_picks :
  ∃ picks,
    Phase4.evaluate_player_across_categories name team_abbr logs = Ok picks
    ∧ sublist (Phase4.cat <$> picks) Phase4.ORDERED_CATEGORIES
    ∧ (∀ c, c ∈ Phase4.cat <$> picks ↔ logs ≠ [] ∧ meets c)
    ∧ ∀ p, p ∈ picks →
        Phase4.player p = name
        ∧ Phase4.team p = team_abbr
        ∧ Phase4.label p = Phase4.STAT_LABEL (Phase4.cat p)
        ∧ (∃ rest, Phase4.THRESHOLDS (Phase4.cat p) = Phase4.line p :: rest)
        ∧ Phase4.hits p = hits_ge logs (Phase4.cat p) (Phase4.line p)
        ∧ Phase4.rate p = rate_of logs (Phase4.cat p) (Phase4.line p)
        ∧ (Phase4.MIN_HIT_RATE <= Phase4.rate p)%Q.
Proof.
  unfold Phase4.evaluate_player_across_categories.
  destruct (decide (logs = [])) as [Hnil|Hlogs].
  - exists []. split_and!; [done|apply sublist_nil_l| |].
    + intros c. split; [by intros ?%elem_of_nil|by intros [? _]].
    + by intros p ?%elem_of_nil.
  - destruct (evaluate_loop Phase4.ORDERED_CATEGORIES [] Hlogs)
      as (new & -> & Hsub & Hmem & Hall).
    exists new. split_and!; [done|done| |by apply Forall_forall].
    intros c. rewrite Hmem. split; [by intros [_ ?]|].
    intros [_ Hm]. split; [|done].
    destruct c; apply list_elem_of_In; simpl; tauto.
Qed.

End EvaluateFacts.

Lemma by_minutes_total (x y : Phase4.Candidate) :
  Phase4.by_minutes x y = true ∨ Phase4.by_minutes y x = true.
Proof.
  unfold Phase4.by_minutes. rewrite !Qle_bool_iff.
  destruct (Qlt_le_dec (Phase4.avg_min x) (Phase4.avg_min y))
    as [?%Qlt_le_weak|?]; auto.
Qed.

Lemma by_minutes_trans (x y z : Phase4.Candidate) :
  Phase4.by_minutes x y = true → Phase4.by_minutes y z = true →
  Phase4.by_minutes x z = true.
Proof.
  unfold Phase4.by_minutes. rewrite !Qle_bool_iff. intros ? ?.
  by apply Qle_trans with (Phase4.avg_min y).
Qed.

Lemma StronglySorted_weaken {A} (R1 R2 : relation A) (l : list A) :
  (∀ x y, R1 x y → R2 x y) → StronglySorted R1 l → StronglySorted R2 l.
Proof.
  intros Himp. induction 1 as [|x l _ IH Hall]; constructor; [done|].
  eapply Forall_impl; [exact Hall|]. auto.
Qed.

Section StartersFacts.

Variable SEASONS : list string.
Variable PlayerGameLog : Z → string → Res DataFrame.

#[local] Abbreviation candidate_body :=
  (Phase4.candidate_body SEASONS PlayerGameLog).

(** What a candidate records: the player's window and its mean minutes,
    0 when the window is empty. *)
#[local] Abbreviation candidate_ok c :=
  (Phase5.fetch_player_logs SEASONS PlayerGameLog Phase4.LOOKBACK_GAMES
     (Phase4.cand_id c) = Ok (Phase4.cand_logs c)
   ∧ Phase4.avg_min c
     = (if decide (Phase4.cand_logs c = []) then 0%Q
        else Phase4.mean_minutes (Phase4.cand_logs c))).

Lemma candidate_body_run (pid : Z) (name : string)
    (acc : list Phase4.Candidate) :
  ∃ logs,
    Phase5.fetch_player_logs SEASONS PlayerGameLog Phase4.LOOKBACK_GAMES pid
      = Ok logs
    ∧ candidate_body (pid, name) acc
      = Ok (acc ++ [ {| Phase4.cand_id := pid; Phase4.cand_name := name;
                        Phase4.avg_min :=
                          if decide (logs = []) then 0%Q
                          else Phase4.mean_minutes logs;
                        Phase4.cand_logs := logs |} ]).
Proof.
  destruct (fetch_player_logs_returns SEASONS PlayerGameLog
              Phase4.LOOKBACK_GAMES pid) as [logs Hlogs].
  exists logs. split; [done|].
  unfold Phase4.candidate_body, Phase4.get_player_logs. cbn [fst snd].
  by rewrite Hlogs.
Qed.

(** The roster loop raises nothing and makes one candidate per row, in
    row order. *)
Lemma candidate_loop (roster : list (Z * string))
    (acc : list Phase4.Candidate) :
  ∃ new,
    for_each candidate_body roster acc = Ok (acc ++ new)
    ∧ Phase4.cand_id <$> new = fst <$> roster
    ∧ Phase4.cand_name <$> new = snd <$> roster
    ∧ Forall (λ c, candidate_ok c) new.
Proof.
  revert acc. induction roster as [|[pid name] roster IH]; intros acc.
  - exists []. rewrite app_nil_r. split_and!; [done..|constructor].
  - cbn [for_each].
    destruct (candidate_body_run pid name acc) as (logs & Hlogs & ->).
    cbn [mbind Res_bind].
    destruct (IH (acc ++ [ {| Phase4.cand_id := pid;
                              Phase4.cand_name := name;
                              Phase4.avg_min :=
                                if decide (logs = []) then 0%Q
                                else Phase4.mean_minutes logs;
                              Phase4.cand_logs := logs |} ]))
      as (new & -> & Hids & Hnames & Hall).
    eexists (_ :: new). split_and!.
    + by rewrite <- app_assoc.
    + rewrite !fmap_cons. cbn [Phase4.cand_id fst]. by f_equal.
    + rewrite !fmap_cons. cbn [Phase4.cand_name snd]. by f_equal.
    + constructor; [|done]. done.
Qed.

(** X21.  [pick_top5_by_minutes] raises nothing.  It makes one candidate
    per roster row and keeps five of them, or all when the roster has
    fewer: the kept ones come in descending order of average minutes and
    no candidate left out averages more minutes than a kept one.  A
    player without a window counts with an average of 0 and can be
    kept. *)
Theorem pick_top5_by_minutes_top (roster : list (Z * string)) :
  ∃ candidates chosen rest,
    Phase4.pick_top5_by_minutes SEASONS PlayerGameLog roster = Ok chosen
    ∧ Phase4.cand_id <$> candidates = fst <$> roster
    ∧ (∀ c, c ∈ candidates → candidate_ok c)
    ∧ chosen ++ rest ≡ₚ candidates
    ∧ length chosen = (Phase4.REQ_STARTERS `min` length roster)%nat
    ∧ (∀ x y, x ∈ chosen → y ∈ rest →
         (Phase4.avg_min y <= Phase4.avg_min x)%Q)
    ∧ StronglySorted
        (λ x y, (Phase4.avg_min y <= Phase4.avg_min x)%Q) chosen.
Proof.
  destruct (candidate_loop roster []) as (candidates & Hrun & Hids & _ & Hall).
  simpl in Hrun.
  set (sorted := Parlays.list_sort Phase4.by_minutes candidates).
  exists candidates, (take Phase4.REQ_STARTERS sorted),
    (drop Phase4.REQ_STARTERS sorted).
  pose proof (list_sort_perm Phase4.by_minutes candidates) as Hperm.
  pose proof (list_sort_sorted Phase4.by_minutes by_minutes_total
                by_minutes_trans candidates) as Hsorted.
  fold sorted in Hperm, Hsorted.
  apply (StronglySorted_weaken _
           (λ x y, (Phase4.avg_min y <= Phase4.avg_min x)%Q)) in Hsorted;
    [|intros x y Hxy; by apply Qle_bool_iff].
  split_and!.
  - unfold Phase4.pick_top5_by_minutes. by rewrite Hrun.
  - done.
  - by apply Forall_forall.
  - by rewrite take_drop.
  - rewrite length_take, (Permutation_length Hperm).
    by rewrite <- (length_fmap Phase4.cand_id), Hids, length_fmap.
  - rewrite <- (take_drop Phase4.REQ_STARTERS sorted) in Hsorted.
    apply StronglySorted_app in Hsorted as (Hcross & _ & _).
    intros x y Hx Hy. by apply (Hcross x y).
  - by apply take_sorted.
Qed.

End StartersFacts.

(** ** test_multi_player_stats.py: the hit rate as a percentage *)

Lemma filter_length_all_iff {A} (P : A → Prop) `{∀ x, Decision (P x)}
    (l : list A) :
  length (filter P l) = length l ↔ Forall P l.
Proof.
  split; [|apply filter_length_all].
  induction l as [|x l IH]; [constructor|].
  rewrite filter_cons. destruct (decide (P x)) as [Hx|Hx]; simpl.
  - intros [= Hlen]. constructor; auto.
  - intros Hlen. pose proof (length_filter P l). lia.
Qed.

Lemma filter_length_none_iff {A} (P : A → Prop) `{∀ x, Decision (P x)}
    (l : list A) :
  length (filter P l) = 0%nat ↔ Forall (λ x, ¬ P x) l.
Proof.
  split; [|apply filter_length_none].
  induction l as [|x l IH]; [constructor|].
  rewrite filter_cons. destruct (decide (P x)) as [Hx|Hx]; simpl; [done|].
  intros Hlen. constructor; auto.
Qed.

(** A share of [h] out of [n] as a percentage. *)
Lemma percentage_bounds (h n : Z) :
  0 ≤ h ≤ n → 0 < n →
  let r := (inject_Z h / inject_Z n * inject_Z 100)%Q in
  (0 <= r)%Q ∧ (r <= 100)%Q ∧ ((r == 100)%Q ↔ h = n) ∧ ((r == 0)%Q ↔ h = 0).
Proof.
  intros Hh Hn. destruct n as [|p|p]; [lia| |lia].
  unfold Qle, Qeq, Qdiv, Qmult, Qinv, inject_Z. cbn.
  rewrite !Z.mul_1_r, !Pos.mul_1_r.
  split_and!; [lia|lia| |]; split; lia.
Qed.

(** X22.  [hit_rate] has no value (NaN) on an empty series.  On any other
    series it is a percentage between 0 and 100: 100 exactly when every
    value reaches the threshold and 0 exactly when none does. *)
Theorem hit_rate_percentage (series : list Z) (threshold : Z) :
  (series = [] → TestMulti.hit_rate series threshold = None)
  ∧ (series ≠ [] →
     ∃ r, TestMulti.hit_rate series threshold = Some r
          ∧ (0 <= r)%Q ∧ (r <= 100)%Q
          ∧ ((r == 100)%Q ↔ Forall (λ v, threshold ≤ v) series)
          ∧ ((r == 0)%Q ↔ Forall (λ v, v < threshold) series)).
Proof.
  unfold TestMulti.hit_rate. split; [by intros ->|].
  intros Hne. rewrite decide_False by done. eexists. split; [done|].
  pose proof (length_filter (λ v, threshold ≤ v) series) as Hle.
  assert (Hpos : 0 < Z.of_nat (length series)).
  { destruct series; [done|]. simpl. lia. }
  assert (Hhits : 0 ≤ Z.of_nat (length (filter (λ v, threshold ≤ v) series))
                  ≤ Z.of_nat (length series)) by lia.
  destruct (percentage_bounds _ _ Hhits Hpos) as (H0 & H100 & Hall & Hnone).
  split_and!; [done|done| |].
  - rewrite Hall, Nat2Z.inj_iff. apply filter_length_all_iff.
  - rewrite Hnone. change 0 with (Z.of_nat 0). rewrite Nat2Z.inj_iff.
    rewrite filter_length_none_iff. apply Forall_iff. intros v. lia.
Qed.

(** ** nba_trends_parlays_final.py: names and cache files *)

Lemma string_app_assoc (a b c : string) :
  ((a ++ b) ++ c = a ++ (b ++ c))%string.
Proof.
  induction a as [|x a IH]; [done|].
  change (String x ((a ++ b) ++ c) = String x (a ++ (b ++ c)))%string.
  by rewrite IH.
Qed.

Lemma replace_char_app (old : ascii) (new a b : string) :
  Parlays.replace_char old new (a ++ b)%string
  = (Parlays.replace_char old new a ++ Parlays.replace_char old new b)%string.
Proof.
  induction a as [|x a IH]; [done|].
  change (String x a ++ b)%string with (String x (a ++ b)).
  cbn [Parlays.replace_char].
  destruct (Ascii.eqb x old); rewrite IH; [|done].
  symmetry. apply string_app_assoc.
Qed.

(** X23.  Dots do not count in a cache file name and a space counts as an
    underscore: two player names that differ only in that way share one
    cache file. *)
Theorem cache_path_normalises (a b : string) :
  Parlays.cache_path (a ++ "." ++ b)%string = Parlays.cache_path (a ++ b)%string
  ∧ Parlays.cache_path (a ++ " " ++ b)%string
    = Parlays.cache_path (a ++ "_" ++ b)%string.
Proof.
  unfold Parlays.cache_path. split.
  - by rewrite !replace_char_app.
  - by rewrite !replace_char_app.
Qed.

(** ** nba_trends_phase5_cached.py: when the cached loader raises *)

Section CacheErrorFacts.

Variable CACHE_MAX_AGE_HOURS : Z.
Variable SEASONS : list string.
Variable PlayerGameLog : Z → string → Res DataFrame.
Variable lookback : nat.

#[local] Abbreviation get_player_logs :=
  (Phase5.get_player_logs CACHE_MAX_AGE_HOURS SEASONS PlayerGameLog lookback).

(** A file for [pid] that is not past the maximum age and lists no rows. *)
#[local] Abbreviation empty_entry fs clk pid :=
  (∃ data, fs !! pid = Some data
           ∧ Phase5.logs data = []
           ∧ Phase5.t_load clk - Phase5.strptime_day (Phase5.updated data)
               ≤ Phase5.timedelta_hours CACHE_MAX_AGE_HOURS).

Lemma get_player_logs_cases (fs : gmap Z Phase5.CacheFile)
    (clk : Phase5.Clock) (pid : Z) :
  (empty_entry fs clk pid ∧ get_player_logs fs clk pid = Raise KeyError)
  ∨ (¬ empty_entry fs clk pid
     ∧ ∃ df fs', get_player_logs fs clk pid = Ok (df, fs')
         ∧ (fs' = fs
            ∨ df ≠ [] ∧ fs' = Phase5.save_cached_logs fs (Phase5.t_save clk)
                                 pid df)).
Proof.
  unfold Phase5.get_player_logs, Phase5.load_cached_logs.
  destruct (fetch_player_logs_returns SEASONS PlayerGameLog lookback pid)
    as (fresh & Hfetch).
  assert (Hmiss :
    ∃ df fs',
      (cached ← Ok [];
       if Phase5.cached_is_current cached
            (Phase5.date_of (Phase5.t_today clk))
       then Ok (cached, fs)
       else fresh ← Phase5.fetch_player_logs SEASONS PlayerGameLog
                      lookback pid;
            if decide (fresh = []) then Ok (fresh, fs)
            else Ok (fresh,
                     Phase5.save_cached_logs fs (Phase5.t_save clk) pid fresh))
      = Ok (df, fs')
      ∧ (fs' = fs
         ∨ df ≠ [] ∧ fs' = Phase5.save_cached_logs fs (Phase5.t_save clk)
                              pid df)).
  { simpl. rewrite Hfetch. simpl.
    destruct (decide (fresh = [])); eexists _, _; (split; [done|]); auto. }
  destruct (fs !! pid) as [data|] eqn:Hfile.
  - destruct (decide (_ > _)) as [Hold|Hage].
    + right. split; [|done].
      intros (data' & [= <-] & _ & Hin). lia.
    + destruct (decide (Phase5.logs data = [])) as [Hnil|Hrows].
      * left. split; [|done]. exists data. split_and!; [done|done|lia].
      * right. split; [by intros (data' & [= <-] & ? & _)|].
        cbn [mbind Res_bind].
        destruct (Phase5.cached_is_current _ _); [by eexists _, _; auto|].
        rewrite Hfetch. cbn [mbind Res_bind].
        destruct (decide (fresh = [])); eexists _, _; (split; [done|]); auto.
  - right. split; [|done]. by intros (data' & [=] & _).
Qed.

(** X24.  A well-formed cache file that is not past the maximum age and
    lists no rows makes [get_player_logs] raise [KeyError], whatever the
    service holds: the rows are read before any request.  The calls
    never write such a file themselves: a file without rows that is in
    the store after a call was there before it. *)
Theorem get_player_logs_empty_entry (fs : gmap Z Phase5.CacheFile)
    (clk : Phase5.Clock) (pid : Z) :
  (empty_entry fs clk pid →
     Phase5.get_player_logs CACHE_MAX_AGE_HOURS SEASONS PlayerGameLog
       lookback fs clk pid = Raise KeyError)
  ∧ ∀ df fs' pid' data,
      Phase5.get_player_logs CACHE_MAX_AGE_HOURS SEASONS PlayerGameLog
        lookback fs clk pid = Ok (df, fs') →
      fs' !! pid' = Some data →
      Phase5.logs data = [] →
      fs !! pid' = Some data.
Proof.
  destruct (get_player_logs_cases fs clk pid)
    as [[Hempty Hrun]|[Hnot (df & fs' & Hrun & Hfs)]]; rewrite Hrun.
  - split; [done|]. by intros df fs' pid' data.
  - split; [done|]. intros df0 fs0 pid' data [= <- <-] Hfile Hnil.
    destruct Hfs as [->|[Hdf ->]]; [done|].
    unfold Phase5.save_cached_logs in Hfile.
    destruct (decide (pid = pid')) as [<-|Hne].
    + rewrite lookup_insert_eq in Hfile. injection Hfile as <-. done.
    + by rewrite lookup_insert_ne in Hfile.
Qed.

(** ** nba_trends_phase5_cached.py: the starters of a team *)

Variable CommonTeamRoster : Z → Res (list (Z * string)).
Variable clock : nat → Phase5.Clock.

#[local] Abbreviation roster_body :=
  (Phase5Starters.roster_body CACHE_MAX_AGE_HOURS SEASONS PlayerGameLog
     lookback clock).
#[local] Abbreviation get_top5_by_minutes :=
  (Phase5Starters.get_top5_by_minutes CACHE_MAX_AGE_HOURS SEASONS
     PlayerGameLog lookback CommonTeamRoster clock).

Lemma by_avg_total (x y : Phase5Starters.Starter) :
  Phase5Starters.by_avg x y = true ∨ Phase5Starters.by_avg y x = true.
Proof.
  unfold Phase5Starters.by_avg. rewrite !Qle_bool_iff.
  destruct (Qlt_le_dec (Phase5Starters.avg x) (Phase5Starters.avg y))
    as [?%Qlt_le_weak|?]; auto.
Qed.

Lemma by_avg_trans (x y z : Phase5Starters.Starter) :
  Phase5Starters.by_avg x y = true → Phase5Starters.by_avg y z = true →
  Phase5Starters.by_avg x z = true.
Proof.
  unfold Phase5Starters.by_avg. rewrite !Qle_bool_iff. intros ? ?.
  by apply Qle_trans with (Phase5Starters.avg y).
Qed.

(** One call on a store without empty row lists: it returns, keeps the
    store that way and touches no other player's file. *)
Lemma get_player_logs_on_wf (fs : gmap Z Phase5.CacheFile)
    (clk : Phase5.Clock) (pid : Z) :
  Phase5.cache_wf fs →
  ∃ df fs',
    get_player_logs fs clk pid = Ok (df, fs')
    ∧ Phase5.cache_wf fs'
    ∧ ∀ p, p ≠ pid → fs' !! p = fs !! p.
Proof.
  intros Hwf.
  destruct (get_player_logs_cases fs clk pid)
    as [[(data & Hfile & Hnil & _) _]|[_ (df & fs' & Hrun & Hfs)]].
  { by destruct (Hwf pid data Hfile). }
  exists df, fs'. split; [done|].
  destruct Hfs as [->|[Hdf ->]]; [done|]. split.
  - intros p data. unfold Phase5.save_cached_logs.
    destruct (decide (pid = p)) as [<-|Hne].
    + rewrite lookup_insert_eq. by intros [= <-].
    + rewrite lookup_insert_ne by done. apply Hwf.
  - intros p Hp. unfold Phase5.save_cached_logs.
    by rewrite lookup_insert_ne.
Qed.

Lemma roster_body_run (pid : Z) (name : string)
    (players : list Phase5Starters.Starter) (fs fs1 : gmap Z Phase5.CacheFile)
    (n : nat) (logs : DataFrame) :
  get_player_logs fs (clock n) pid = Ok (logs, fs1) →
  roster_body (pid, name) (players, fs, n)
  = Ok (players ++ [ {| Phase5Starters.id := pid;
                        Phase5Starters.name := name;
                        Phase5Starters.logs := logs;
                        Phase5Starters.avg :=
                          if decide (logs = []) then 0%Q
                          else Phase4.mean_minutes logs |} ], fs1, S n).
Proof.
  intros Hrun. unfold Phase5Starters.roster_body. cbn [fst snd].
  by rewrite Hrun.
Qed.

(** Entry [s] is what the roster row [row] gives when the loader is
    called at clock [clk] on the store [st], leaving the store [st']: the
    player's rows, and their mean minutes or 0 when there is none. *)
#[local] Abbreviation starter_of row clk st st' s :=
  (Phase5Starters.id s = fst row
   ∧ Phase5Starters.name s = snd row
   ∧ Phase5.get_player_logs CACHE_MAX_AGE_HOURS SEASONS PlayerGameLog
       lookback st clk (fst row) = Ok (Phase5Starters.logs s, st')
   ∧ Phase5Starters.avg s
     = (if decide (Phase5Starters.logs s = []) then 0%Q
        else Phase4.mean_minutes (Phase5Starters.logs s))).

(** The entries are made row by row, each call of the loader working on
    the store the calls before it left: [stores] lists these stores. *)
#[local] Abbreviation made_in_turn df n fs fs' players stores :=
  (length players = length df
   ∧ length stores = S (length df)
   ∧ stores !! 0%nat = Some fs
   ∧ stores !! length df = Some fs'
   ∧ ∀ (i : nat) row s st st',
       df !! i = Some row → players !! i = Some s →
       stores !! i = Some st → stores !! S i = Some st' →
       starter_of row (clock (n + i)) st st' s)%list.

Lemma roster_loop (df : list (Z * string))
    (players : list Phase5Starters.Starter) (fs : gmap Z Phase5.CacheFile)
    (n : nat) :
  Phase5.cache_wf fs →
  ∃ new fs' stores,
    for_each roster_body df (players, fs, n)
      = Ok (players ++ new, fs', (n + length df)%nat)
    ∧ Phase5.cache_wf fs'
    ∧ made_in_turn df n fs fs' new stores
    ∧ ∀ p, p ∉ fst <$> df → fs' !! p = fs !! p.
Proof.
  revert players fs n.
  induction df as [|[pid name] df IH]; intros players fs n Hwf.
  - exists [], fs, [fs]. rewrite app_nil_r, Nat.add_0_r.
    by split_and!.
  - cbn [for_each].
    destruct (get_player_logs_on_wf fs (clock n) pid Hwf)
      as (logs & fs1 & Hrun & Hwf1 & Hother).
    rewrite (roster_body_run pid name players fs fs1 n logs Hrun).
    cbn [mbind Res_bind].
    set (s0 := {| Phase5Starters.id := pid;
                  Phase5Starters.name := name;
                  Phase5Starters.logs := logs;
                  Phase5Starters.avg :=
                    if decide (logs = []) then 0%Q
                    else Phase4.mean_minutes logs |}).
    destruct (IH (players ++ [s0]) fs1 (S n) Hwf1)
      as (new & fs' & stores & -> & Hwf'
          & (Hlen & Hstores & Hfirst & Hlast & Hturn) & Hrest).
    exists (s0 :: new), fs', (fs :: stores). split_and!.
    + rewrite <- app_assoc. do 2 f_equal. simpl. lia.
    + done.
    + simpl. by rewrite Hlen.
    + simpl. by rewrite Hstores.
    + done.
    + done.
    + intros [|i] row s st st' Hrow Hs Hst Hst'.
      * simpl in Hrow, Hs, Hst.
        injection Hrow as <-. injection Hs as <-. injection Hst as <-.
        change (stores !! 0%nat = Some st') in Hst'.
        rewrite Hfirst in Hst'. injection Hst' as <-.
        rewrite Nat.add_0_r. by split_and!.
      * rewrite Nat.add_succ_r. by apply (Hturn i row s st st').
    + intros p Hp. rewrite fmap_cons, not_elem_of_cons in Hp.
      destruct Hp as [Hne Hp]. rewrite (Hrest p Hp). by apply Hother.
Qed.

(** X25.  On a store of well-formed cache files none of which lists zero
    rows, [get_top5_by_minutes] raises nothing and leaves the store that
    way.  When the roster request fails it returns no player and leaves
    the store alone.  Otherwise it makes one entry per roster row, in
    row order, each from a call of [get_player_logs] on the store the
    calls before it left, with the mean minutes of the rows that call
    returned (0 when it returned none); it keeps five of the entries, or
    all when the roster has fewer, in descending order of that mean, no
    entry left out having a higher mean than one kept; and it touches
    the cache file of no player outside the roster. *)
Theorem get_top5_by_minutes_on_wf (fs : gmap Z Phase5.CacheFile) (tid : Z) :
  Phase5.cache_wf fs →
  ∃ chosen fs',
    Phase5Starters.get_top5_by_minutes CACHE_MAX_AGE_HOURS SEASONS
      PlayerGameLog lookback CommonTeamRoster clock fs tid
      = Ok (chosen, fs')
    ∧ Phase5.cache_wf fs'
    ∧ match CommonTeamRoster tid with
      | Raise _ => chosen = [] ∧ fs' = fs
      | Ok df =>
          ∃ players rest stores,
            made_in_turn df 0%nat fs fs' players stores
            ∧ chosen ++ rest ≡ₚ players
            ∧ length chosen
              = (Phase5Starters.REQ_STARTERS `min` length df)%nat
            ∧ StronglySorted
                (λ x y, (Phase5Starters.avg y <= Phase5Starters.avg x)%Q)
                chosen
            ∧ (∀ x y, x ∈ chosen → y ∈ rest →
                 (Phase5Starters.avg y <= Phase5Starters.avg x)%Q)
            ∧ ∀ p, p ∉ fst <$> df → fs' !! p = fs !! p
      end.
Proof.
  intros Hwf. unfold Phase5Starters.get_top5_by_minutes.
  destruct (CommonTeamRoster tid) as [df|e].
  - destruct (roster_loop df [] fs 0 Hwf)
      as (players & fs' & stores & -> & Hwf' & Hturn & Hrest).
    cbn [mbind Res_bind app].
    set (sorted := Parlays.list_sort Phase5Starters.by_avg players).
    pose proof (list_sort_perm Phase5Starters.by_avg players) as Hperm.
    pose proof (list_sort_sorted Phase5Starters.by_avg by_avg_total
                  by_avg_trans players) as Hsorted.
    fold sorted in Hperm, Hsorted.
    apply (StronglySorted_weaken _
             (λ x y, (Phase5Starters.avg y <= Phase5Starters.avg x)%Q))
      in Hsorted; [|intros x y Hxy; by apply Qle_bool_iff].
    exists (take Phase5Starters.REQ_STARTERS sorted), fs'.
    split; [done|]. split; [done|].
    exists players, (drop Phase5Starters.REQ_STARTERS sorted), stores.
    split; [done|]. split_and!.
    + by rewrite take_drop.
    + rewrite length_take, (Permutation_length Hperm).
      by destruct Hturn as (-> & _).
    + by apply take_sorted.
    + rewrite <- (take_drop Phase5Starters.REQ_STARTERS sorted) in Hsorted.
      apply StronglySorted_app in Hsorted as (Hcross & _ & _).
      intros x y Hx Hy. by apply (Hcross x y).
    + done.
  - exists [], fs. by split_and!.
Qed.

End CacheErrorFacts.

(** ** nba_trends_phase6_grouped.py: the cache without expiry *)

Section Phase6LogsFacts.

Variable SEASONS : list string.
Variable PlayerGameLog : Z → string → Res DataFrame.

#[local] Abbreviation get_logs := (Phase6Logs.get_logs SEASONS PlayerGameLog).

Lemma cache_hit_cases (fs : gmap Z Phase6Logs.FileText) (pid : Z) :
  Phase6Logs.cache_hit fs pid ∨ ¬ Phase6Logs.cache_hit fs pid.
Proof.
  unfold Phase6Logs.cache_hit.
  destruct (fs !! pid) as [[|rows]|].
  - right. by intros (? & [=] & _).
  - destruct (decide (Phase6.NUM_GAMES ≤ Z.of_nat (length rows))).
    + left. by exists rows.
    + right. by intros (? & [= <-] & ?).
  - right. by intros (? & [=] & _).
Qed.

(** X26.  A readable cache file with ten records or more is served as it
    is, whatever its age and whatever the service holds: the call returns
    its ten newest records, asks for nothing and leaves the store alone. *)
Theorem get_logs_cache_hit (fs : gmap Z Phase6Logs.FileText) (pid : Z)
    (rows : DataFrame) :
  fs !! pid = Some (Phase6Logs.Records rows) →
  Phase6.NUM_GAMES ≤ Z.of_nat (length rows) →
  get_logs fs pid = Ok (Some (take 10 (sort_values_desc rows)), fs).
Proof.
  intros Hfile Hfull. unfold Phase6Logs.get_logs, Phase6Logs.safe_cache_load.
  rewrite Hfile. destruct rows as [|r rows]; [by vm_compute in Hfull|].
  rewrite (Permutation_length (sort_values_desc_perm (r :: rows))).
  by rewrite (proj2 (Z.leb_le _ _) Hfull).
Qed.

(** The rows the call goes to the service with. *)
Lemma get_logs_miss (fs : gmap Z Phase6Logs.FileText) (pid : Z) :
  ¬ Phase6Logs.cache_hit fs pid →
  ∃ fs1,
    (∀ p, p ≠ pid → fs1 !! p = fs !! p)
    ∧ get_logs fs pid
      = (r ← for_in (Phase6Logs.get_logs_body PlayerGameLog pid) SEASONS [];
         match r with
         | inl all_logs =>
             if decide (all_logs = []) then Ok (None, fs1)
             else
               Ok (Some (take (Z.to_nat Phase6.NUM_GAMES)
                           (sort_values_desc all_logs)),
                   Phase6Logs.safe_cache_save fs1 pid
                     (sort_values_desc all_logs))
         | inr impossible => match impossible : Empty_set with end
         end).
Proof.
  intros Hmiss. unfold Phase6Logs.get_logs, Phase6Logs.safe_cache_load.
  destruct (fs !! pid) as [[|[|r rows]]|] eqn:Hfile.
  - exists (delete pid fs). split; [|done].
    intros p Hp. by rewrite lookup_delete_ne.
  - exists (delete pid fs). split; [|done].
    intros p Hp. by rewrite lookup_delete_ne.
  - exists fs. split; [done|].
    destruct (_ <=? _) eqn:Hfull; [|done].
    destruct Hmiss. exists (r :: rows). split; [done|].
    apply Z.leb_le in Hfull.
    by rewrite (Permutation_length (sort_values_desc_perm (r :: rows)))
      in Hfull.
  - by exists fs.
Qed.

(** X27.  Without such a file the requests are not guarded: when the
    request for the first season fails, [get_logs] raises that very
    exception. *)
Theorem get_logs_request_error (fs : gmap Z Phase6Logs.FileText) (pid : Z)
    (season : string) (later : list string) (e : exn) :
  ¬ Phase6Logs.cache_hit fs pid →
  SEASONS = season :: later →
  PlayerGameLog pid season = Raise e →
  get_logs fs pid = Raise e.
Proof.
  intros Hmiss Hseasons Hdown.
  destruct (get_logs_miss fs pid Hmiss) as (fs1 & _ & ->).
  rewrite Hseasons. cbn [for_in]. unfold Phase6Logs.get_logs_body at 1.
  by rewrite Hdown.
Qed.

(** X28.  A frame that [get_logs] returns has at most ten rows, and the
    store then holds a full window for the player exactly when the frame
    has ten: a player with fewer rows is asked for again at every call.
    No other player's file is touched. *)
Theorem get_logs_outcome (fs fs' : gmap Z Phase6Logs.FileText) (pid : Z)
    (window : DataFrame) :
  get_logs fs pid = Ok (Some window, fs') →
  (length window ≤ 10)%nat
  ∧ (Phase6Logs.cache_hit fs' pid ↔ length window = 10%nat)
  ∧ ∀ p, p ≠ pid → fs' !! p = fs !! p.
Proof.
  destruct (cache_hit_cases fs pid) as [Hhit|Hmiss].
  - destruct Hhit as (rows & Hfile & Hfull).
    assert (Hrun : get_logs fs pid
                   = Ok (Some (take 10 (sort_values_desc rows)), fs)).
    { unfold Phase6Logs.get_logs, Phase6Logs.safe_cache_load. rewrite Hfile.
      destruct rows as [|r rows']; [by vm_compute in Hfull|].
      rewrite (Permutation_length (sort_values_desc_perm (r :: rows'))).
      by rewrite (proj2 (Z.leb_le _ _) Hfull). }
    rewrite Hrun. intros [= <- <-].
    assert (Hlen : length (take 10 (sort_values_desc rows)) = 10%nat).
    { rewrite length_take,
        (Permutation_length (sort_values_desc_perm rows)).
      unfold Phase6.NUM_GAMES in Hfull. lia. }
    split_and!; [lia| |done].
    split; [done|]. intros _. by exists rows.
  - destruct (get_logs_miss fs pid Hmiss) as (fs1 & Hother & ->).
    destruct (for_in _ _ _) as [[all_logs|[]]|e]; cbn [mbind Res_bind];
      [|done].
    destruct (decide (all_logs = [])); [done|].
    intros [= <- <-]. change (Z.to_nat Phase6.NUM_GAMES) with 10%nat.
    rewrite length_take. split_and!; [lia| |].
    + unfold Phase6Logs.cache_hit, Phase6Logs.safe_cache_save.
      rewrite lookup_insert_eq. unfold Phase6.NUM_GAMES. split.
      * intros (rows & [= <-] & Hfull). lia.
      * intros Hlen. eexists. split; [done|]. lia.
    + intros p Hp. unfold Phase6Logs.safe_cache_save.
      rewrite lookup_insert_ne by done. by apply Hother.
Qed.

End Phase6LogsFacts.

(** ** The added properties on sample data *)

Lemma get_top5_by_minutes_on_wf_witness :
  ∃ chosen fs',
    Phase5Starters.get_top5_by_minutes Phase5.CACHE_MAX_AGE_HOURS
      Phase5.SEASONS Samples.two_seasons 10 Fixtures.team_roster
      Fixtures.every_morning ∅ 1 = Ok (chosen, fs')
    ∧ length chosen = 2%nat
    ∧ fs' !! 9 = None.
Proof.
  destruct (get_top5_by_minutes_on_wf Phase5.CACHE_MAX_AGE_HOURS
              Phase5.SEASONS Samples.two_seasons 10 Fixtures.team_roster
              Fixtures.every_morning ∅ 1)
    as (chosen & fs' & Hrun & _ & Hroster).
  - intros pid data Hfile. by rewrite lookup_empty in Hfile.
  - change (Fixtures.team_roster 1)
      with (Ok [(7, "Player Seven"%string); (8, "Player Eight"%string)])
      in Hroster.
    cbv beta iota in Hroster.
    destruct Hroster as (players & rest & stores & _ & _ & Hlen & _ & _
                         & Hrest).
    exists chosen, fs'. split_and!; [done|done|].
    rewrite (Hrest 9); [done|]. compute_done.
Defined.

Lemma get_logs_cache_hit_witness :
  Phase6Logs.get_logs Phase6Logs.SEASONS Fixtures.service_down
    Fixtures.full_file 7
  = Ok (Some (take 10 (sort_values_desc Samples.ten_rows)),
        Fixtures.full_file).
Proof.
  apply (get_logs_cache_hit Phase6Logs.SEASONS Fixtures.service_down
           Fixtures.full_file 7 Samples.ten_rows).
  - reflexivity.
  - by vm_compute.
Defined.

Lemma get_logs_request_error_witness :
  Phase6Logs.get_logs Phase6Logs.SEASONS Fixtures.service_down ∅ 7
  = Raise RequestError.
Proof.
  apply (get_logs_request_error Phase6Logs.SEASONS Fixtures.service_down
           ∅ 7 "2025-26"%string ["2024-25"%string] RequestError).
  - intros (rows & Hfile & _). by rewrite lookup_empty in Hfile.
  - reflexivity.
  - reflexivity.
Defined.

Lemma get_logs_outcome_witness :
  (length Samples.ten_rows ≤ 10)%nat
  ∧ (Phase6Logs.cache_hit Fixtures.full_file 7
     ↔ length Samples.ten_rows = 10%nat)
  ∧ ∀ p, p ≠ 7 → Fixtures.full_file !! p = (∅ : gmap Z Phase6Logs.FileText) !! p.
Proof.
  apply (get_logs_outcome Phase6Logs.SEASONS Samples.two_seasons ∅
           Fixtures.full_file 7 Samples.ten_rows).
  by vm_compute.
Defined.

(** ** nba_trends_phase6_grouped.py: the scanner on the frames of [get_logs] *)

